(** * AIX data graph: the log parsing and normalisation layer

    A shallow embedding of the error-report (errpt) parser of
    [utils/ssh_manager.py], of the error-report collector of
    [collectors/errpt_collector.py] and of the system-log collector of
    [collectors/syslog_collector.py], with the properties of the
    specification that concern them.

    Python values are embedded as follows.
    - [str] is [string].  A character stands for the code point of the same
      number, so the model covers text over the code points 0..255; the
      character classes below ([isspace], [isdigit], [isword], [lower],
      [upper]) follow CPython on that range.
    - a [dict] with string keys is a [gmap string _]; [d.get(k, x)] is
      [default x (d !! k)], [d[k] = v] is [<[k:=v]> d], and the truth value
      of a dict is [d <> empty].
    - a [list] is a [list], [append] adds at the end. *)

From Stdlib Require Import ZArith NArith Ascii String List Bool Lia.
From stdpp Require Import base option list strings pretty gmap fin_maps.

Local Open Scope string_scope.
Local Open Scope list_scope.

(** ** Python string operations *)

Module PyStr.

(** [c.isspace()], the characters removed by [str.strip()]:
    TAB..CR, FS..US, space, NEL and the no-break space. *)
Definition isspace (c : ascii) : bool :=
  let n := N_of_ascii c in
  ((9 <=? n) && (n <=? 13) || (28 <=? n) && (n <=? 32)
   || (n =? 133) || (n =? 160))%N.

(** [\d] of the [re] module on [str] patterns: a decimal digit. *)
Definition isdigit (c : ascii) : bool :=
  let n := N_of_ascii c in ((48 <=? n) && (n <=? 57))%N.

(** [\w] of the [re] module on [str] patterns: an alphanumeric character
    (letters, digits and numeric characters) or the underscore. *)
Definition isword (c : ascii) : bool :=
  let n := N_of_ascii c in
  ((48 <=? n) && (n <=? 57) || (65 <=? n) && (n <=? 90) || (n =? 95)
   || (97 <=? n) && (n <=? 122)
   || (n =? 170) || (n =? 178) || (n =? 179) || (n =? 181) || (n =? 185)
   || (n =? 186) || (188 <=? n) && (n <=? 190)
   || (192 <=? n) && (n <=? 214) || (216 <=? n) && (n <=? 246)
   || (248 <=? n))%N.

Definition lower_char (c : ascii) : ascii :=
  let n := N_of_ascii c in
  if ((65 <=? n) && (n <=? 90) || (192 <=? n) && (n <=? 214)
      || (216 <=? n) && (n <=? 222))%N
  then ascii_of_N (n + 32) else c.

(** [s.lower()] *)
Fixpoint lower (s : string) : string :=
  match s with
  | EmptyString => EmptyString
  | String c s' => String (lower_char c) (lower s')
  end.

(** The upper-case form of one character.  The sharp s becomes two
    characters.  The micro sign and the y with diaeresis have upper-case
    forms outside the range of the model and are kept; the callers only
    test the result for ASCII substrings, which this does not change. *)
Definition upper_char (c : ascii) : string :=
  let n := N_of_ascii c in
  if ((97 <=? n) && (n <=? 122) || (224 <=? n) && (n <=? 246)
      || (248 <=? n) && (n <=? 254))%N
  then String (ascii_of_N (n - 32)) EmptyString
  else if (n =? 223)%N then "SS"
  else String c EmptyString.

(** [s.upper()] *)
Fixpoint upper (s : string) : string :=
  match s with
  | EmptyString => EmptyString
  | String c s' => upper_char c +:+ upper s'
  end.

(** [s.startswith(p)] *)
Fixpoint startswith (p s : string) : bool :=
  match p, s with
  | EmptyString, _ => true
  | String a p', String b s' => Ascii.eqb a b && startswith p' s'
  | String _ _, EmptyString => false
  end.

(** [needle in hay] *)
Fixpoint contains (needle hay : string) : bool :=
  startswith needle hay ||
  match hay with
  | EmptyString => false
  | String _ hay' => contains needle hay'
  end.

(** [s.lstrip()], [s.rstrip()] and [s.strip()] *)
Fixpoint lstrip (s : string) : string :=
  match s with
  | EmptyString => EmptyString
  | String c s' => if isspace c then lstrip s' else s
  end.

Fixpoint rstrip (s : string) : string :=
  match s with
  | EmptyString => EmptyString
  | String c s' =>
      match rstrip s' with
      | EmptyString => if isspace c then EmptyString else String c EmptyString
      | r => String c r
      end
  end.

Definition strip (s : string) : string := rstrip (lstrip s).

(** [s.split(sep)] for a non-empty [sep]: the pieces between the
    occurrences of [sep], found from the left and not overlapping.
    [skip] counts the characters of an occurrence still to be passed,
    [cur] is the piece being read. *)
Fixpoint split_go (sep : string) (skip : nat) (cur s : string) : list string :=
  match s with
  | EmptyString => [cur]
  | String c s' =>
      match skip with
      | S k => split_go sep k cur s'
      | O =>
          if startswith sep s
          then cur :: split_go sep (String.length sep - 1) EmptyString s'
          else split_go sep 0 (cur +:+ String c EmptyString) s'
      end
  end.

Definition split (sep s : string) : list string := split_go sep 0 EmptyString s.

(** [s.find(c)] for a one-character needle, [None] for Python's [-1]. *)
Fixpoint find (c : ascii) (s : string) : option nat :=
  match s with
  | EmptyString => None
  | String a s' => if Ascii.eqb a c then Some 0 else S <$> find c s'
  end.

(** [s[1:j]] where [j = s.find(c)]; when [c] is absent [j] is [-1] and
    the slice stops before the last character. *)
Definition slice_1_to_find (c : ascii) (s : string) : string :=
  match find c s with
  | Some j => substring 1 (j - 1) s
  | None => substring 1 (String.length s - 2) s
  end.

(** [any(k in s for k in keywords)] *)
Definition any_in (keywords : list string) (s : string) : bool :=
  existsb (fun k => contains k s) keywords.

(** The longest prefix of [s] made of characters satisfying [p], and what
    follows it. *)
Fixpoint span (p : ascii -> bool) (s : string) : string * string :=
  match s with
  | EmptyString => (EmptyString, EmptyString)
  | String c s' =>
      if p c then let '(a, b) := span p s' in (String c a, b)
      else (EmptyString, s)
  end.

End PyStr.

Import PyStr.

(** ** Values shared by the collectors *)

(** The values that occur in a record handed to the store. *)
Inductive value :=
| VNone
| VInt (z : Z)
| VStr (s : string).

(** The truth value of a Python value, as tested by [if v]. *)
Definition truthy (v : value) : bool :=
  match v with
  | VNone => false
  | VInt z => negb (z =? 0)%Z
  | VStr s => negb (String.eqb s "")
  end.

(** The two entries of a server descriptor that the collectors read. *)
Record server_config := { name : string; hostname : string }.

(** The result of a call that may raise. *)
Inductive outcome (A : Type) :=
| Returned (a : A)
| Raised (e : string).
Arguments Returned {A} a.
Arguments Raised {A} e.

(** The dictionary returned by [collect]. *)
Record collect_result := {
  success : bool;
  records_collected : nat;
  error_message : option string
}.

(** [{k: v for k, v in d.items() if v}] *)
Definition drop_falsy (d : gmap string value) : gmap string value :=
  filter (fun kv => truthy kv.2 = true) d.

(** ** [utils/ssh_manager.py] *)

Module SSHManager.

(** The [if]/[elif] chain of the errpt parser, in its order: the marker
    tested and the key the value is stored under. *)
Definition errpt_markers : list (string * string) :=
  [ ("IDENTIFIER:", "error_id");
    ("Timestamp:", "timestamp");
    ("Sequence Number:", "sequence_number");
    ("Machine Id:", "machine_id");
    ("Node Id:", "node_id");
    ("Class:", "class");
    ("Type:", "type");
    ("Resource Name:", "resource_name");
    ("Resource Class:", "resource_class");
    ("Resource Type:", "resource_type");
    ("Location:", "location_code");
    ("VPD:", "vpd");
    ("Description:", "description");
    ("Probable Causes:", "probable_causes");
    ("User Causes:", "user_causes");
    ("Install Causes:", "install_causes");
    ("Failure Causes:", "failure_causes");
    ("Recommended Actions:", "recommended_actions");
    ("Detail Data:", "detail_data") ].

(** The branch of the chain taken by a line: the first marker, in order,
    that the line contains. *)
Fixpoint first_marker (table : list (string * string)) (line : string)
  : option (string * string) :=
  match table with
  | [] => None
  | (marker, key) :: rest =>
      if contains marker line then Some (marker, key)
      else first_marker rest line
  end.

(** What the branch stores: [parts = line.split(marker)], and when
    [len(parts) == 2] the key receives [parts[1].strip()]. *)
Definition line_field (line : string) : option (string * string) :=
  match first_marker errpt_markers line with
  | Some (marker, key) =>
      match split marker line with
      | [_; v] => Some (key, strip v)
      | _ => None
      end
  | None => None
  end.

(** The body of the loop for a non-blank line. *)
Definition store_line (line : string) (current_entry : gmap string string)
  : gmap string string :=
  match line_field line with
  | Some (key, v) => <[key := v]> current_entry
  | None => current_entry
  end.

(** [if current_entry:] *)
Definition nonempty_entry (current_entry : gmap string string) : bool :=
  negb (bool_decide (current_entry = ∅)).

(** The loop over the lines, with the entry being read and the entries
    completed so far, followed by the last entry. *)
Fixpoint parse_loop (lines : list string) (current_entry : gmap string string)
    (errpt_data : list (gmap string string)) : list (gmap string string) :=
  match lines with
  | [] =>
      if nonempty_entry current_entry then errpt_data ++ [current_entry]
      else errpt_data
  | raw :: rest =>
      let line := strip raw in
      if String.eqb line "" then
        if nonempty_entry current_entry
        then parse_loop rest ∅ (errpt_data ++ [current_entry])
        else parse_loop rest current_entry errpt_data
      else parse_loop rest (store_line line current_entry) errpt_data
  end.

(** The line feed, the separator of [stdout.split('\n')]. *)
Definition nl : string := String (ascii_of_N 10) EmptyString.

(** The parsing part of [collect_errpt_data]. *)
Definition parse_errpt (stdout : string) : list (gmap string string) :=
  parse_loop (split nl stdout) ∅ [].

(** The entry built for one non-blank line of a log file by
    [collect_syslog_data]; [now] is [datetime.now().isoformat()]. *)
Record syslog_entry := {
  source : string;
  message : string;
  timestamp : string;
  facility : string;
  priority : string;
  process_id : string;
  entry_hostname : string
}.

Definition make_syslog_entry (server : server_config) (log_file line now : string)
  : syslog_entry :=
  {| source := log_file;
     message := line;
     timestamp :=
       if startswith "[" line && contains "]" line
       then slice_1_to_find "]" line
       else now;
     facility := "UNKNOWN";
     priority := "UNKNOWN";
     process_id := "";
     entry_hostname := hostname server |}.

(** The loop over the lines of one log file.  [clock k] is the reading of
    the clock at its [k]-th use, [tick] counts the uses. *)
Fixpoint syslog_lines (clock : nat -> string) (server : server_config)
    (log_file : string) (lines : list string) (tick : nat)
  : list syslog_entry * nat :=
  match lines with
  | [] => ([], tick)
  | raw :: rest =>
      let line := strip raw in
      if String.eqb line "" then syslog_lines clock server log_file rest tick
      else
        let entry := make_syslog_entry server log_file line (clock tick) in
        let '(entries, tick') :=
          syslog_lines clock server log_file rest (S tick) in
        (entry :: entries, tick')
  end.

Definition default_log_files : list string :=
  ["/var/adm/ras/errlog"; "/var/adm/ras/conslog"; "/var/adm/messages"].

Section Remote.

(** [execute_command], which reports a failure through its first
    component and does not raise: success, stdout, stderr. *)
Variable execute_command : server_config -> string -> bool * string * string.
Variable clock : nat -> string.

Definition errpt_command (time_range : string) : string :=
  if String.eqb time_range "1h"
  then "errpt -a -s $(date -d '1 hour ago' +%m%d%H%M%y)"
  else if String.eqb time_range "1d"
  then "errpt -a -s $(date -d '1 day ago' +%m%d%H%M%y)"
  else if String.eqb time_range "1w"
  then "errpt -a -s $(date -d '1 week ago' +%m%d%H%M%y)"
  else "errpt -a".

Definition collect_errpt_data (server : server_config) (time_range : string)
  : list (gmap string string) :=
  let '(ok, stdout, _) := execute_command server (errpt_command time_range) in
  if ok then parse_errpt stdout else [].

Fixpoint syslog_files (server : server_config) (log_files : list string)
    (tick : nat) : list syslog_entry :=
  match log_files with
  | [] => []
  | log_file :: rest =>
      let '(ok, stdout, _) :=
        execute_command server
          ("test -r " +:+ log_file +:+ " && echo 'exists' || echo 'not_exists'") in
      if negb ok || contains "not_exists" stdout
      then syslog_files server rest tick
      else
        let '(ok, stdout, _) :=
          execute_command server ("tail -100 " +:+ log_file) in
        if negb ok then syslog_files server rest tick
        else
          let '(entries, tick') :=
            syslog_lines clock server log_file (split nl stdout) tick in
          entries ++ syslog_files server rest tick'
  end.

Definition collect_syslog_data (server : server_config)
    (log_files : list string) : list syslog_entry :=
  syslog_files server
    (match log_files with [] => default_log_files | _ => log_files end) 0.

End Remote.

End SSHManager.

(** ** [collectors/errpt_collector.py] *)

Module ErrptCollector.

Definition severity_letters : list string := ["H"; "S"; "M"; "L"].

Definition _extract_severity (error_id : string) : string :=
  if String.eqb error_id "" then "UNKNOWN"
  else
    let u := upper error_id in
    match
      (if any_in severity_letters u
       then List.find (fun sev => contains sev u) severity_letters
       else None)
    with
    | Some sev => sev
    | None =>
        if any_in ["CRITICAL"; "FATAL"; "PANIC"] u then "H"
        else if any_in ["ERROR"; "FAIL"] u then "S"
        else if any_in ["WARN"; "WARNING"] u then "M"
        else "L"
    end.

(** [entry.get(key, '')] *)
Definition get_str (entry : gmap string string) (key : string) : value :=
  VStr (default "" (entry !! key)).

(** The dictionary built for one entry, before the empty values are
    removed.  Its keys are distinct. *)
Definition processed_fields (entry : gmap string string) (server : server_config)
  : list (string * value) :=
  [ ("severity", VStr (_extract_severity (default "" (entry !! "error_id"))));
    ("error_id", get_str entry "error_id");
    ("resource_name", get_str entry "resource_name");
    ("description", get_str entry "description");
    ("resource_type", get_str entry "resource_type");
    ("resource_class", get_str entry "resource_class");
    ("sequence_number",
      match entry !! "sequence_number" with
      | Some s => VStr s
      | None => VInt 0
      end);
    ("machine_id", get_str entry "machine_id");
    ("node_id", get_str entry "node_id");
    ("class", get_str entry "class");
    ("type", get_str entry "type");
    ("resource_id", get_str entry "resource_id");
    ("logical_resource_id", get_str entry "logical_resource_id");
    ("location_code", get_str entry "location_code");
    ("vpd", get_str entry "vpd");
    ("timestamp", get_str entry "timestamp");
    ("probable_causes", get_str entry "probable_causes");
    ("user_causes", get_str entry "user_causes");
    ("install_causes", get_str entry "install_causes");
    ("failure_causes", get_str entry "failure_causes");
    ("recommended_actions", get_str entry "recommended_actions");
    ("detail_data", get_str entry "detail_data");
    ("server_name", VStr (name server));
    ("hostname", VStr (hostname server)) ].

Definition process_entry (server : server_config) (entry : gmap string string)
  : gmap string value :=
  drop_falsy (list_to_map (processed_fields entry server)).

Definition _process_errpt_data (errpt_data : list (gmap string string))
    (server : server_config) : list (gmap string value) :=
  map (process_entry server) errpt_data.

Section Collect.

Variable execute_command : server_config -> string -> bool * string * string.
(** [db_manager.write_errpt_data] *)
Variable write_errpt_data : string -> list (gmap string value) -> outcome bool.

Definition collect (server : server_config) : collect_result :=
  let server_name := name server in
  let errpt_data := SSHManager.collect_errpt_data execute_command server "1h" in
  match errpt_data with
  | [] =>
      {| success := true; records_collected := 0; error_message := None |}
  | _ =>
      let processed_data := _process_errpt_data errpt_data server in
      match write_errpt_data server_name processed_data with
      | Returned true =>
          {| success := true;
             records_collected := length processed_data;
             error_message := None |}
      | Returned false =>
          {| success := false;
             records_collected := 0;
             error_message :=
               Some ("Failed to write error report data to database for "
                     +:+ server_name) |}
      | Raised e =>
          {| success := false;
             records_collected := 0;
             error_message :=
               Some ("Error collecting error reports from " +:+ server_name
                     +:+ ": " +:+ e) |}
      end
  end.

End Collect.

End ErrptCollector.

(** ** [collectors/syslog_collector.py] *)

Module SyslogCollector.

(** *** The patterns of [log_patterns] that are used *)

(** [re.search]: the match at the leftmost position that has one, the end
    of the text included; [m] matches at the start of its argument. *)
Fixpoint search {A : Type} (m : string -> option A) (s : string) : option A :=
  match m s with
  | Some r => Some r
  | None =>
      match s with
      | EmptyString => None
      | String _ s' => search m s'
      end
  end.

(** One position of a pattern that takes exactly one character. *)
Inductive atom :=
| Lit (c : ascii)
| Digit.

Definition atom_ok (a : atom) (c : ascii) : bool :=
  match a with
  | Lit x => Ascii.eqb x c
  | Digit => isdigit c
  end.

(** Matches a sequence of atoms at the start of [s]: the text matched and
    what follows it. *)
Fixpoint match_atoms (p : list atom) (s : string) : option (string * string) :=
  match p with
  | [] => Some (EmptyString, s)
  | a :: p' =>
      match s with
      | EmptyString => None
      | String c s' =>
          if atom_ok a c
          then match match_atoms p' s' with
               | Some (g, r) => Some (String c g, r)
               | None => None
               end
          else None
      end
  end.

(** The group of ['aix_timestamp'],
    [\d{2}/\d{2}/\d{4}-\d{2}:\d{2}:\d{2}:\d{3}]. *)
Definition aix_timestamp_group : list atom :=
  [Digit; Digit; Lit "/"; Digit; Digit; Lit "/"; Digit; Digit; Digit; Digit;
   Lit "-"; Digit; Digit; Lit ":"; Digit; Digit; Lit ":"; Digit; Digit;
   Lit ":"; Digit; Digit; Digit].

(** ['aix_timestamp'], [\[(...)\]], at the start of [s]: [group(1)]. *)
Definition match_aix_timestamp (s : string) : option string :=
  match s with
  | String "[" s1 =>
      match match_atoms aix_timestamp_group s1 with
      | Some (g, String "]" _) => Some g
      | _ => None
      end
  | _ => None
  end.

(** ['aix_process'], [(\w+)\[(\d+)\]], at the start of [s]: [group(1)]
    and [group(2)].  A greedy [\w+] takes the whole run of word
    characters; giving one back never helps, since the bracket that must
    follow is not a word character.  The same holds for [\d+] and the
    closing bracket. *)
Definition match_aix_process (s : string) : option (string * string) :=
  let '(w, r1) := span isword s in
  if String.eqb w "" then None
  else
    match r1 with
    | String "[" r2 =>
        let '(d, r3) := span isdigit r2 in
        if String.eqb d "" then None
        else
          match r3 with
          | String "]" _ => Some (w, d)
          | _ => None
          end
    | _ => None
    end.

(** *** The classifiers *)

Definition _determine_facility (source message : string) : string :=
  let source_lower := lower source in
  let message_lower := lower message in
  if contains "errlog" source_lower then "SYSTEM"
  else if contains "conslog" source_lower then "CONSOLE"
  else if contains "messages" source_lower then "SYSLOG"
  else if contains "authlog" source_lower then "AUTH"
  else if contains "mail" source_lower then "MAIL"
  else if contains "cron" source_lower then "CRON"
  else if contains "daemon" source_lower then "DAEMON"
  else if contains "kern" source_lower then "KERNEL"
  else if contains "user" source_lower then "USER"
  else if contains "local" source_lower then "LOCAL"
  else if any_in ["kernel"; "driver"; "module"] message_lower then "KERNEL"
  else if any_in ["auth"; "login"; "password"; "su"] message_lower then "AUTH"
  else if any_in ["mail"; "smtp"; "pop"; "imap"] message_lower then "MAIL"
  else if any_in ["cron"; "at"; "batch"] message_lower then "CRON"
  else if any_in ["daemon"; "service"; "inetd"] message_lower then "DAEMON"
  else "UNKNOWN".

Definition _determine_priority (message : string) : string :=
  let message_lower := lower message in
  if any_in ["panic"; "fatal"; "emerg"; "emergency"] message_lower then "EMERG"
  else if any_in ["alert"; "critical"; "crit"] message_lower then "ALERT"
  else if any_in ["error"; "err"; "fail"; "failure"] message_lower then "ERR"
  else if any_in ["warn"; "warning"] message_lower then "WARNING"
  else if any_in ["notice"; "note"] message_lower then "NOTICE"
  else if any_in ["info"; "information"] message_lower then "INFO"
  else if any_in ["debug"; "trace"] message_lower then "DEBUG"
  else "UNKNOWN".

Definition priority_to_level : gmap string string :=
  <["EMERG" := "CRITICAL"]> (
  <["ALERT" := "CRITICAL"]> (
  <["ERR" := "ERROR"]> (
  <["WARNING" := "WARNING"]> (
  <["NOTICE" := "INFO"]> (
  <["INFO" := "INFO"]> (
  <["DEBUG" := "DEBUG"]> ∅)))))).

Definition _determine_log_level (message : string) : string :=
  let priority := _determine_priority message in
  default "INFO" (priority_to_level !! priority).

Definition aix_components : list string :=
  ["hacmp"; "vios"; "lpar"; "aix"; "power"; "ibm";
   "network"; "disk"; "memory"; "cpu"; "filesystem";
   "security"; "user"; "group"; "process"; "service"].

Definition _extract_component (message source : string) : string :=
  let message_lower := lower message in
  match List.find (fun component => contains component message_lower)
          aix_components with
  | Some component => upper component
  | None =>
      match search match_aix_process message with
      | Some (process_name, _) =>
          match List.find (fun component => contains component (lower process_name))
                  aix_components with
          | Some component => upper component
          | None => "SYSTEM"
          end
      | None => "SYSTEM"
      end
  end.

Definition _determine_error_type (message : string) : string :=
  let message_lower := lower message in
  if any_in ["timeout"; "timed out"] message_lower then "TIMEOUT"
  else if any_in ["connection refused"; "connection failed"] message_lower
  then "CONNECTION_ERROR"
  else if any_in ["permission denied"; "access denied"] message_lower
  then "PERMISSION_ERROR"
  else if any_in ["file not found"; "no such file"] message_lower
  then "FILE_ERROR"
  else if any_in ["out of memory"; "memory full"] message_lower
  then "MEMORY_ERROR"
  else if any_in ["disk full"; "no space"] message_lower then "DISK_ERROR"
  else if any_in ["network unreachable"; "host unreachable"] message_lower
  then "NETWORK_ERROR"
  else if any_in ["service not available"; "service down"] message_lower
  then "SERVICE_ERROR"
  else "GENERAL".

(** *** Parsing and processing *)

Definition _parse_log_message (message source : string) : gmap string string :=
  let parsed : gmap string string := ∅ in
  let parsed :=
    match search match_aix_timestamp message with
    | Some t => <["timestamp" := t]> parsed
    | None => parsed
    end in
  let parsed :=
    match search match_aix_process message with
    | Some (process_name, pid) =>
        <["process_id" := pid]> (<["process_name" := process_name]> parsed)
    | None => parsed
    end in
  let parsed := <["facility" := _determine_facility source message]> parsed in
  let parsed := <["priority" := _determine_priority message]> parsed in
  let parsed := <["log_level" := _determine_log_level message]> parsed in
  let parsed := <["component" := _extract_component message source]> parsed in
  <["error_type" := _determine_error_type message]> parsed.

(** The dictionary built for one entry, before the empty values are
    removed.  Its keys are distinct. *)
Definition processed_fields (entry : SSHManager.syslog_entry)
    (server : server_config) : list (string * value) :=
  let parsed_entry :=
    _parse_log_message (SSHManager.message entry) (SSHManager.source entry) in
  [ ("source", VStr (SSHManager.source entry));
    ("message", VStr (SSHManager.message entry));
    ("timestamp", VStr (SSHManager.timestamp entry));
    ("facility", VStr (default "UNKNOWN" (parsed_entry !! "facility")));
    ("priority", VStr (default "UNKNOWN" (parsed_entry !! "priority")));
    ("process_id", VStr (default "" (parsed_entry !! "process_id")));
    ("hostname", VStr (hostname server));
    ("server_name", VStr (name server));
    ("log_level", VStr (default "INFO" (parsed_entry !! "log_level")));
    ("component", VStr (default "" (parsed_entry !! "component")));
    ("error_type", VStr (default "" (parsed_entry !! "error_type")));
    ("raw_message", VStr (SSHManager.message entry)) ].

Definition process_entry (server : server_config)
    (entry : SSHManager.syslog_entry) : gmap string value :=
  drop_falsy (list_to_map (processed_fields entry server)).

Definition _process_syslog_data (syslog_data : list SSHManager.syslog_entry)
    (server : server_config) : list (gmap string value) :=
  map (process_entry server) syslog_data.

Section Collect.

Variable execute_command : server_config -> string -> bool * string * string.
Variable clock : nat -> string.
(** [db_manager.write_syslog_data] *)
Variable write_syslog_data : string -> list (gmap string value) -> outcome bool.

Definition collect (server : server_config) : collect_result :=
  let server_name := name server in
  let syslog_data :=
    SSHManager.collect_syslog_data execute_command clock server [] in
  match syslog_data with
  | [] =>
      {| success := true; records_collected := 0; error_message := None |}
  | _ =>
      let processed_data := _process_syslog_data syslog_data server in
      match write_syslog_data server_name processed_data with
      | Returned true =>
          {| success := true;
             records_collected := length processed_data;
             error_message := None |}
      | Returned false =>
          {| success := false;
             records_collected := 0;
             error_message :=
               Some ("Failed to write system log data to database for "
                     +:+ server_name) |}
      | Raised e =>
          {| success := false;
             records_collected := 0;
             error_message :=
               Some ("Error collecting system logs from " +:+ server_name
                     +:+ ": " +:+ e) |}
      end
  end.

End Collect.

End SyslogCollector.


(** ** Notions used to state the properties *)

(** A line that the loops skip or treat as a terminator. *)
Definition blank (raw : string) : bool := String.eqb (strip raw) "".

(** A line that contains one of the field markers. *)
Definition has_marker (raw : string) : bool :=
  existsb (fun mk => contains mk.1 raw) SSHManager.errpt_markers.

(** A line from which the parser stores a field. *)
Definition stores_field (raw : string) : bool :=
  match SSHManager.line_field (strip raw) with
  | Some _ => true
  | None => false
  end.

(** The lines of a report laid out as blocks: each block with the blank
    lines that follow it. *)
Fixpoint assemble (blocks : list (list string * list string)) : list string :=
  match blocks with
  | [] => []
  | (block, blanks) :: rest => block ++ blanks ++ assemble rest
  end.

(** A block is a non-empty run of non-blank lines; the lines after it are
    blank, and there is at least one of them before a next block. *)
Fixpoint layout_ok (blocks : list (list string * list string)) : bool :=
  match blocks with
  | [] => true
  | (block, blanks) :: rest =>
      negb (bool_decide (block = []))
      && forallb (fun raw => negb (blank raw)) block
      && forallb blank blanks
      && (bool_decide (rest = []) || negb (bool_decide (blanks = [])))
      && layout_ok rest
  end.

(** What the loop adds to the completed entries when it closes an entry. *)
Definition emitted (entry : gmap string string) : list (gmap string string) :=
  if SSHManager.nonempty_entry entry then [entry] else [].

(** The entry read from the lines of one block. *)
Definition block_entry (block : list string) : gmap string string :=
  foldl (fun entry raw => SSHManager.store_line (strip raw) entry) ∅ block.

(** The keys whose markers occur in the lines of a block. *)
Definition marker_key_in (block : list string) (key : string) : Prop :=
  ∃ raw marker,
    raw ∈ block ∧ (marker, key) ∈ SSHManager.errpt_markers
    ∧ contains marker (strip raw) = true.

(** The reading of a report by which every block with a marker line gives
    a record. *)
Definition marker_blocks_all_emitted : Prop :=
  ∀ (stdout : string) (lead : list string)
    (blocks : list (list string * list string)),
    split SSHManager.nl stdout = lead ++ assemble blocks →
    forallb blank lead = true →
    layout_ok blocks = true →
    forallb (fun blk => existsb has_marker blk.1) blocks = true →
    length (SSHManager.parse_errpt stdout) = length blocks.

(** The lookup from priority to log level, case by case. *)
Definition level_of_priority (priority : string) : string :=
  if String.eqb priority "EMERG" then "CRITICAL"
  else if String.eqb priority "ALERT" then "CRITICAL"
  else if String.eqb priority "ERR" then "ERROR"
  else if String.eqb priority "WARNING" then "WARNING"
  else if String.eqb priority "NOTICE" then "INFO"
  else if String.eqb priority "INFO" then "INFO"
  else if String.eqb priority "DEBUG" then "DEBUG"
  else "INFO".




(** What a key of a record is when only non-empty text is kept. *)
Definition kept_text (s : string) : option value :=
  if String.eqb s "" then None else Some (VStr s).

(** The first binding of a key in a list of fields. *)
Fixpoint assoc (key : string) (fields : list (string * value)) : option value :=
  match fields with
  | [] => None
  | (k, v) :: rest => if String.eqb k key then Some v else assoc key rest
  end.

(** Sample data for the examples. *)
Definition sample_server : server_config :=
  {| name := "aix01"; hostname := "aix01.example.com" |}.

Definition sample_now : string := "2024-01-02T03:04:05.000006".

(** A report with a leading blank line, two blocks, a run of blank lines
    between them and a line without marker. *)
Definition sample_blocks : list (list string * list string) :=
  [ (["IDENTIFIER: AB12"; "Resource Name: hdisk0"], [""; "  "]);
    (["not a field"; "Sequence Number: 42"], []) ].

Definition sample_report : string :=
  SSHManager.nl +:+ "IDENTIFIER: AB12" +:+ SSHManager.nl
  +:+ "Resource Name: hdisk0" +:+ SSHManager.nl +:+ SSHManager.nl
  +:+ "  " +:+ SSHManager.nl +:+ "not a field" +:+ SSHManager.nl
  +:+ "Sequence Number: 42".

(** A block whose only line repeats its marker. *)
Definition repeated_marker_report : string := "IDENTIFIER: a IDENTIFIER: b".

(** The report of the specification: two fields, without a blank line
    after them. *)
Definition abc123_report : string :=
  "IDENTIFIER: ABC123" +:+ SSHManager.nl +:+ "Description: disk fault"
  +:+ SSHManager.nl.


(** The log line of the specification. *)
Definition sshd_message : string :=
  "Jan sshd[4521]: authentication failure for user root".


(** A remote host that answers every command, a clock and a store that
    refuses every write. *)
Definition sample_execute (server : server_config) (command : string)
  : bool * string * string :=
  if startswith "errpt" command then (true, sample_report, "")
  else if startswith "tail" command
  then (true, "[boot] ready" +:+ SSHManager.nl +:+ sshd_message, "")
  else (true, "exists", "").

Definition sample_clock (k : nat) : string := sample_now.

Definition refusing_write (server_name : string)
    (records : list (gmap string value)) : outcome bool :=
  Returned false.

(** Values as keys of a dictionary. *)
#[global] Instance value_eq_dec : EqDecision value.
Proof. solve_decision. Defined.

#[global] Instance value_countable : Countable value.
Proof.
  refine (inj_countable'
    (fun v => match v with
              | VNone => inl tt
              | VInt z => inr (inl z)
              | VStr s => inr (inr s)
              end)
    (fun x => match x with
              | inl _ => VNone
              | inr (inl z) => VInt z
              | inr (inr s) => VStr s
              end) _).
  intros []; reflexivity.
Defined.

(** ** [database/influxdb_manager.py]: the writers *)

Module InfluxDBManager.

(** A point as the writers build it: [Point(measurement)] followed by calls
    of [tag] and [field], in their order, and of [time]. *)
Record point := {
  measurement : string;
  tags : list (string * value);
  fields : list (string * value);
  time : string
}.

(** [entry.get(key, default)] *)
Definition get (entry : gmap string value) (key : string) (d : value) : value :=
  default d (entry !! key).

(** The point of [write_errpt_data] for one entry; [now] is
    [datetime.now()]. *)
Definition errpt_point (server_name : string) (entry : gmap string value)
    (now : string) : point :=
  {| measurement := "errpt";
     tags :=
       [ ("server_name", VStr server_name);
         ("severity", get entry "severity" (VStr "UNKNOWN"));
         ("error_id", get entry "error_id" (VStr ""));
         ("resource_name", get entry "resource_name" (VStr "")) ];
     fields :=
       [ ("count", VInt 1);
         ("description", get entry "description" (VStr ""));
         ("resource_type", get entry "resource_type" (VStr ""));
         ("resource_class", get entry "resource_class" (VStr ""));
         ("sequence_number", get entry "sequence_number" (VInt 0));
         ("machine_id", get entry "machine_id" (VStr ""));
         ("node_id", get entry "node_id" (VStr ""));
         ("class", get entry "class" (VStr ""));
         ("type", get entry "type" (VStr ""));
         ("resource_id", get entry "resource_id" (VStr ""));
         ("logical_resource_id", get entry "logical_resource_id" (VStr ""));
         ("location_code", get entry "location_code" (VStr ""));
         ("vpd", get entry "vpd" (VStr "")) ];
     time := now |}.

(** The point of [write_syslog_data] for one entry. *)
Definition syslog_point (server_name : string) (entry : gmap string value)
    (now : string) : point :=
  {| measurement := "syslog";
     tags :=
       [ ("server_name", VStr server_name);
         ("facility", get entry "facility" (VStr "UNKNOWN"));
         ("priority", get entry "priority" (VStr "UNKNOWN"));
         ("source", get entry "source" (VStr "")) ];
     fields :=
       [ ("count", VInt 1);
         ("message", get entry "message" (VStr ""));
         ("timestamp", get entry "timestamp" (VStr ""));
         ("process_id", get entry "process_id" (VStr ""));
         ("hostname", get entry "hostname" (VStr "")) ];
     time := now |}.

(** The loop that builds the points; [clock k] is the reading of the clock
    at its [k]-th use. *)
Fixpoint build_points (make : gmap string value -> string -> point)
    (clock : nat -> string) (data : list (gmap string value)) (tick : nat)
  : list point :=
  match data with
  | [] => []
  | entry :: rest =>
      make entry (clock tick) :: build_points make clock rest (S tick)
  end.

Section Write.

Variable bucket : string.
(** [write_api.write(bucket=..., record=points)], which may raise. *)
Variable write_api : string -> list point -> outcome unit.
Variable clock : nat -> string.

(** The body shared by the two writers: the points are written when there
    are some, and an exception of the write gives [False]. *)
Definition write_points (points : list point) : bool :=
  match points with
  | [] => true
  | _ =>
      match write_api bucket points with
      | Returned _ => true
      | Raised _ => false
      end
  end.

Definition write_errpt_data (server_name : string)
    (errpt_data : list (gmap string value)) : bool :=
  write_points (build_points (errpt_point server_name) clock errpt_data 0).

Definition write_syslog_data (server_name : string)
    (syslog_data : list (gmap string value)) : bool :=
  write_points (build_points (syslog_point server_name) clock syslog_data 0).

End Write.

(** One entry of the list that [query_syslog_summary] returns. *)
Definition syslog_summary_record (server_name facility count timestamp : value)
  : gmap string value :=
  <["server_name" := server_name]> (
  <["facility" := facility]> (
  <["count" := count]> (
  <["timestamp" := timestamp]> ∅))).

(** One entry of the list that [query_errpt_summary] returns. *)
Definition errpt_summary_record (server_name severity count timestamp : value)
  : gmap string value :=
  <["server_name" := server_name]> (
  <["severity" := severity]> (
  <["count" := count]> (
  <["timestamp" := timestamp]> ∅))).

(** The inner loop of [get_server_list] over the records of one table:
    [values] is [record.values], and a name is added when it is truthy and
    not yet in the list. *)
Fixpoint server_names_of_records (records : list (gmap string value))
    (servers : list value) : list value :=
  match records with
  | [] => servers
  | values :: rest =>
      let server_name := get values "server_name" (VStr "") in
      if truthy server_name && negb (bool_decide (server_name ∈ servers))
      then server_names_of_records rest (servers ++ [server_name])
      else server_names_of_records rest servers
  end.

(** The outer loop, over the tables of the result. *)
Fixpoint server_names_of_tables (tables : list (list (gmap string value)))
    (servers : list value) : list value :=
  match tables with
  | [] => servers
  | records :: rest =>
      server_names_of_tables rest (server_names_of_records records servers)
  end.

(** [get_server_list], from the result of the query, which may raise. *)
Definition get_server_list
    (result : outcome (list (list (gmap string value)))) : list value :=
  match result with
  | Returned tables => server_names_of_tables tables []
  | Raised _ => []
  end.

End InfluxDBManager.

(** ** [collectors/errpt_collector.py]: history and summaries *)

Module ErrptReports.

(** [a + count] for an integer [a]: the sum, or the [TypeError] of an
    operand that is not a number. *)
Definition add_count (a : Z) (count : value) : outcome Z :=
  match count with
  | VInt z => Returned (a + z)%Z
  | VNone => Raised "unsupported operand type(s) for +: 'int' and 'NoneType'"
  | VStr _ => Raised "unsupported operand type(s) for +: 'int' and 'str'"
  end.

(** One turn of a loop that counts by a key: [counts[k] = counts.get(k, 0)
    + count]. *)
Definition count_under (k count : value) (counts : gmap value Z)
  : outcome (gmap value Z) :=
  match add_count (default 0%Z (counts !! k)) count with
  | Returned c => Returned (<[k := c]> counts)
  | Raised e => Raised e
  end.

(** The loop of [get_error_summary]: the counts by severity and the
    total. *)
Fixpoint summary_loop (summary : list (gmap string value))
    (severity_counts : gmap value Z) (total_errors : Z)
  : outcome (gmap value Z * Z) :=
  match summary with
  | [] => Returned (severity_counts, total_errors)
  | entry :: rest =>
      let severity := InfluxDBManager.get entry "severity" (VStr "UNKNOWN") in
      let count := InfluxDBManager.get entry "count" (VInt 0) in
      match count_under severity count severity_counts with
      | Raised e => Raised e
      | Returned severity_counts' =>
          match add_count total_errors count with
          | Raised e => Raised e
          | Returned total_errors' =>
              summary_loop rest severity_counts' total_errors'
          end
      end
  end.

(** The dictionaries that [get_error_summary] returns. *)
Inductive error_summary :=
| ErrorSummary (server_name time_range : string) (total_errors : Z)
    (severity_breakdown : gmap value Z)
    (summary_data : list (gmap string value))
| ErrorSummaryFailed (error_message : string).

(** The dictionaries that [get_critical_errors] returns. *)
Inductive critical_errors_result :=
| CriticalErrors (server_name time_range : string)
    (critical_error_count : nat)
    (critical_errors : list (gmap string value))
| CriticalErrorsFailed (error_message : string).

(** [severity in ['H', 'S']] *)
Definition is_critical (entry : gmap string value) : bool :=
  let severity := InfluxDBManager.get entry "severity" (VStr "") in
  bool_decide (severity = VStr "H") || bool_decide (severity = VStr "S").

Section Queries.

(** [db_manager.query_errpt_summary(server_name, time_range)], which
    returns the empty list when the query fails. *)
Variable query_errpt_summary : string -> string -> list (gmap string value).

Definition get_error_summary (server : server_config) (time_range : string)
  : error_summary :=
  let server_name := name server in
  let summary := query_errpt_summary server_name time_range in
  match summary_loop summary ∅ 0 with
  | Returned (severity_counts, total_errors) =>
      ErrorSummary server_name time_range total_errors severity_counts summary
  | Raised e =>
      ErrorSummaryFailed
        ("Error getting error summary for " +:+ server_name +:+ ": " +:+ e)
  end.

Definition get_critical_errors (server : server_config) (time_range : string)
  : critical_errors_result :=
  let server_name := name server in
  let summary := query_errpt_summary server_name time_range in
  let critical_errors := List.filter is_critical summary in
  CriticalErrors server_name time_range (length critical_errors)
    critical_errors.

End Queries.

Section History.

Variable execute_command : server_config -> string -> bool * string * string.
Variable write_errpt_data : string -> list (gmap string value) -> outcome bool.

Definition collect_historical (server : server_config) (time_range : string)
  : collect_result :=
  let server_name := name server in
  let errpt_data :=
    SSHManager.collect_errpt_data execute_command server time_range in
  match errpt_data with
  | [] =>
      {| success := true; records_collected := 0; error_message := None |}
  | _ =>
      let processed_data :=
        ErrptCollector._process_errpt_data errpt_data server in
      match write_errpt_data server_name processed_data with
      | Returned true =>
          {| success := true;
             records_collected := length processed_data;
             error_message := None |}
      | Returned false =>
          {| success := false;
             records_collected := 0;
             error_message :=
               Some ("Failed to write historical error report data to database for "
                     +:+ server_name) |}
      | Raised e =>
          {| success := false;
             records_collected := 0;
             error_message :=
               Some ("Error collecting historical error reports from "
                     +:+ server_name +:+ ": " +:+ e) |}
      end
  end.

End History.

End ErrptReports.

(** ** [collectors/syslog_collector.py]: one file and summaries *)

Module SyslogReports.

(** The entries that [collect_from_specific_file] builds from the lines of
    the file: each non-blank line with the reading of the clock. *)
Fixpoint file_lines (clock : nat -> string) (server : server_config)
    (log_file : string) (lines_data : list string) (tick : nat)
  : list SSHManager.syslog_entry :=
  match lines_data with
  | [] => []
  | raw :: rest =>
      let line := strip raw in
      if String.eqb line "" then file_lines clock server log_file rest tick
      else
        {| SSHManager.source := log_file;
           SSHManager.message := line;
           SSHManager.timestamp := clock tick;
           SSHManager.facility := "UNKNOWN";
           SSHManager.priority := "UNKNOWN";
           SSHManager.process_id := "";
           SSHManager.entry_hostname := hostname server |}
        :: file_lines clock server log_file rest (S tick)
  end.

Section OneFile.

Variable execute_command : server_config -> string -> bool * string * string.
Variable clock : nat -> string.
Variable write_syslog_data : string -> list (gmap string value) -> outcome bool.

(** [lines] is the number of lines asked for, an [int]. *)
Definition collect_from_specific_file (server : server_config)
    (log_file : string) (lines : Z) : collect_result :=
  let server_name := name server in
  let '(ok, stdout, _) :=
    execute_command server
      ("test -r " +:+ log_file +:+ " && echo 'exists' || echo 'not_exists'") in
  if negb ok || contains "not_exists" stdout then
    {| success := false;
       records_collected := 0;
       error_message :=
         Some ("Log file " +:+ log_file +:+ " not accessible on "
               +:+ server_name) |}
  else
    let '(ok, stdout, _) :=
      execute_command server
        ("tail -" +:+ pretty lines +:+ " " +:+ log_file) in
    if negb ok then
      {| success := false;
         records_collected := 0;
         error_message :=
           Some ("Failed to read log file " +:+ log_file +:+ " from "
                 +:+ server_name) |}
    else
      let syslog_data :=
        file_lines clock server log_file (split SSHManager.nl stdout) 0 in
      let processed_data :=
        SyslogCollector._process_syslog_data syslog_data server in
      match write_syslog_data server_name processed_data with
      | Returned true =>
          {| success := true;
             records_collected := length processed_data;
             error_message := None |}
      | Returned false =>
          {| success := false;
             records_collected := 0;
             error_message :=
               Some ("Failed to write log data to database for "
                     +:+ server_name) |}
      | Raised e =>
          {| success := false;
             records_collected := 0;
             error_message :=
               Some ("Error collecting logs from " +:+ log_file +:+ " on "
                     +:+ server_name +:+ ": " +:+ e) |}
      end.

End OneFile.

(** The loop of [get_log_summary]: the counts by facility, the counts by
    priority and the total. *)
Fixpoint log_summary_loop (summary : list (gmap string value))
    (facility_counts priority_counts : gmap value Z) (total_logs : Z)
  : outcome (gmap value Z * gmap value Z * Z) :=
  match summary with
  | [] => Returned (facility_counts, priority_counts, total_logs)
  | entry :: rest =>
      let facility := InfluxDBManager.get entry "facility" (VStr "UNKNOWN") in
      let priority := InfluxDBManager.get entry "priority" (VStr "UNKNOWN") in
      let count := InfluxDBManager.get entry "count" (VInt 0) in
      match ErrptReports.count_under facility count facility_counts with
      | Raised e => Raised e
      | Returned facility_counts' =>
          match ErrptReports.count_under priority count priority_counts with
          | Raised e => Raised e
          | Returned priority_counts' =>
              match ErrptReports.add_count total_logs count with
              | Raised e => Raised e
              | Returned total_logs' =>
                  log_summary_loop rest facility_counts' priority_counts'
                    total_logs'
              end
          end
      end
  end.

(** The dictionaries that [get_log_summary] returns. *)
Inductive log_summary :=
| LogSummary (server_name time_range : string) (total_logs : Z)
    (facility_breakdown priority_breakdown : gmap value Z)
    (summary_data : list (gmap string value))
| LogSummaryFailed (error_message : string).

Section Queries.

(** [db_manager.query_syslog_summary(server_name, time_range)] *)
Variable query_syslog_summary : string -> string -> list (gmap string value).

Definition get_log_summary (server : server_config) (time_range : string)
  : log_summary :=
  let server_name := name server in
  let summary := query_syslog_summary server_name time_range in
  match log_summary_loop summary ∅ ∅ 0 with
  | Returned (facility_counts, priority_counts, total_logs) =>
      LogSummary server_name time_range total_logs facility_counts
        priority_counts summary
  | Raised e =>
      LogSummaryFailed
        ("Error getting log summary for " +:+ server_name +:+ ": " +:+ e)
  end.

End Queries.

End SyslogReports.

(** ** [utils/ssh_manager.py]: the pool of connections *)

Module ConnectionPool.

(** The entries of a server descriptor that the pool reads; [port] is
    absent when the descriptor has none. *)
Record ssh_server := {
  ssh_hostname : string;
  ssh_port : option Z;
  ssh_username : string
}.

(** [_get_connection_key]: host name, port (22 when absent) and user name,
    separated by colons. *)
Definition _get_connection_key (server : ssh_server) : string :=
  ssh_hostname server +:+ ":" +:+ pretty (default 22%Z (ssh_port server))
  +:+ ":" +:+ ssh_username server.

Section Pool.

(** The clients of the SSH library. *)
Variable client : Type.
(** Whether the test command of [get_connection] runs on a client without
    raising. *)
Variable alive : client -> bool.
(** [_create_connection], [None] when the connection fails. *)
Variable create : ssh_server -> option client.
(** [self.max_connections] *)
Variable max_connections : Z.

(** [self.connections], in the order of insertion, and the clients closed
    so far. *)
Record pool := {
  connections : list (string * client);
  closed : list client
}.

(** [self.connections[key]], when the key is present *)
Fixpoint lookup_key (key : string) (l : list (string * client)) : option client :=
  match l with
  | [] => None
  | (k, c) :: rest => if String.eqb k key then Some c else lookup_key key rest
  end.

(** [del self.connections[key]] *)
Fixpoint delete_key (key : string) (l : list (string * client))
  : list (string * client) :=
  match l with
  | [] => []
  | (k, c) :: rest =>
      if String.eqb k key then delete_key key rest
      else (k, c) :: delete_key key rest
  end.

(** The first part of [get_connection]: the client of the pool when it is
    alive; a dead one is removed.  The result is the client returned, if
    any, and the connections left. *)
Definition reuse (key : string) (l : list (string * client))
  : option client * list (string * client) :=
  match lookup_key key l with
  | Some c => if alive c then (Some c, l) else (None, delete_key key l)
  | None => (None, l)
  end.

(** The last part of [get_connection]: a new client is created and, when
    there is one, stored under the key, after the other connections. *)
Definition connect (server : ssh_server) (key : string)
    (l : list (string * client)) (cl : list client)
  : outcome (option client) * pool :=
  match create server with
  | Some c =>
      (Returned (Some c), {| connections := l ++ [(key, c)]; closed := cl |})
  | None => (Returned None, {| connections := l; closed := cl |})
  end.

(** [get_connection]: the client, [None] when none could be created, or
    the [StopIteration] of [next(iter(...))] on an empty pool that counts as
    full; and the pool afterwards.  When the pool is full, the connection
    that was inserted first is closed and removed. *)
Definition get_connection (server : ssh_server) (p : pool)
  : outcome (option client) * pool :=
  let connection_key := _get_connection_key server in
  match reuse connection_key (connections p) with
  | (Some c, l) => (Returned (Some c), {| connections := l; closed := closed p |})
  | (None, l) =>
      if (max_connections <=? Z.of_nat (length l))%Z then
        match l with
        | [] => (Raised "", {| connections := l; closed := closed p |})
        | (_, oldest) :: rest =>
            connect server connection_key rest (closed p ++ [oldest])
        end
      else connect server connection_key l (closed p)
  end.

(** [close_all_connections] *)
Definition close_all_connections (p : pool) : pool :=
  {| connections := []; closed := closed p ++ map snd (connections p) |}.

End Pool.

Arguments connections {client} p.
Arguments closed {client} p.
Arguments lookup_key {client} key l.
Arguments delete_key {client} key l.

End ConnectionPool.

(** ** [collector/aix_log_collector.py]: the collection over the servers *)

Module AIXLogCollector.

(** [self.stats] *)
Record stats := {
  total_collections : nat;
  successful_collections : nat;
  failed_collections : nat;
  total_records : nat;
  last_collection : option string
}.

Section Collector.

(** The execution times, which are floating-point numbers: [no_time] is the
    default [0.0], and [elapsed k] is the [k]-th difference of two readings
    of [time.time()]. *)
Variable duration : Type.
Variable no_time : duration.
Variable elapsed : nat -> duration.

(** The data class [CollectionResult].  Its fields [success],
    [records_collected] and [error_message] have the prefix [result_] here,
    the plain names being those of the result of a collector. *)
Record CollectionResult := {
  server_name : string;
  collection_type : string;
  result_success : bool;
  result_records : nat;
  result_message : option string;
  execution_time : duration
}.

(** [ssh_manager.test_connection], which does not raise. *)
Variable test_connection : server_config -> bool.
(** [errpt_collector.collect] and [syslog_collector.collect] *)
Variable errpt_collect : server_config -> outcome collect_result.
Variable syslog_collect : server_config -> outcome collect_result.
(** [config['collection']['errpt']['enabled']] and the same for the system
    log *)
Variable errpt_enabled : bool.
Variable syslog_enabled : bool.

(** The block of [collect_from_server] for one kind of collection, which is
    written once for the error reports and once for the system logs: the
    result of the collector with the time it took, its records added to the
    statistics when it succeeded; an exception gives a failure. *)
Definition collect_kind (kind : string)
    (collect : server_config -> outcome collect_result)
    (server : server_config) (st : stats) (tick : nat)
  : CollectionResult * stats * nat :=
  match collect server with
  | Returned (Build_collect_result ok records message) =>
      ({| server_name := name server;
          collection_type := kind;
          result_success := ok;
          result_records := records;
          result_message := message;
          execution_time := elapsed tick |},
       (if ok
        then {| total_collections := total_collections st;
                successful_collections := successful_collections st;
                failed_collections := failed_collections st;
                total_records := total_records st + records;
                last_collection := last_collection st |}
        else st),
       S tick)
  | Raised e =>
      ({| server_name := name server;
          collection_type := kind;
          result_success := false;
          result_records := 0;
          result_message := Some e;
          execution_time := no_time |},
       st, tick)
  end.

Definition collect_from_server (server : server_config) (st : stats) (tick : nat)
  : list CollectionResult * stats * nat :=
  if negb (test_connection server) then
    ([ {| server_name := name server;
          collection_type := "connection_test";
          result_success := false;
          result_records := 0;
          result_message := Some ("SSH connection failed to " +:+ hostname server);
          execution_time := no_time |} ],
     st, tick)
  else
    let '(results, st, tick) :=
      if errpt_enabled then
        let '(r, st, tick) := collect_kind "errpt" errpt_collect server st tick in
        ([r], st, tick)
      else ([], st, tick) in
    if syslog_enabled then
      let '(r, st, tick) := collect_kind "syslog" syslog_collect server st tick in
      (results ++ [r], st, tick)
    else (results, st, tick).

(** The update of the statistics for the results of one server. *)
Fixpoint count_results (results : list CollectionResult) (st : stats) : stats :=
  match results with
  | [] => st
  | result :: rest =>
      count_results rest
        {| total_collections := total_collections st + 1;
           successful_collections :=
             if result_success result then successful_collections st + 1
             else successful_collections st;
           failed_collections :=
             if result_success result then failed_collections st
             else failed_collections st + 1;
           total_records := total_records st;
           last_collection := last_collection st |}
  end.

(** The loop of [collect_all_servers]. *)
Fixpoint collect_servers (servers : list server_config) (st : stats) (tick : nat)
  : list CollectionResult * stats * nat :=
  match servers with
  | [] => ([], st, tick)
  | server :: rest =>
      let '(results, st, tick) := collect_from_server server st tick in
      let st := count_results results st in
      let '(all_results, st, tick) := collect_servers rest st tick in
      (results ++ all_results, st, tick)
  end.

(** [collect_all_servers]; [now] is [datetime.now()] at the end. *)
Definition collect_all_servers (servers : list server_config) (st : stats)
    (now : string) : list CollectionResult * stats :=
  let '(all_results, st, _) := collect_servers servers st 0 in
  (all_results,
   {| total_collections := total_collections st;
      successful_collections := successful_collections st;
      failed_collections := failed_collections st;
      total_records := total_records st;
      last_collection := Some now |}).

End Collector.

Arguments server_name {duration} c.
Arguments collection_type {duration} c.
Arguments result_success {duration} c.
Arguments result_records {duration} c.
Arguments result_message {duration} c.
Arguments execution_time {duration} c.

End AIXLogCollector.

(** ** Further notions used to state the properties *)

(** Every character of [s] satisfies [p]. *)
Fixpoint all_chars (p : ascii -> bool) (s : string) : bool :=
  match s with
  | EmptyString => true
  | String c s' => p c && all_chars p s'
  end.

(** The severity of a non-empty identifier whose upper-case form is [u],
    read as one chain of tests. *)
Definition severity_by_letters (u : string) : string :=
  if contains "H" u then "H"
  else if contains "S" u then "S"
  else if contains "M" u then "M"
  else if contains "L" u then "L"
  else if contains "PANIC" u then "H"
  else if contains "ERROR" u then "S"
  else if contains "WARN" u then "M"
  else "L".

(** The keys that the parser can store: those of the chain without the two
    that are never reached. *)
Definition parser_keys : list string :=
  ["error_id"; "timestamp"; "sequence_number"; "machine_id"; "node_id";
   "class"; "type"; "resource_name"; "location_code"; "vpd"; "description";
   "probable_causes"; "user_causes"; "install_causes"; "failure_causes";
   "recommended_actions"; "detail_data"].

(** ['\n'.join(lines)] *)
Definition unlines (lines : list string) : string :=
  String.concat SSHManager.nl lines.

(** A line of a text: it has no line feed. *)
Definition one_line (raw : string) : bool := negb (contains SSHManager.nl raw).

(** A report with a line that has no marker between two fields. *)
Definition wrapped_report_lines : list string :=
  ["IDENTIFIER: AB12"; "Description: disk"; "  fault on hdisk0"; "Type: PERM"].

(** The keys of a processed error report that are copied from the entry. *)
Definition errpt_text_keys : list string :=
  ["error_id"; "resource_name"; "description"; "resource_type";
   "resource_class"; "sequence_number"; "machine_id"; "node_id"; "class";
   "type"; "resource_id"; "logical_resource_id"; "location_code"; "vpd";
   "timestamp"; "probable_causes"; "user_causes"; "install_causes";
   "failure_causes"; "recommended_actions"; "detail_data"].

(** A log file from which [collect_syslog_data] reads nothing: the test of
    the file fails or answers [not_exists], or the reading fails. *)
Definition file_unreadable
    (execute_command : server_config -> string -> bool * string * string)
    (server : server_config) (log_file : string) : bool :=
  let '(ok, stdout, _) :=
    execute_command server
      ("test -r " +:+ log_file +:+ " && echo 'exists' || echo 'not_exists'") in
  let '(read_ok, _, _) := execute_command server ("tail -100 " +:+ log_file) in
  negb ok || contains "not_exists" stdout || negb read_ok.

(** The result of a collection that found nothing. *)
Definition nothing_collected : collect_result :=
  {| success := true; records_collected := 0; error_message := None |}.

(** A remote host on which every command fails, and one without readable
    log file. *)
Definition failing_execute (server : server_config) (command : string)
  : bool * string * string :=
  (false, "", "Failed to establish SSH connection to " +:+ hostname server).

Definition no_file_execute (server : server_config) (command : string)
  : bool * string * string :=
  (true, "not_exists", "").

(** A store that accepts every write, and one that raises. *)
Definition accepting_write (server_name : string)
    (records : list (gmap string value)) : outcome bool :=
  Returned true.

Definition raising_write (server_name : string)
    (records : list (gmap string value)) : outcome bool :=
  Raised "connection reset".

(** The values of the classifiers of the system-log collector. *)
Definition facilities : list string :=
  ["SYSTEM"; "CONSOLE"; "SYSLOG"; "AUTH"; "MAIL"; "CRON"; "DAEMON"; "KERNEL";
   "USER"; "LOCAL"; "UNKNOWN"].

Definition priorities : list string :=
  ["EMERG"; "ALERT"; "ERR"; "WARNING"; "NOTICE"; "INFO"; "DEBUG"; "UNKNOWN"].

Definition log_levels : list string :=
  ["CRITICAL"; "ERROR"; "WARNING"; "INFO"; "DEBUG"].

Definition components : list string :=
  ["HACMP"; "VIOS"; "LPAR"; "AIX"; "POWER"; "IBM"; "NETWORK"; "DISK";
   "MEMORY"; "CPU"; "FILESYSTEM"; "SECURITY"; "USER"; "GROUP"; "PROCESS";
   "SERVICE"; "SYSTEM"].

Definition error_types : list string :=
  ["TIMEOUT"; "CONNECTION_ERROR"; "PERMISSION_ERROR"; "FILE_ERROR";
   "MEMORY_ERROR"; "DISK_ERROR"; "NETWORK_ERROR"; "SERVICE_ERROR"; "GENERAL"].

(** The component that the message alone gives. *)
Definition component_of_message (message : string) : string :=
  match List.find (fun component => contains component (lower message))
          SyslogCollector.aix_components with
  | Some component => upper component
  | None => "SYSTEM"
  end.

(** A text of the form of the group of ['aix_timestamp']. *)
Definition aix_timestamp_text (t : string) : bool :=
  match SyslogCollector.match_atoms SyslogCollector.aix_timestamp_group t with
  | Some (_, EmptyString) => true
  | _ => false
  end.

(** The keys of a record that the writers read. *)
Definition errpt_stored_keys : list string :=
  ["severity"; "error_id"; "resource_name"; "description"; "resource_type";
   "resource_class"; "sequence_number"; "machine_id"; "node_id"; "class";
   "type"; "resource_id"; "logical_resource_id"; "location_code"; "vpd"].

Definition syslog_stored_keys : list string :=
  ["facility"; "priority"; "source"; "message"; "timestamp"; "process_id";
   "hostname"].

(** The store of [InfluxDBManager] as the collectors see it. *)
Definition errpt_writer (bucket : string)
    (write_api : string -> list InfluxDBManager.point -> outcome unit)
    (clock : nat -> string) (server_name : string)
    (records : list (gmap string value)) : outcome bool :=
  Returned (InfluxDBManager.write_errpt_data bucket write_api clock server_name
              records).

(** A write API that accepts every batch, and one that raises. *)
Definition accepting_api (bucket : string)
    (points : list InfluxDBManager.point) : outcome unit :=
  Returned tt.

Definition raising_api (bucket : string)
    (points : list InfluxDBManager.point) : outcome unit :=
  Raised "timeout".

(** The count of an entry of a summary when it is an integer. *)
Definition has_int_count (entry : gmap string value) : bool :=
  match InfluxDBManager.get entry "count" (VInt 0) with
  | VInt _ => true
  | _ => false
  end.

Definition int_count (entry : gmap string value) : Z :=
  match InfluxDBManager.get entry "count" (VInt 0) with
  | VInt z => z
  | _ => 0%Z
  end.

(** The sum of the counts of the entries of a summary. *)
Definition total_of (summary : list (gmap string value)) : Z :=
  foldr (fun entry acc => (int_count entry + acc)%Z) 0%Z summary.

(** The entries of a summary whose value under [key], [d] when it is
    absent, is [k]. *)
Definition filed_under (key : string) (d k : value)
    (entry : gmap string value) : bool :=
  bool_decide (InfluxDBManager.get entry key d = k).

(** The breakdown that a summary should give: under each value of the key
    the sum of the counts of its entries, and nothing under a value that no
    entry has. *)
Definition breakdown_of (key : string) (d : value)
    (summary : list (gmap string value)) (k : value) : option Z :=
  if existsb (filed_under key d k) summary
  then Some (total_of (List.filter (filed_under key d k) summary))
  else None.

(** The sum of the values of a breakdown. *)
Definition sum_values (counts : gmap value Z) : Z :=
  map_fold (fun _ v acc => (v + acc)%Z) 0%Z counts.

(** The dictionary that a loop of counts builds, when every count is an
    integer. *)
Fixpoint tally (key : string) (d : value) (summary : list (gmap string value))
    (counts : gmap value Z) : gmap value Z :=
  match summary with
  | [] => counts
  | entry :: rest =>
      let k := InfluxDBManager.get entry key d in
      tally key d rest (<[k := (default 0 (counts !! k) + int_count entry)%Z]> counts)
  end.

(** A query that returns two entries of high severity and one without, and
    one with an entry whose count is missing. *)
Definition sample_errpt_query (server_name time_range : string)
  : list (gmap string value) :=
  [ InfluxDBManager.errpt_summary_record (VStr server_name) (VStr "H") (VInt 3)
      (VStr sample_now);
    InfluxDBManager.errpt_summary_record (VStr server_name) (VStr "L") (VInt 4)
      (VStr sample_now);
    InfluxDBManager.errpt_summary_record (VStr server_name) (VStr "H") (VInt 5)
      (VStr sample_now) ].

Definition sample_syslog_query (server_name time_range : string)
  : list (gmap string value) :=
  [ InfluxDBManager.syslog_summary_record (VStr server_name) (VStr "AUTH")
      (VInt 3) (VStr sample_now);
    InfluxDBManager.syslog_summary_record (VStr server_name) (VStr "CRON")
      (VInt 4) (VStr sample_now) ].

(** Two servers for the examples of the pool, with clients that are
    numbers. *)
Definition sample_ssh_server : ConnectionPool.ssh_server :=
  {| ConnectionPool.ssh_hostname := "aix01.example.com";
     ConnectionPool.ssh_port := None;
     ConnectionPool.ssh_username := "collector" |}.

Definition other_ssh_server : ConnectionPool.ssh_server :=
  {| ConnectionPool.ssh_hostname := "aix02.example.com";
     ConnectionPool.ssh_port := Some 2222%Z;
     ConnectionPool.ssh_username := "collector" |}.

Definition sample_pool : ConnectionPool.pool nat :=
  {| ConnectionPool.connections :=
       [(ConnectionPool._get_connection_key other_ssh_server, 1)];
     ConnectionPool.closed := [] |}.

(** The successful results, the failed ones, and the records of the
    successful ones. *)
Definition successes {duration : Type}
    (results : list (AIXLogCollector.CollectionResult duration)) : nat :=
  length (List.filter AIXLogCollector.result_success results).

Definition failures {duration : Type}
    (results : list (AIXLogCollector.CollectionResult duration)) : nat :=
  length (List.filter (fun r => negb (AIXLogCollector.result_success r)) results).

Definition successful_records {duration : Type}
    (results : list (AIXLogCollector.CollectionResult duration)) : nat :=
  foldr (fun r acc =>
           (if AIXLogCollector.result_success r
            then AIXLogCollector.result_records r else 0) + acc) 0 results.

(** The result recorded for a server that cannot be reached. *)
Definition unreachable {duration : Type} (no_time : duration)
    (server : server_config) : AIXLogCollector.CollectionResult duration :=
  {| AIXLogCollector.server_name := name server;
     AIXLogCollector.collection_type := "connection_test";
     AIXLogCollector.result_success := false;
     AIXLogCollector.result_records := 0;
     AIXLogCollector.result_message :=
       Some ("SSH connection failed to " +:+ hostname server);
     AIXLogCollector.execution_time := no_time |}.

(** Statistics at the start, and collectors for the examples. *)
Definition fresh_stats : AIXLogCollector.stats :=
  {| AIXLogCollector.total_collections := 0;
     AIXLogCollector.successful_collections := 0;
     AIXLogCollector.failed_collections := 0;
     AIXLogCollector.total_records := 0;
     AIXLogCollector.last_collection := None |}.

Definition three_records (server : server_config) : outcome collect_result :=
  Returned {| success := true; records_collected := 3; error_message := None |}.

Definition broken_collector (server : server_config) : outcome collect_result :=
  Raised "connection lost".

(** What a part of the collection does to the statistics: only the number
    of records changes, by the records of the successful results. *)
Definition adds_records {duration : Type}
    (results : list (AIXLogCollector.CollectionResult duration))
    (st st' : AIXLogCollector.stats) : Prop :=
  AIXLogCollector.total_collections st' = AIXLogCollector.total_collections st
  ∧ AIXLogCollector.successful_collections st'
    = AIXLogCollector.successful_collections st
  ∧ AIXLogCollector.failed_collections st'
    = AIXLogCollector.failed_collections st
  ∧ AIXLogCollector.total_records st'
    = AIXLogCollector.total_records st + successful_records results.

(** ** Properties *)

(** *** Strings *)

Lemma startswith_app_contains (p q s : string) :
  startswith (p +:+ q) s = true → contains q s = true.
Proof.
  revert s. induction p as [|a p IH]; intros s H.
  - change (startswith q s = true) in H.
    destruct s; simpl; rewrite H; reflexivity.
  - change (startswith (String a (p +:+ q)) s = true) in H.
    destruct s as [|b s]; simpl in H; [discriminate|].
    apply andb_prop in H as [_ H]. apply IH in H.
    simpl. rewrite H. apply orb_true_r.
Qed.

Lemma contains_app_r (p q s : string) :
  contains (p +:+ q) s = true → contains q s = true.
Proof.
  induction s as [|c s IH]; intros H.
  - simpl in H. rewrite orb_false_r in H.
    exact (startswith_app_contains _ _ _ H).
  - simpl in H. apply orb_prop in H as [H|H].
    + exact (startswith_app_contains _ _ _ H).
    + apply IH in H. simpl. rewrite H. apply orb_true_r.
Qed.

Lemma eqb_empty_false (s : string) : String.eqb s "" = false ↔ s ≠ "".
Proof. destruct s; simpl; split; intros; congruence. Qed.

(** *** Dictionaries *)

Lemma list_to_map_assoc (fields : list (string * value)) (key : string) :
  (list_to_map fields : gmap string value) !! key = assoc key fields.
Proof.
  induction fields as [|[k v] fields IH]; simpl.
  - apply lookup_empty.
  - destruct (String.eqb_spec k key) as [->|Hne].
    + apply lookup_insert_eq.
    + rewrite lookup_insert_ne by assumption. exact IH.
Qed.

Lemma drop_falsy_lookup (d : gmap string value) (key : string) :
  drop_falsy d !! key =
  match d !! key with
  | Some v => if truthy v then Some v else None
  | None => None
  end.
Proof.
  unfold drop_falsy. destruct (d !! key) as [v|] eqn:Hd.
  - destruct (truthy v) eqn:Hv.
    + apply map_lookup_filter_Some. split; [exact Hd | exact Hv].
    + apply map_lookup_filter_None. right. intros x Hx. simpl.
      rewrite Hd in Hx. injection Hx as <-. rewrite Hv. discriminate.
  - apply map_lookup_filter_None. left. exact Hd.
Qed.

Lemma drop_falsy_truthy (d : gmap string value) (key : string) (v : value) :
  drop_falsy d !! key = Some v → truthy v = true.
Proof.
  rewrite drop_falsy_lookup. destruct (d !! key) as [x|]; [|discriminate].
  destruct (truthy x) eqn:Hx; [|discriminate].
  intros [= <-]. exact Hx.
Qed.

Lemma errpt_record_lookup server entry key :
  ErrptCollector.process_entry server entry !! key =
  match assoc key (ErrptCollector.processed_fields entry server) with
  | Some v => if truthy v then Some v else None
  | None => None
  end.
Proof.
  unfold ErrptCollector.process_entry.
  rewrite drop_falsy_lookup, list_to_map_assoc. reflexivity.
Qed.

Lemma syslog_record_lookup server entry key :
  SyslogCollector.process_entry server entry !! key =
  match assoc key (SyslogCollector.processed_fields entry server) with
  | Some v => if truthy v then Some v else None
  | None => None
  end.
Proof.
  unfold SyslogCollector.process_entry.
  rewrite drop_falsy_lookup, list_to_map_assoc. reflexivity.
Qed.

(** *** The errpt parser *)

Import SSHManager.

Lemma first_marker_Some table line marker key :
  first_marker table line = Some (marker, key) →
  (marker, key) ∈ table ∧ contains marker line = true.
Proof.
  induction table as [|[m k] table IH]; simpl; [discriminate|].
  destruct (contains m line) eqn:Hm.
  - intros [= -> ->]. split; [left | exact Hm].
  - intros H. destruct (IH H) as [Hin Hc]. split; [right; exact Hin | exact Hc].
Qed.

Lemma line_field_Some line key v :
  line_field line = Some (key, v) →
  ∃ marker before after,
    first_marker errpt_markers line = Some (marker, key)
    ∧ split marker line = [before; after]
    ∧ v = strip after.
Proof.
  unfold line_field.
  destruct (first_marker errpt_markers line) as [[marker k]|]; [|discriminate].
  destruct (split marker line) as [|before [|after [|? ?]]] eqn:Hsplit;
    try discriminate.
  intros [= -> <-]. exists marker, before, after. repeat split. exact Hsplit.
Qed.

(** A line with the longer marker has the shorter one, which the chain
    tests first. *)
Lemma resource_class_has_class line :
  contains "Resource Class:" line = true → contains "Class:" line = true.
Proof. apply (contains_app_r "Resource " "Class:"). Qed.

Lemma resource_type_has_type line :
  contains "Resource Type:" line = true → contains "Type:" line = true.
Proof. apply (contains_app_r "Resource " "Type:"). Qed.

Ltac chain_step H :=
  match type of H with
  | (if contains ?m ?l then _ else _) = _ =>
      let E := fresh "E" in destruct (contains m l) eqn:E
  end.

Lemma first_marker_skips_resource line marker key :
  first_marker errpt_markers line = Some (marker, key) →
  key ≠ "resource_class" ∧ key ≠ "resource_type".
Proof.
  intros H. unfold errpt_markers in H. simpl in H.
  repeat chain_step H;
    try (injection H as <- <-; split; discriminate);
    try discriminate.
  - apply resource_class_has_class in E7. congruence.
  - apply resource_type_has_type in E8. congruence.
Qed.

Lemma line_field_skips_resource line key v :
  line_field line = Some (key, v) →
  key ≠ "resource_class" ∧ key ≠ "resource_type".
Proof.
  intros H. apply line_field_Some in H as (marker & ? & ? & H & _).
  exact (first_marker_skips_resource _ _ _ H).
Qed.

Lemma nonempty_entry_false entry : nonempty_entry entry = false → entry = ∅.
Proof.
  unfold nonempty_entry. intros H. apply negb_false_iff in H.
  exact (bool_decide_eq_true_1 _ H).
Qed.

Lemma nonempty_entry_empty : nonempty_entry ∅ = false.
Proof. reflexivity. Qed.

Lemma nonempty_entry_insert key v entry :
  nonempty_entry (<[key := v]> entry) = true.
Proof.
  unfold nonempty_entry. apply negb_true_iff, bool_decide_eq_false_2.
  apply insert_non_empty.
Qed.

Lemma parse_loop_end entry acc : parse_loop [] entry acc = acc ++ emitted entry.
Proof.
  simpl. unfold emitted. destruct (nonempty_entry entry); [reflexivity|].
  symmetry. apply app_nil_r.
Qed.

Lemma parse_loop_blanks_empty blanks rest acc :
  forallb blank blanks = true →
  parse_loop (blanks ++ rest) ∅ acc = parse_loop rest ∅ acc.
Proof.
  induction blanks as [|raw blanks IH]; simpl; [reflexivity|].
  intros H. apply andb_prop in H as [Hraw H].
  unfold blank in Hraw. rewrite Hraw, nonempty_entry_empty. exact (IH H).
Qed.

Lemma parse_loop_blanks blanks rest entry acc :
  forallb blank blanks = true →
  (blanks = [] → rest = []) →
  parse_loop (blanks ++ rest) entry acc = parse_loop rest ∅ (acc ++ emitted entry).
Proof.
  destruct blanks as [|raw blanks]; intros H Hrest.
  - rewrite (Hrest eq_refl). simpl app at 1.
    rewrite !parse_loop_end.
    change (emitted ∅) with (@nil (gmap string string)).
    symmetry. apply app_nil_r.
  - simpl in H. apply andb_prop in H as [Hraw H]. unfold blank in Hraw.
    simpl. rewrite Hraw. unfold emitted.
    destruct (nonempty_entry entry) eqn:Hne.
    + apply parse_loop_blanks_empty, H.
    + rewrite (nonempty_entry_false _ Hne), app_nil_r.
      apply parse_loop_blanks_empty, H.
Qed.

Lemma parse_loop_block block rest entry acc :
  forallb (fun raw => negb (blank raw)) block = true →
  parse_loop (block ++ rest) entry acc =
  parse_loop rest
    (foldl (fun e raw => store_line (strip raw) e) entry block) acc.
Proof.
  revert entry. induction block as [|raw block IH]; intros entry H;
    simpl; [reflexivity|].
  simpl in H. apply andb_prop in H as [Hraw H].
  unfold blank in Hraw. apply negb_true_iff in Hraw. rewrite Hraw.
  exact (IH _ H).
Qed.

Lemma parse_loop_assemble blocks acc :
  layout_ok blocks = true →
  parse_loop (assemble blocks) ∅ acc =
  acc ++ concat (map (fun blk => emitted (block_entry blk.1)) blocks).
Proof.
  revert acc. induction blocks as [|[block blanks] blocks IH]; intros acc H.
  - simpl. symmetry. apply app_nil_r.
  - simpl in H.
    apply andb_prop in H as [H Hrest]. apply andb_prop in H as [H Hsep].
    apply andb_prop in H as [H Hblanks]. apply andb_prop in H as [_ Hblock].
    simpl assemble. rewrite (parse_loop_block _ _ _ _ Hblock).
    rewrite parse_loop_blanks; [| exact Hblanks |].
    + rewrite (IH _ Hrest). simpl. fold (block_entry block).
      symmetry. apply app_assoc.
    + intros ->. simpl in Hsep. rewrite orb_false_r in Hsep.
      apply bool_decide_eq_true_1 in Hsep. subst blocks. reflexivity.
Qed.

(** The parser reads a report block by block and keeps the entries that
    are not empty. *)
Lemma parse_errpt_blocks stdout lead blocks :
  split nl stdout = lead ++ assemble blocks →
  forallb blank lead = true →
  layout_ok blocks = true →
  parse_errpt stdout =
  concat (map (fun blk => emitted (block_entry blk.1)) blocks).
Proof.
  intros Hsplit Hlead Hok. unfold parse_errpt. rewrite Hsplit.
  rewrite (parse_loop_blanks_empty _ _ _ Hlead).
  exact (parse_loop_assemble _ _ Hok).
Qed.

(** Every list of lines is laid out as blocks in this way, so that the
    reading by blocks applies to every report. *)
Lemma report_layout_exists (lines : list string) :
  ∃ lead blocks,
    lines = lead ++ assemble blocks
    ∧ forallb blank lead = true ∧ layout_ok blocks = true.
Proof.
  induction lines as [|raw lines (lead & blocks & -> & Hlead & Hok)].
  - exists [], []. repeat split.
  - destruct (blank raw) eqn:Hraw.
    + exists (raw :: lead), blocks. simpl. rewrite Hraw. repeat split; assumption.
    + destruct lead as [|b lead].
      * destruct blocks as [|[block blanks] blocks].
        -- exists [], [([raw], [])]. simpl. rewrite Hraw. repeat split.
        -- exists [], ((raw :: block, blanks) :: blocks).
           split; [reflexivity|]. split; [reflexivity|].
           simpl in Hok |- *. rewrite Hraw. simpl.
           apply andb_prop in Hok as [Hok Hrest].
           apply andb_prop in Hok as [Hok Hsep].
           apply andb_prop in Hok as [Hok Hblanks].
           apply andb_prop in Hok as [_ Hblock].
           rewrite Hblock, Hblanks, Hsep, Hrest. reflexivity.
      * exists [], (([raw], b :: lead) :: blocks).
        split; [reflexivity|]. split; [reflexivity|].
        simpl in Hlead |- *. rewrite Hraw, Hlead, Hok. simpl.
        rewrite orb_true_r. reflexivity.
Qed.

Lemma store_line_nonempty line entry :
  nonempty_entry entry = true → nonempty_entry (store_line line entry) = true.
Proof.
  intros H. unfold store_line. destruct (line_field line) as [[k v]|];
    [apply nonempty_entry_insert | exact H].
Qed.

Lemma block_fold_nonempty block entry :
  nonempty_entry entry = true ∨ existsb stores_field block = true →
  nonempty_entry (foldl (fun e raw => store_line (strip raw) e) entry block) = true.
Proof.
  revert entry. induction block as [|raw block IH]; intros entry H; simpl.
  - destruct H as [H|H]; [exact H | discriminate].
  - apply IH. destruct H as [H|H].
    + left. apply store_line_nonempty, H.
    + simpl in H. apply orb_prop in H as [H|H]; [left | right; exact H].
      unfold stores_field in H. unfold store_line.
      destruct (line_field (strip raw)) as [[k v]|]; [|discriminate].
      apply nonempty_entry_insert.
Qed.

Lemma store_line_lookup line entry key v :
  store_line line entry !! key = Some v →
  entry !! key = Some v ∨ line_field line = Some (key, v).
Proof.
  unfold store_line. destruct (line_field line) as [[k x]|]; [|tauto].
  destruct (decide (k = key)) as [->|Hne].
  - rewrite lookup_insert_eq. intros [= ->]. right. reflexivity.
  - rewrite lookup_insert_ne by assumption. tauto.
Qed.

Lemma block_fold_lookup block entry key v :
  foldl (fun e raw => store_line (strip raw) e) entry block !! key = Some v →
  entry !! key = Some v
  ∨ ∃ raw, raw ∈ block ∧ line_field (strip raw) = Some (key, v).
Proof.
  revert entry. induction block as [|raw block IH]; intros entry H; simpl in H.
  - left. exact H.
  - apply IH in H as [H | (r & Hin & Hr)].
    + apply store_line_lookup in H as [H|H]; [left; exact H|].
      right. exists raw. split; [left | exact H].
    + right. exists r. split; [right; exact Hin | exact Hr].
Qed.

Lemma block_entry_keys block key :
  is_Some (block_entry block !! key) → marker_key_in block key.
Proof.
  intros [v H]. unfold block_entry in H.
  apply block_fold_lookup in H as [H | (raw & Hin & Hr)].
  - rewrite lookup_empty in H. discriminate.
  - apply line_field_Some in Hr as (marker & ? & ? & Hm & _).
    apply first_marker_Some in Hm as [Hm Hc].
    exists raw, marker. repeat split; assumption.
Qed.

(** An invariant of the entries that the loop preserves holds of every
    entry it returns. *)
Lemma parse_loop_Forall (P : gmap string string → Prop) lines entry acc :
  P ∅ → (∀ line e, P e → P (store_line line e)) →
  P entry → Forall P acc → Forall P (parse_loop lines entry acc).
Proof.
  intros Hempty Hstore. revert entry acc.
  induction lines as [|raw lines IH]; intros entry acc He Hacc; simpl.
  - destruct (nonempty_entry entry); [|exact Hacc].
    apply Forall_app. split; [exact Hacc | repeat constructor; exact He].
  - destruct (String.eqb (strip raw) "").
    + destruct (nonempty_entry entry).
      * apply IH; [exact Hempty|].
        apply Forall_app. split; [exact Hacc | repeat constructor; exact He].
      * apply IH; assumption.
    + apply IH; [apply Hstore, He | exact Hacc].
Qed.

(** *** Records of the errpt parser *)

(** C1, as stated, fails: the block of [repeated_marker_report] has a line
    with a marker, and the parser returns no record for it, because the
    marker splits the line into three parts. *)
Lemma marker_blocks_all_emitted_fails : ¬ marker_blocks_all_emitted.
Proof.
  intros H.
  specialize (H repeated_marker_report [] [([repeated_marker_report], [])]).
  vm_compute in H.
  specialize (H eq_refl eq_refl eq_refl eq_refl). discriminate H.
Qed.

(** C1, amended.  A report of N blocks separated by runs of blank lines,
    each block with a line from which the parser stores a field (the first
    marker of the chain that the line contains splits it into exactly two
    parts), gives exactly N records, in the order of the blocks; the record
    of a block has only keys whose markers occur in the lines of the block.
    Blank lines give no record, whatever their number, and a report of blank
    lines only gives none. *)
Theorem errpt_blocks_give_records (stdout : string) (lead : list string)
    (blocks : list (list string * list string)) :
  split nl stdout = lead ++ assemble blocks →
  forallb blank lead = true →
  layout_ok blocks = true →
  forallb (fun blk => existsb stores_field blk.1) blocks = true →
  parse_errpt stdout = map (fun blk => block_entry blk.1) blocks
  ∧ length (parse_errpt stdout) = length blocks
  ∧ Forall2 (fun record blk =>
               ∀ key, is_Some (record !! key) → marker_key_in blk.1 key)
      (parse_errpt stdout) blocks
  ∧ (blocks = [] → parse_errpt stdout = []).
Proof.
  intros Hsplit Hlead Hok Hstored.
  assert (Heq : parse_errpt stdout = map (fun blk => block_entry blk.1) blocks).
  { rewrite (parse_errpt_blocks _ _ _ Hsplit Hlead Hok).
    clear Hsplit Hok. induction blocks as [|[block blanks] blocks IH];
      [reflexivity|].
    simpl in Hstored. apply andb_prop in Hstored as [Hblock Hstored].
    simpl. rewrite (IH Hstored). unfold emitted, block_entry at 1.
    rewrite block_fold_nonempty by (right; exact Hblock). reflexivity. }
  split; [exact Heq|]. rewrite Heq. split; [apply length_map|]. split.
  - clear. induction blocks as [|blk blocks IH]; simpl; constructor.
    + apply block_entry_keys.
    + exact IH.
  - intros ->. reflexivity.
Qed.

Lemma errpt_blocks_give_records_witness :
  split nl sample_report = [""] ++ assemble sample_blocks
  ∧ length (parse_errpt sample_report) = 2.
Proof.
  split; [vm_compute; reflexivity|].
  apply (errpt_blocks_give_records sample_report [""] sample_blocks);
    vm_compute; reflexivity.
Defined.

(** C10.  A line with the marker ['Resource Class:'] has the marker
    ['Class:'], and one with ['Resource Type:'] has ['Type:']; both are
    tested earlier in the chain, so that the chain never takes the branches
    of [resource_class] and [resource_type], and takes the one of [class]
    (of [type]) when no marker before it occurs in the line.  No entry of
    the parser and no record made from one has either key. *)
Theorem errpt_never_resource_class :
  (∀ line, contains "Resource Class:" line = true →
           contains "Class:" line = true)
  ∧ (∀ line, contains "Resource Type:" line = true →
             contains "Type:" line = true)
  ∧ (∀ line marker key,
       first_marker errpt_markers line = Some (marker, key) →
       key ≠ "resource_class" ∧ key ≠ "resource_type")
  ∧ (∀ line,
       contains "Resource Class:" line = true →
       any_in ["IDENTIFIER:"; "Timestamp:"; "Sequence Number:"; "Machine Id:";
               "Node Id:"] line = false →
       first_marker errpt_markers line = Some ("Class:", "class"))
  ∧ (∀ line,
       contains "Resource Type:" line = true →
       any_in ["IDENTIFIER:"; "Timestamp:"; "Sequence Number:"; "Machine Id:";
               "Node Id:"; "Class:"] line = false →
       first_marker errpt_markers line = Some ("Type:", "type"))
  ∧ (∀ stdout entry,
       entry ∈ parse_errpt stdout →
       entry !! "resource_class" = None ∧ entry !! "resource_type" = None)
  ∧ (∀ stdout server record,
       record ∈ ErrptCollector._process_errpt_data (parse_errpt stdout) server →
       record !! "resource_class" = None ∧ record !! "resource_type" = None).
Proof.
  assert (Hentries : ∀ stdout,
    Forall (fun e : gmap string string =>
              e !! "resource_class" = None ∧ e !! "resource_type" = None)
      (parse_errpt stdout)).
  { intros stdout. unfold parse_errpt. apply parse_loop_Forall.
    - split; apply lookup_empty.
    - intros line e [Hc Ht]. unfold store_line.
      destruct (line_field line) as [[k v]|] eqn:Hl; [|split; assumption].
      destruct (line_field_skips_resource _ _ _ Hl) as [Hkc Hkt].
      rewrite !lookup_insert_ne by assumption. split; assumption.
    - split; apply lookup_empty.
    - constructor. }
  split; [exact resource_class_has_class|].
  split; [exact resource_type_has_type|].
  split; [exact first_marker_skips_resource|].
  split.
  { intros line Hrc Hearly. apply resource_class_has_class in Hrc.
    simpl in Hearly. rewrite orb_false_r in Hearly.
    repeat (apply orb_false_elim in Hearly as [? Hearly]).
    unfold errpt_markers. simpl.
    repeat match goal with H : contains _ line = _ |- _ => rewrite H; clear H end.
    reflexivity. }
  split.
  { intros line Hrt Hearly. apply resource_type_has_type in Hrt.
    simpl in Hearly. rewrite orb_false_r in Hearly.
    repeat (apply orb_false_elim in Hearly as [? Hearly]).
    unfold errpt_markers. simpl.
    repeat match goal with H : contains _ line = _ |- _ => rewrite H; clear H end.
    reflexivity. }
  split.
  { intros stdout entry Hin.
    exact (proj1 (Forall_forall _ _) (Hentries stdout) entry Hin). }
  intros stdout server record Hin.
  unfold ErrptCollector._process_errpt_data in Hin.
  apply list_elem_of_In, in_map_iff in Hin as (entry & <- & Hin).
  apply list_elem_of_In in Hin.
  destruct (proj1 (Forall_forall _ _) (Hentries stdout) entry Hin) as [Hc Ht].
  rewrite !errpt_record_lookup. simpl.
  unfold ErrptCollector.get_str. rewrite Hc, Ht. simpl. split; reflexivity.
Qed.

Lemma errpt_never_resource_class_witness :
  contains "Resource Class:" "Resource Class: disk" = true
  ∧ first_marker errpt_markers "Resource Class: disk" = Some ("Class:", "class")
  ∧ parse_errpt "Resource Class: disk" = [ {[ "class" := "disk" ]} ].
Proof.
  split; [reflexivity|]. split.
  - apply (proj1 (proj2 (proj2 (proj2 errpt_never_resource_class))));
      reflexivity.
  - vm_compute. reflexivity.
Defined.

(** C9.  The report ["IDENTIFIER: ABC123\nDescription: disk fault\n"] gives
    exactly one entry, with the two fields; its identifier has none of the
    letters H, S, M, L and no keyword, its severity is L, and the record
    made from it has [error_id], [description] and [severity] so. *)
Theorem abc123_report_one_record :
  parse_errpt abc123_report =
    [ {[ "error_id" := "ABC123"; "description" := "disk fault" ]} ]
  ∧ any_in ErrptCollector.severity_letters (upper "ABC123") = false
  ∧ ErrptCollector._extract_severity "ABC123" = "L"
  ∧ ∀ server, ∃ record,
      ErrptCollector._process_errpt_data (parse_errpt abc123_report) server
      = [record]
      ∧ record !! "error_id" = Some (VStr "ABC123")
      ∧ record !! "description" = Some (VStr "disk fault")
      ∧ record !! "severity" = Some (VStr "L").
Proof.
  assert (Hparse : parse_errpt abc123_report =
    [ {[ "error_id" := "ABC123"; "description" := "disk fault" ]} ])
    by (vm_compute; reflexivity).
  split; [exact Hparse|].
  split; [reflexivity|]. split; [reflexivity|].
  intros server. rewrite Hparse. eexists. split; [reflexivity|].
  rewrite !errpt_record_lookup. repeat split; vm_compute; reflexivity.
Qed.

(** C2, as stated, fails: the severity of ["timeout_fail"] is not S. *)
Lemma timeout_fail_severity_not_S :
  ErrptCollector._extract_severity "timeout_fail" ≠ "S".
Proof. vm_compute. discriminate. Qed.

(** C2, amended.  The severity of ["HARDWARE_FAULT"] is H.  The upper-case
    form of ["timeout_fail"] is ["TIMEOUT_FAIL"], which has neither H nor S
    and has M (and L); M comes first in the order H, S, M, L, and the
    severity is M. *)
Theorem severity_of_sample_identifiers :
  ErrptCollector._extract_severity "HARDWARE_FAULT" = "H"
  ∧ upper "timeout_fail" = "TIMEOUT_FAIL"
  ∧ contains "H" "TIMEOUT_FAIL" = false
  ∧ contains "S" "TIMEOUT_FAIL" = false
  ∧ contains "M" "TIMEOUT_FAIL" = true
  ∧ contains "L" "TIMEOUT_FAIL" = true
  ∧ ErrptCollector._extract_severity "timeout_fail" = "M".
Proof. repeat split; reflexivity. Qed.




(** *** Records handed to the store *)

(** C5.  No key of a record made by the processing of error reports or of
    system logs, the server name and the host name included, has a falsy
    value: the empty string, zero or [None]. *)
Theorem final_records_have_no_falsy_value :
  (∀ errpt_data server record key v,
     record ∈ ErrptCollector._process_errpt_data errpt_data server →
     record !! key = Some v →
     truthy v = true ∧ v ≠ VStr "" ∧ v ≠ VInt 0 ∧ v ≠ VNone)
  ∧ (∀ syslog_data server record key v,
       record ∈ SyslogCollector._process_syslog_data syslog_data server →
       record !! key = Some v →
       truthy v = true ∧ v ≠ VStr "" ∧ v ≠ VInt 0 ∧ v ≠ VNone).
Proof.
  assert (Htruthy : ∀ v, truthy v = true →
            truthy v = true ∧ v ≠ VStr "" ∧ v ≠ VInt 0 ∧ v ≠ VNone).
  { intros v Hv. repeat split; try exact Hv; intros ->; discriminate Hv. }
  split.
  - intros errpt_data server record key v Hin Hv. apply Htruthy.
    apply list_elem_of_In, in_map_iff in Hin as (entry & <- & _).
    exact (drop_falsy_truthy _ _ _ Hv).
  - intros syslog_data server record key v Hin Hv. apply Htruthy.
    apply list_elem_of_In, in_map_iff in Hin as (entry & <- & _).
    exact (drop_falsy_truthy _ _ _ Hv).
Qed.

Lemma final_records_have_no_falsy_value_witness :
  truthy (VStr "L") = true ∧ VStr "L" ≠ VStr "" ∧ VStr "L" ≠ VInt 0
  ∧ VStr "L" ≠ VNone.
Proof.
  apply (proj1 final_records_have_no_falsy_value
           (parse_errpt abc123_report) sample_server
           (ErrptCollector.process_entry sample_server
              {[ "error_id" := "ABC123"; "description" := "disk fault" ]})
           "severity" (VStr "L")).
  - vm_compute. left.
  - vm_compute. reflexivity.
Defined.

(** *** The system-log collector *)

Import SyslogCollector.




(** The text matched by a sequence of atoms none of which accepts [c] does
    not contain [c]. *)
Lemma match_atoms_inv (c : ascii) (p : list atom) (s g r : string) :
  forallb (fun a => negb (atom_ok a c)) p = true →
  match_atoms p s = Some (g, r) →
  s = g +:+ r ∧ find c g = None ∧ String.length g = length p.
Proof.
  revert s g r. induction p as [|a p IH]; intros s g r Hp H; simpl in H.
  - injection H as <- <-. repeat split.
  - simpl in Hp. apply andb_prop in Hp as [Ha Hp].
    destruct s as [|x s]; [discriminate|].
    destruct (atom_ok a x) eqn:Hx; [|discriminate].
    destruct (match_atoms p s) as [[g' r']|] eqn:Hm; [|discriminate].
    injection H as <- <-.
    destruct (IH _ _ _ Hp Hm) as (-> & Hfind & Hlen).
    split; [reflexivity|]. split; [|simpl; rewrite Hlen; reflexivity].
    simpl. destruct (Ascii.eqb_spec x c) as [->|_].
    + rewrite Hx in Ha. discriminate.
    + rewrite Hfind. reflexivity.
Qed.


Lemma search_here {A : Type} (m : string → option A) (s : string) (r : A) :
  m s = Some r → search m s = Some r.
Proof.
  intros H. destruct s as [|a s].
  - change (match m "" with Some x => Some x | None => None end = Some r).
    rewrite H. reflexivity.
  - change (match m (String a s) with
            | Some x => Some x
            | None => search m s
            end = Some r).
    rewrite H. reflexivity.
Qed.





Lemma priority_lookup (priority : string) :
  default "INFO" (priority_to_level !! priority) = level_of_priority priority.
Proof.
  unfold priority_to_level, level_of_priority.
  repeat match goal with
  | |- context [String.eqb priority ?k] =>
      destruct (String.eqb_spec priority k) as [->|?];
      [vm_compute; reflexivity
      | rewrite (lookup_insert_ne _ k priority) by congruence]
  end.
  rewrite lookup_empty. reflexivity.
Qed.

Lemma priority_nonempty (message : string) :
  String.eqb (_determine_priority message) "" = false
  ∧ String.eqb (level_of_priority (_determine_priority message)) "" = false.
Proof.
  unfold _determine_priority.
  repeat match goal with
  | |- context [any_in ?ks ?m] => destruct (any_in ks m)
  end; split; reflexivity.
Qed.

Lemma parsed_priority message source :
  _parse_log_message message source !! "priority"
  = Some (_determine_priority message).
Proof.
  unfold _parse_log_message.
  do 3 (rewrite lookup_insert_ne by discriminate). apply lookup_insert_eq.
Qed.

Lemma parsed_log_level message source :
  _parse_log_message message source !! "log_level"
  = Some (_determine_log_level message).
Proof.
  unfold _parse_log_message.
  do 2 (rewrite lookup_insert_ne by discriminate). apply lookup_insert_eq.
Qed.

(** C8.  The log level of a message is the fixed lookup at its priority:
    EMERG and ALERT give CRITICAL, ERR gives ERROR, WARNING gives WARNING,
    NOTICE and INFO give INFO, DEBUG gives DEBUG, and every other priority,
    UNKNOWN included, gives INFO.  This holds of the parsed message and of
    the record made from it. *)
Theorem log_level_follows_priority :
  (∀ priority,
     default "INFO" (priority_to_level !! priority) = level_of_priority priority)
  ∧ (∀ message,
       _determine_log_level message
       = level_of_priority (_determine_priority message))
  ∧ (∀ message source,
       _parse_log_message message source !! "priority"
       = Some (_determine_priority message)
       ∧ _parse_log_message message source !! "log_level"
         = Some (level_of_priority (_determine_priority message)))
  ∧ (∀ server entry,
       process_entry server entry !! "priority"
       = Some (VStr (_determine_priority (message entry)))
       ∧ process_entry server entry !! "log_level"
         = Some (VStr (level_of_priority (_determine_priority (message entry)))))
  ∧ level_of_priority "EMERG" = "CRITICAL"
  ∧ level_of_priority "ALERT" = "CRITICAL"
  ∧ level_of_priority "ERR" = "ERROR"
  ∧ level_of_priority "WARNING" = "WARNING"
  ∧ level_of_priority "NOTICE" = "INFO"
  ∧ level_of_priority "INFO" = "INFO"
  ∧ level_of_priority "DEBUG" = "DEBUG"
  ∧ level_of_priority "UNKNOWN" = "INFO".
Proof.
  assert (Hlevel : ∀ message,
    _determine_log_level message
    = level_of_priority (_determine_priority message)).
  { intros message. unfold _determine_log_level. apply priority_lookup. }
  split; [exact priority_lookup|]. split; [exact Hlevel|]. split.
  { intros message source. rewrite parsed_priority, parsed_log_level, Hlevel.
    split; reflexivity. }
  split; [|repeat split; reflexivity].
  intros server entry. rewrite !syslog_record_lookup.
  change (assoc "priority" (processed_fields entry server))
    with (Some (VStr (default "UNKNOWN"
            (_parse_log_message (message entry) (source entry) !! "priority")))).
  change (assoc "log_level" (processed_fields entry server))
    with (Some (VStr (default "INFO"
            (_parse_log_message (message entry) (source entry) !! "log_level")))).
  rewrite parsed_priority, parsed_log_level, Hlevel. unfold truthy. simpl default.
  destruct (priority_nonempty (message entry)) as [-> ->]. split; reflexivity.
Qed.

(** C7.  The message
    ["Jan sshd[4521]: authentication failure for user root"] read from
    [/var/log/authlog] has facility AUTH, which the path of the source gives
    whatever the message is, process id 4521, priority ERR, since the
    message has the keywords [fail] and [failure], and log level ERROR, in
    the parsed message and in the record made from it. *)
Theorem sshd_authlog_message :
  _parse_log_message sshd_message "/var/log/authlog" !! "facility" = Some "AUTH"
  ∧ _parse_log_message sshd_message "/var/log/authlog" !! "process_id"
    = Some "4521"
  ∧ _parse_log_message sshd_message "/var/log/authlog" !! "priority" = Some "ERR"
  ∧ _parse_log_message sshd_message "/var/log/authlog" !! "log_level"
    = Some "ERROR"
  ∧ search match_aix_process sshd_message = Some ("sshd", "4521")
  ∧ contains "fail" (lower sshd_message) = true
  ∧ contains "failure" (lower sshd_message) = true
  ∧ any_in ["panic"; "fatal"; "emerg"; "emergency"; "alert"; "critical"; "crit"]
      (lower sshd_message) = false
  ∧ (∀ message, _determine_facility "/var/log/authlog" message = "AUTH")
  ∧ (∀ server now,
       let record :=
         process_entry server
           (make_syslog_entry server "/var/log/authlog" sshd_message now) in
       record !! "facility" = Some (VStr "AUTH")
       ∧ record !! "process_id" = Some (VStr "4521")
       ∧ record !! "priority" = Some (VStr "ERR")
       ∧ record !! "log_level" = Some (VStr "ERROR")).
Proof.
  do 8 (split; [vm_compute; reflexivity|]).
  split; [intros message; reflexivity|].
  intros server now record. subst record.
  rewrite !syslog_record_lookup. repeat split; vm_compute; reflexivity.
Qed.

(** *** Collection *)

(** C6.  In both collectors, when data was collected and the write of the
    store returns false, [collect] returns a failure with no record
    collected, although records were made. *)
Theorem write_failure_collects_nothing :
  (∀ execute_command write_errpt_data server,
     let errpt_data :=
       SSHManager.collect_errpt_data execute_command server "1h" in
     let processed_data := ErrptCollector._process_errpt_data errpt_data server in
     errpt_data ≠ [] →
     write_errpt_data (name server) processed_data = Returned false →
     let result :=
       ErrptCollector.collect execute_command write_errpt_data server in
     success result = false ∧ records_collected result = 0
     ∧ 0 < length processed_data)
  ∧ (∀ execute_command clock write_syslog_data server,
       let syslog_data :=
         SSHManager.collect_syslog_data execute_command clock server [] in
       let processed_data := _process_syslog_data syslog_data server in
       syslog_data ≠ [] →
       write_syslog_data (name server) processed_data = Returned false →
       let result :=
         SyslogCollector.collect execute_command clock write_syslog_data server in
       success result = false ∧ records_collected result = 0
       ∧ 0 < length processed_data).
Proof.
  split.
  - intros execute_command write_errpt_data server errpt_data processed_data
      Hdata Hwrite result.
    subst result. unfold ErrptCollector.collect.
    fold errpt_data. fold processed_data.
    subst processed_data. destruct errpt_data as [|entry rest]; [contradiction|].
    rewrite Hwrite. simpl. repeat split. lia.
  - intros execute_command clock write_syslog_data server syslog_data
      processed_data Hdata Hwrite result.
    subst result. unfold SyslogCollector.collect.
    fold syslog_data. fold processed_data.
    subst processed_data. destruct syslog_data as [|entry rest]; [contradiction|].
    rewrite Hwrite. simpl. repeat split. lia.
Qed.

Lemma write_failure_collects_nothing_witness :
  (success (ErrptCollector.collect sample_execute refusing_write sample_server)
   = false
   ∧ records_collected
       (ErrptCollector.collect sample_execute refusing_write sample_server) = 0
   ∧ 0 < length (ErrptCollector._process_errpt_data
                   (SSHManager.collect_errpt_data sample_execute sample_server "1h")
                   sample_server))
  ∧ (success (SyslogCollector.collect sample_execute sample_clock refusing_write
                sample_server) = false
     ∧ records_collected
         (SyslogCollector.collect sample_execute sample_clock refusing_write
            sample_server) = 0
     ∧ 0 < length (_process_syslog_data
                     (SSHManager.collect_syslog_data sample_execute sample_clock
                        sample_server [])
                     sample_server)).
Proof.
  split.
  - apply (proj1 write_failure_collects_nothing
             sample_execute refusing_write sample_server);
      [vm_compute; discriminate | reflexivity].
  - apply (proj2 write_failure_collects_nothing
             sample_execute sample_clock refusing_write sample_server);
      [vm_compute; discriminate | reflexivity].
Defined.

(** ** Further properties *)

(** *** More on strings *)

Lemma append_assoc_str (a b c : string) : (a +:+ b) +:+ c = a +:+ (b +:+ c).
Proof.
  induction a as [|x a IH]; [reflexivity|].
  change (String x ((a +:+ b) +:+ c) = String x (a +:+ (b +:+ c))).
  rewrite IH. reflexivity.
Qed.

Lemma append_nil_r (a : string) : a +:+ "" = a.
Proof.
  induction a as [|x a IH]; [reflexivity|].
  change (String x (a +:+ "") = String x a). rewrite IH. reflexivity.
Qed.

Lemma startswith_app (p r : string) : startswith p (p +:+ r) = true.
Proof.
  induction p as [|a p IH]; [destruct r; reflexivity|].
  change (startswith (String a p) (String a (p +:+ r)) = true).
  simpl. rewrite Ascii.eqb_refl. exact IH.
Qed.

Lemma startswith_split (p s : string) :
  startswith p s = true → ∃ r, s = p +:+ r.
Proof.
  revert s. induction p as [|a p IH]; intros s H.
  - exists s. reflexivity.
  - destruct s as [|b s]; simpl in H; [discriminate|].
    apply andb_prop in H as [Hab H]. apply Ascii.eqb_eq in Hab as ->.
    destruct (IH _ H) as [r ->]. exists r. reflexivity.
Qed.

Lemma startswith_app_l (p q s : string) :
  startswith (p +:+ q) s = true → startswith p s = true.
Proof.
  intros H. apply startswith_split in H as [r ->].
  rewrite append_assoc_str. apply startswith_app.
Qed.

Lemma contains_cons (needle : string) (c : ascii) (s : string) :
  contains needle s = true → contains needle (String c s) = true.
Proof.
  intros H. change (startswith needle (String c s) || contains needle s = true).
  rewrite H. apply orb_true_r.
Qed.

Lemma contains_app_intro (needle pre post : string) :
  contains needle (pre +:+ needle +:+ post) = true.
Proof.
  induction pre as [|c pre IH].
  - change (contains needle (needle +:+ post) = true).
    destruct (needle +:+ post) eqn:E; simpl; rewrite <- E, startswith_app;
      reflexivity.
  - change (contains needle (String c (pre +:+ needle +:+ post)) = true).
    apply contains_cons, IH.
Qed.

Lemma contains_split (needle s : string) :
  contains needle s = true → ∃ pre post, s = pre +:+ needle +:+ post.
Proof.
  induction s as [|c s IH]; intros H.
  - simpl in H. rewrite orb_false_r in H.
    apply startswith_split in H as [r ->]. exists "", r. reflexivity.
  - simpl in H. apply orb_prop in H as [H|H].
    + apply startswith_split in H as [r ->]. exists "", r. reflexivity.
    + destruct (IH H) as (pre & post & ->). exists (String c pre), post.
      reflexivity.
Qed.

Lemma contains_app_l (p q s : string) :
  contains (p +:+ q) s = true → contains p s = true.
Proof.
  intros H. apply contains_split in H as (pre & post & ->).
  rewrite append_assoc_str. apply contains_app_intro.
Qed.

Lemma contains_within (needle pre s post : string) :
  contains needle s = true → contains needle (pre +:+ s +:+ post) = true.
Proof.
  intros H. apply contains_split in H as (a & b & ->).
  rewrite !append_assoc_str, <- (append_assoc_str pre a).
  apply contains_app_intro.
Qed.

Lemma not_contains_app_r (p q s : string) :
  contains q s = false → contains (p +:+ q) s = false.
Proof.
  intros H. destruct (contains (p +:+ q) s) eqn:E; [|reflexivity].
  apply contains_app_r in E. congruence.
Qed.

Lemma not_contains_app_l (p q s : string) :
  contains p s = false → contains (p +:+ q) s = false.
Proof.
  intros H. destruct (contains (p +:+ q) s) eqn:E; [|reflexivity].
  apply contains_app_l in E. congruence.
Qed.

(** *** The severity of an error identifier *)

Lemma extract_severity_letters (error_id : string) :
  error_id ≠ "" →
  ErrptCollector._extract_severity error_id
  = severity_by_letters (upper error_id).
Proof.
  intros Hne. unfold ErrptCollector._extract_severity, severity_by_letters.
  apply eqb_empty_false in Hne. rewrite Hne.
  generalize (upper error_id). intros u.
  unfold any_in, ErrptCollector.severity_letters.
  cbn [existsb List.find orb].
  destruct (contains "H" u) eqn:HH; cbn [orb]; [reflexivity|].
  destruct (contains "S" u) eqn:HS; cbn [orb]; [reflexivity|].
  destruct (contains "M" u) eqn:HM; cbn [orb]; [reflexivity|].
  destruct (contains "L" u) eqn:HL; cbn [orb]; [reflexivity|].
  rewrite (not_contains_app_r "CRITICA" "L" u HL : contains "CRITICAL" u = false).
  rewrite (not_contains_app_r "FATA" "L" u HL : contains "FATAL" u = false).
  rewrite (not_contains_app_r "FAI" "L" u HL : contains "FAIL" u = false).
  cbn [orb]. rewrite !orb_false_r.
  destruct (contains "PANIC" u); [reflexivity|].
  destruct (contains "ERROR" u); [reflexivity|].
  destruct (contains "WARN" u) eqn:HW; [reflexivity|].
  rewrite (not_contains_app_l "WARN" "ING" u HW : contains "WARNING" u = false).
  reflexivity.
Qed.

(** X1.  The severity of a non-empty identifier is the first of the letters
    H, S, M, L that its upper-case form contains; when it contains none, the
    severity is H with PANIC, S with ERROR, M with WARN, and L otherwise.  The
    keywords CRITICAL, FATAL and FAIL contain the letter L and WARNING contains
    WARN, so that they never decide. *)
Theorem severity_letters_before_keywords (error_id : string) :
  error_id ≠ "" →
  ErrptCollector._extract_severity error_id
  = severity_by_letters (upper error_id)
  ∧ (any_in ["CRITICAL"; "FATAL"; "FAIL"] (upper error_id) = true →
     ErrptCollector._extract_severity error_id ∈ ["H"; "S"; "M"; "L"]
     ∧ any_in ErrptCollector.severity_letters (upper error_id) = true).
Proof.
  intros Hne. split; [exact (extract_severity_letters _ Hne)|].
  intros Hkw.
  assert (HL : contains "L" (upper error_id) = true).
  { unfold any_in in Hkw. cbn [existsb] in Hkw. rewrite orb_false_r in Hkw.
    apply orb_prop in Hkw as [H|H]; [|apply orb_prop in H as [H|H]].
    - exact (contains_app_r "CRITICA" "L" _ H).
    - exact (contains_app_r "FATA" "L" _ H).
    - exact (contains_app_r "FAI" "L" _ H). }
  split.
  - rewrite (extract_severity_letters _ Hne). unfold severity_by_letters.
    rewrite HL.
    destruct (contains "H" (upper error_id)); [(apply list_elem_of_In; simpl; tauto)|].
    destruct (contains "S" (upper error_id)); [(apply list_elem_of_In; simpl; tauto)|].
    destruct (contains "M" (upper error_id)); (apply list_elem_of_In; simpl; tauto).
  - unfold any_in, ErrptCollector.severity_letters. cbn [existsb].
    rewrite HL. rewrite !orb_true_r. reflexivity.
Qed.

Lemma severity_letters_before_keywords_witness :
  ErrptCollector._extract_severity "disk_critical_7"
  = severity_by_letters "DISK_CRITICAL_7"
  ∧ ErrptCollector._extract_severity "disk_critical_7" = "S".
Proof.
  split; [|reflexivity].
  apply (severity_letters_before_keywords "disk_critical_7"). discriminate.
Defined.

(** X2.  The severity is UNKNOWN exactly for the empty identifier, and is
    always one of UNKNOWN, H, S, M, L. *)
Theorem severity_unknown_iff_empty (error_id : string) :
  (ErrptCollector._extract_severity error_id = "UNKNOWN" ↔ error_id = "")
  ∧ ErrptCollector._extract_severity error_id ∈ ["UNKNOWN"; "H"; "S"; "M"; "L"].
Proof.
  destruct (String.eqb_spec error_id "") as [->|Hne].
  - split; [split; reflexivity | (apply list_elem_of_In; simpl; tauto)].
  - rewrite (extract_severity_letters _ Hne). unfold severity_by_letters.
    generalize (upper error_id). intros u.
    split.
    + split; [|intros ->; contradiction].
      repeat match goal with
      | |- (if ?b then _ else _) = _ → _ => destruct b; [discriminate|]
      end. discriminate.
    + repeat match goal with
      | |- (if ?b then _ else _) ∈ _ => destruct b; [(apply list_elem_of_In; simpl; tauto)|]
      end. (apply list_elem_of_In; simpl; tauto).
Qed.

(** *** Stripping *)

Lemma rstrip_rstrip (s : string) : rstrip (rstrip s) = rstrip s.
Proof.
  induction s as [|c s IH]; [reflexivity|].
  simpl. destruct (rstrip s) as [|a r] eqn:E.
  - destruct (isspace c) eqn:Hc; [reflexivity|]. simpl. rewrite Hc. reflexivity.
  - simpl in IH |- *. rewrite IH. reflexivity.
Qed.

Lemma lstrip_head (s : string) :
  lstrip s = "" ∨ ∃ c t, lstrip s = String c t ∧ isspace c = false.
Proof.
  induction s as [|c s IH]; [left; reflexivity|].
  simpl. destruct (isspace c) eqn:Hc; [exact IH|].
  right. exists c, s. split; [reflexivity | exact Hc].
Qed.

Lemma rstrip_head (c : ascii) (s : string) :
  isspace c = false → ∃ t, rstrip (String c s) = String c t.
Proof.
  intros Hc. simpl. destruct (rstrip s) as [|a r].
  - rewrite Hc. exists "". reflexivity.
  - exists (String a r). reflexivity.
Qed.

Lemma strip_strip (s : string) : strip (strip s) = strip s.
Proof.
  unfold strip. destruct (lstrip_head s) as [E | (c & t & E & Hc)]; rewrite E.
  - reflexivity.
  - destruct (rstrip_head c t Hc) as [t' E']. rewrite E'.
    simpl lstrip. rewrite Hc. rewrite <- E'. apply rstrip_rstrip.
Qed.

(** *** Lines and texts *)

Lemma contains_nl_cons (x : ascii) (s : string) :
  contains nl (String x s) = Ascii.eqb (ascii_of_N 10) x || contains nl s.
Proof.
  change (contains nl (String x s))
    with ((Ascii.eqb (ascii_of_N 10) x && true) || contains nl s).
  rewrite andb_true_r. reflexivity.
Qed.

Lemma split_go_nl_cons (cur : string) (x : ascii) (s : string) :
  split_go nl 0 cur (String x s) =
  if Ascii.eqb (ascii_of_N 10) x then cur :: split_go nl 0 "" s
  else split_go nl 0 (cur +:+ String x "") s.
Proof.
  change (split_go nl 0 cur (String x s))
    with (if Ascii.eqb (ascii_of_N 10) x && true
          then cur :: split_go nl 0 "" s
          else split_go nl 0 (cur +:+ String x "") s).
  rewrite andb_true_r. reflexivity.
Qed.

Lemma split_go_line (l cur : string) :
  one_line l = true → split_go nl 0 cur l = [cur +:+ l].
Proof.
  unfold one_line. revert cur. induction l as [|x l IH]; intros cur H.
  - rewrite append_nil_r. reflexivity.
  - rewrite contains_nl_cons in H. apply negb_true_iff, orb_false_elim in H
      as [Hx H].
    rewrite split_go_nl_cons, Hx, IH by (apply negb_true_iff, H).
    rewrite append_assoc_str. reflexivity.
Qed.

Lemma split_go_line_nl (l cur s : string) :
  one_line l = true →
  split_go nl 0 cur (l +:+ nl +:+ s) = (cur +:+ l) :: split_go nl 0 "" s.
Proof.
  unfold one_line. revert cur. induction l as [|x l IH]; intros cur H.
  - change (split_go nl 0 cur (String (ascii_of_N 10) s)
            = (cur +:+ "") :: split_go nl 0 "" s).
    rewrite split_go_nl_cons, Ascii.eqb_refl, append_nil_r. reflexivity.
  - rewrite contains_nl_cons in H. apply negb_true_iff, orb_false_elim in H
      as [Hx H].
    change (split_go nl 0 cur (String x (l +:+ nl +:+ s))
            = (cur +:+ String x l) :: split_go nl 0 "" s).
    rewrite split_go_nl_cons, Hx, IH by (apply negb_true_iff, H).
    rewrite append_assoc_str. reflexivity.
Qed.

(** Splitting the text made of some lines gives the lines back. *)
Lemma split_unlines (l : string) (lines : list string) :
  forallb one_line (l :: lines) = true →
  split nl (unlines (l :: lines)) = l :: lines.
Proof.
  revert l. induction lines as [|l2 lines IH]; intros l H.
  - simpl in H. rewrite andb_true_r in H.
    unfold split, unlines. simpl. apply (split_go_line l "" H).
  - simpl in H. apply andb_prop in H as [Hl H].
    unfold split, unlines.
    change (String.concat nl (l :: l2 :: lines))
      with (l +:+ nl +:+ unlines (l2 :: lines)).
    rewrite (split_go_line_nl l "" _ Hl). change ("" +:+ l) with l.
    f_equal. apply IH. exact H.
Qed.

(** The parser reads the text made of some lines as these lines. *)
Lemma parse_errpt_unlines (lines : list string) :
  forallb one_line lines = true →
  parse_errpt (unlines lines) = parse_loop lines ∅ [].
Proof.
  intros H. unfold parse_errpt. destruct lines as [|l lines].
  - reflexivity.
  - rewrite (split_unlines _ _ H). reflexivity.
Qed.

(** *** More on the errpt parser *)

Lemma first_marker_None line :
  has_marker line = false → first_marker errpt_markers line = None.
Proof.
  unfold has_marker. generalize errpt_markers. intros table.
  induction table as [|[m k] table IH]; [reflexivity|].
  simpl. intros H. apply orb_false_elim in H as [Hm H].
  rewrite Hm. exact (IH H).
Qed.

Lemma parse_loop_skip pre raw post entry acc :
  blank raw = false → stores_field raw = false →
  parse_loop (pre ++ raw :: post) entry acc = parse_loop (pre ++ post) entry acc.
Proof.
  intros Hb Hs. revert entry acc.
  induction pre as [|l pre IH]; intros entry acc.
  - simpl. unfold blank in Hb. rewrite Hb.
    unfold stores_field in Hs. unfold store_line.
    destruct (line_field (strip raw)); [discriminate | reflexivity].
  - simpl. destruct (String.eqb (strip l) "");
      [destruct (nonempty_entry entry)|]; apply IH.
Qed.

Lemma parse_loop_nonempty lines entry acc :
  Forall (fun e : gmap string string => e ≠ ∅) acc →
  Forall (fun e : gmap string string => e ≠ ∅) (parse_loop lines entry acc).
Proof.
  assert (Hne : ∀ e, nonempty_entry e = true → e ≠ ∅).
  { intros e H ->. rewrite nonempty_entry_empty in H. discriminate. }
  revert entry acc. induction lines as [|raw lines IH]; intros entry acc Hacc;
    simpl.
  - destruct (nonempty_entry entry) eqn:He; [|exact Hacc].
    apply Forall_app. split; [exact Hacc | repeat constructor; auto].
  - destruct (String.eqb (strip raw) "").
    + destruct (nonempty_entry entry) eqn:He; apply IH; [|exact Hacc].
      apply Forall_app. split; [exact Hacc | repeat constructor; auto].
    + apply IH, Hacc.
Qed.

Lemma line_field_key_value line key v :
  line_field line = Some (key, v) → key ∈ parser_keys ∧ strip v = v.
Proof.
  intros H. destruct (line_field_skips_resource _ _ _ H) as [Hc Ht].
  apply line_field_Some in H as (marker & before & after & Hm & _ & ->).
  split; [|apply strip_strip].
  apply first_marker_Some in Hm as [Hin _].
  apply list_elem_of_In in Hin. simpl in Hin.
  apply list_elem_of_In. unfold parser_keys.
  repeat (destruct Hin as [Hin|Hin];
          [injection Hin as <- <-; simpl; try tauto; congruence|]).
  contradiction.
Qed.

(** X3.  Every entry that the parser returns is not empty; its keys are
    among the seventeen keys that the chain can store, and its values have no
    white space at either end. *)
Theorem errpt_entries_well_formed (stdout : string) (entry : gmap string string) :
  entry ∈ parse_errpt stdout →
  entry ≠ ∅
  ∧ ∀ key v, entry !! key = Some v → key ∈ parser_keys ∧ strip v = v.
Proof.
  intros Hin. split.
  - assert (H := parse_loop_nonempty (split nl stdout) ∅ [] ltac:(constructor)).
    exact (proj1 (Forall_forall _ _) H entry Hin).
  - assert (H : Forall (fun e : gmap string string =>
              ∀ key v, e !! key = Some v → key ∈ parser_keys ∧ strip v = v)
              (parse_errpt stdout)).
    { apply parse_loop_Forall.
      - intros key v Hk. rewrite lookup_empty in Hk. discriminate.
      - intros line e He key v Hk.
        apply store_line_lookup in Hk as [Hk|Hk];
          [exact (He _ _ Hk) | exact (line_field_key_value _ _ _ Hk)].
      - intros key v Hk. rewrite lookup_empty in Hk. discriminate.
      - constructor. }
    exact (proj1 (Forall_forall _ _) H entry Hin).
Qed.

Lemma errpt_entries_well_formed_witness :
  ({[ "sequence_number" := "42" ]} : gmap string string) ≠ ∅.
Proof.
  apply (errpt_entries_well_formed sample_report {[ "sequence_number" := "42" ]}).
  vm_compute. right. left.
Defined.

(** X4.  A line that is not blank and from which no field is stored, as is
    every line without marker, has no effect: the report with the line and
    the report without it give the same entries.  The continuation lines of
    a wrapped text are lost in this way. *)
Theorem errpt_unmarked_line_ignored (pre post : list string) (raw : string) :
  forallb one_line (pre ++ raw :: post) = true →
  blank raw = false →
  has_marker (strip raw) = false →
  stores_field raw = false
  ∧ parse_errpt (unlines (pre ++ raw :: post)) = parse_errpt (unlines (pre ++ post)).
Proof.
  intros Hlines Hb Hm.
  assert (Hs : stores_field raw = false).
  { unfold stores_field, line_field. rewrite (first_marker_None _ Hm).
    reflexivity. }
  split; [exact Hs|].
  assert (Hlines' : forallb one_line (pre ++ post) = true).
  { rewrite forallb_app in Hlines |- *. simpl in Hlines.
    apply andb_prop in Hlines as [Hpre Hpost].
    apply andb_prop in Hpost as [_ Hpost]. rewrite Hpre, Hpost. reflexivity. }
  rewrite (parse_errpt_unlines _ Hlines), (parse_errpt_unlines _ Hlines').
  apply parse_loop_skip; assumption.
Qed.

Lemma errpt_unmarked_line_ignored_witness :
  parse_errpt (unlines wrapped_report_lines)
  = parse_errpt (unlines ["IDENTIFIER: AB12"; "Description: disk"; "Type: PERM"]).
Proof.
  apply (errpt_unmarked_line_ignored
           ["IDENTIFIER: AB12"; "Description: disk"] ["Type: PERM"]
           "  fault on hdisk0"); reflexivity.
Defined.

(** X5.  The entries of the report made of any lines are those of its
    blocks that store a field, in order: the number of entries is the number
    of such blocks, and a block that stores none is passed over. *)
Theorem errpt_entries_of_any_report (lines : list string) :
  forallb one_line lines = true →
  ∃ lead blocks,
    lines = lead ++ assemble blocks
    ∧ forallb blank lead = true
    ∧ layout_ok blocks = true
    ∧ parse_errpt (unlines lines)
      = map block_entry
          (List.filter (fun block => existsb stores_field block) (map fst blocks)).
Proof.
  intros Hlines.
  destruct (report_layout_exists lines) as (lead & blocks & E & Hlead & Hok).
  exists lead, blocks. split; [exact E|]. split; [exact Hlead|].
  split; [exact Hok|].
  rewrite (parse_errpt_unlines _ Hlines), E.
  rewrite (parse_loop_blanks_empty _ _ _ Hlead), (parse_loop_assemble _ _ Hok).
  simpl. clear. induction blocks as [|[block blanks] blocks IH]; [reflexivity|].
  simpl. rewrite IH. unfold emitted.
  destruct (existsb stores_field block) eqn:Hs.
  - unfold block_entry at 1.
    rewrite block_fold_nonempty by (right; exact Hs). reflexivity.
  - assert (Hempty : block_entry block = ∅).
    { unfold block_entry.
      assert (Hfold : ∀ e : gmap string string,
                foldl (fun e raw => store_line (strip raw) e) e block = e).
      { induction block as [|raw block IHb]; intros e; [reflexivity|].
        simpl in Hs. apply orb_false_elim in Hs as [Hraw Hs].
        simpl. unfold stores_field in Hraw. unfold store_line at 2.
        destruct (line_field (strip raw)); [discriminate|]. exact (IHb Hs e). }
      apply Hfold. }
    rewrite Hempty, nonempty_entry_empty. reflexivity.
Qed.

Lemma errpt_entries_of_any_report_witness :
  ∃ lead blocks,
    wrapped_report_lines = lead ++ assemble blocks
    ∧ forallb blank lead = true
    ∧ layout_ok blocks = true
    ∧ parse_errpt (unlines wrapped_report_lines)
      = map block_entry
          (List.filter (fun block => existsb stores_field block) (map fst blocks)).
Proof.
  apply (errpt_entries_of_any_report wrapped_report_lines). reflexivity.
Defined.

(** *** Processed error reports *)

Ltac in_list := apply list_elem_of_In; simpl; tauto.

Lemma assoc_Some_key (key : string) (fields : list (string * value)) (v : value) :
  assoc key fields = Some v → key ∈ map fst fields.
Proof.
  induction fields as [|[k x] fields IH]; simpl; [discriminate|].
  destruct (String.eqb_spec k key) as [->|_].
  - intros _. left.
  - intros H. right. exact (IH H).
Qed.

Lemma kept_text_truthy (s : string) :
  (if truthy (VStr s) then Some (VStr s) else None) = kept_text s.
Proof. unfold kept_text, truthy. destruct (String.eqb s ""); reflexivity. Qed.

(** X6.  A processed error report always has a severity, one of UNKNOWN, H,
    S, M, L, and the severity is UNKNOWN exactly when the record has no
    [error_id]. *)
Theorem errpt_record_severity (server : server_config)
    (entry : gmap string string) :
  let record := ErrptCollector.process_entry server entry in
  (∃ severity,
     record !! "severity" = Some (VStr severity)
     ∧ severity ∈ ["UNKNOWN"; "H"; "S"; "M"; "L"])
  ∧ (record !! "severity" = Some (VStr "UNKNOWN") ↔ record !! "error_id" = None).
Proof.
  intros record. subst record. rewrite !errpt_record_lookup.
  change (assoc "severity" (ErrptCollector.processed_fields entry server))
    with (Some (VStr (ErrptCollector._extract_severity
                        (default "" (entry !! "error_id"))))).
  change (assoc "error_id" (ErrptCollector.processed_fields entry server))
    with (Some (VStr (default "" (entry !! "error_id")))).
  generalize (default "" (entry !! "error_id")). intros error_id.
  rewrite !kept_text_truthy. unfold kept_text.
  destruct (String.eqb_spec error_id "") as [->|Hne].
  - split; [|split; reflexivity]. exists "UNKNOWN". split; [reflexivity|in_list].
  - rewrite (extract_severity_letters _ Hne). unfold severity_by_letters.
    generalize (upper error_id). intros u.
    assert (Hcases : ∃ s, (if contains "H" u then "H"
              else if contains "S" u then "S"
              else if contains "M" u then "M"
              else if contains "L" u then "L"
              else if contains "PANIC" u then "H"
              else if contains "ERROR" u then "S"
              else if contains "WARN" u then "M" else "L") = s
              ∧ s ∈ ["H"; "S"; "M"; "L"]).
    { repeat match goal with
      | |- ∃ s, (if ?b then _ else _) = s ∧ _ =>
          destruct b; [eexists; split; [reflexivity|in_list]|]
      end.
      eexists; split; [reflexivity|in_list]. }
    destruct Hcases as (s & -> & Hs).
    assert (Hs' : s ≠ "" ∧ s ≠ "UNKNOWN").
    { apply list_elem_of_In in Hs. simpl in Hs.
      split; intros ->; intuition discriminate. }
    destruct Hs' as [Hs1 Hs2]. apply eqb_empty_false in Hs1. rewrite Hs1.
    split.
    + exists s. split; [reflexivity | right; exact Hs].
    + split; [intros [= E]; contradiction | discriminate].
Qed.

(** X7.  Processing copies the text of each field of the entry and leaves
    out the empty ones; the server name and the host name come from the
    server descriptor; and a record has no key besides these and the
    severity. *)
Theorem errpt_record_copies_fields (server : server_config)
    (entry : gmap string string) :
  let record := ErrptCollector.process_entry server entry in
  (∀ key, key ∈ errpt_text_keys → record !! key = entry !! key ≫= kept_text)
  ∧ record !! "server_name" = kept_text (name server)
  ∧ record !! "hostname" = kept_text (hostname server)
  ∧ (∀ key, is_Some (record !! key) →
            key ∈ "severity" :: "server_name" :: "hostname" :: errpt_text_keys).
Proof.
  intros record. subst record. split; [|split; [|split]].
  - intros key Hkey. rewrite errpt_record_lookup.
    apply list_elem_of_In in Hkey. unfold errpt_text_keys in Hkey.
    simpl in Hkey.
    repeat (destruct Hkey as [<-|Hkey];
            [simpl; unfold ErrptCollector.get_str;
             destruct (entry !! _) as [text|]; simpl;
             [unfold kept_text; destruct (String.eqb text ""); reflexivity
             |reflexivity]|]).
    contradiction.
  - rewrite errpt_record_lookup. simpl. apply kept_text_truthy.
  - rewrite errpt_record_lookup. simpl. apply kept_text_truthy.
  - intros key [v Hv]. rewrite errpt_record_lookup in Hv.
    destruct (assoc key (ErrptCollector.processed_fields entry server))
      as [x|] eqn:Hx; [|discriminate].
    apply assoc_Some_key in Hx.
    apply list_elem_of_In in Hx. apply list_elem_of_In.
    simpl in Hx |- *. tauto.
Qed.

Lemma errpt_record_copies_fields_witness :
  ErrptCollector.process_entry sample_server
    {[ "error_id" := "AB12"; "vpd" := "" ]} !! "error_id"
  = Some (VStr "AB12").
Proof.
  rewrite (proj1 (errpt_record_copies_fields sample_server
                    {[ "error_id" := "AB12"; "vpd" := "" ]}) "error_id")
    by (vm_compute; left).
  reflexivity.
Defined.

(** *** Outcomes of a collection *)

Lemma contains_suffix (needle pre : string) :
  contains needle (pre +:+ needle) = true.
Proof.
  rewrite <- (append_nil_r needle) at 2. apply contains_app_intro.
Qed.

Lemma syslog_files_unreadable execute_command clock server log_files tick :
  forallb (file_unreadable execute_command server) log_files = true →
  syslog_files execute_command clock server log_files tick = [].
Proof.
  revert tick. induction log_files as [|log_file rest IH]; intros tick H;
    [reflexivity|].
  cbn [forallb] in H. apply andb_prop in H as [Hf H].
  unfold file_unreadable in Hf. cbn [syslog_files].
  destruct (execute_command server
              ("test -r " +:+ log_file +:+ " && echo 'exists' || echo 'not_exists'"))
    as [[ok stdout] err].
  destruct (execute_command server ("tail -100 " +:+ log_file))
    as [[read_ok out] err'].
  change (negb ok || contains "not_exists" stdout || negb read_ok = true) in Hf.
  destruct (negb ok || contains "not_exists" stdout) eqn:Htest.
  - apply IH, H.
  - cbn [orb] in Hf. rewrite Hf. apply IH, H.
Qed.

(** X8.  When the remote command of the error report fails, and when no log
    file can be read, the collectors return a success with no record, and
    the store is not consulted: the result is the same whatever the store
    would answer. *)
Theorem unreachable_data_is_success :
  (∀ execute_command write_errpt_data server,
     (execute_command server (errpt_command "1h")).1.1 = false →
     collect_errpt_data execute_command server "1h" = []
     ∧ ErrptCollector.collect execute_command write_errpt_data server
       = nothing_collected)
  ∧ (∀ execute_command clock write_syslog_data server,
       forallb (file_unreadable execute_command server) default_log_files = true →
       collect_syslog_data execute_command clock server [] = []
       ∧ SyslogCollector.collect execute_command clock write_syslog_data server
         = nothing_collected).
Proof.
  split.
  - intros execute_command write_errpt_data server H.
    assert (E : collect_errpt_data execute_command server "1h" = []).
    { unfold collect_errpt_data.
      destruct (execute_command server (errpt_command "1h")) as [[ok out] err].
      simpl in H. subst ok. reflexivity. }
    split; [exact E|]. unfold ErrptCollector.collect. rewrite E. reflexivity.
  - intros execute_command clock write_syslog_data server H.
    assert (E : collect_syslog_data execute_command clock server [] = []).
    { unfold collect_syslog_data. apply syslog_files_unreadable, H. }
    split; [exact E|]. unfold SyslogCollector.collect. rewrite E. reflexivity.
Qed.

Lemma unreachable_data_is_success_witness :
  ErrptCollector.collect failing_execute refusing_write sample_server
  = nothing_collected
  ∧ SyslogCollector.collect no_file_execute sample_clock refusing_write
      sample_server
    = nothing_collected.
Proof.
  split.
  - apply (proj1 unreachable_data_is_success failing_execute refusing_write
             sample_server).
    reflexivity.
  - apply (proj2 unreachable_data_is_success no_file_execute sample_clock
             refusing_write sample_server).
    reflexivity.
Defined.

(** X9.  When data was collected and the store accepts the write, each
    collector reports as many records as entries were collected; when the
    write raises, it reports a failure with no record and the text of the
    exception in its message. *)
Theorem collect_reports_written_entries :
  (∀ execute_command write_errpt_data server,
     let errpt_data := collect_errpt_data execute_command server "1h" in
     let result :=
       ErrptCollector.collect execute_command write_errpt_data server in
     errpt_data ≠ [] →
     (write_errpt_data (name server)
        (ErrptCollector._process_errpt_data errpt_data server) = Returned true →
      result = {| success := true;
                  records_collected := length errpt_data;
                  error_message := None |})
     ∧ (∀ e,
          write_errpt_data (name server)
            (ErrptCollector._process_errpt_data errpt_data server) = Raised e →
          success result = false ∧ records_collected result = 0
          ∧ ∃ text, error_message result = Some text ∧ contains e text = true))
  ∧ (∀ execute_command clock write_syslog_data server,
       let syslog_data := collect_syslog_data execute_command clock server [] in
       let result :=
         SyslogCollector.collect execute_command clock write_syslog_data server in
       syslog_data ≠ [] →
       (write_syslog_data (name server)
          (_process_syslog_data syslog_data server) = Returned true →
        result = {| success := true;
                    records_collected := length syslog_data;
                    error_message := None |})
       ∧ (∀ e,
            write_syslog_data (name server)
              (_process_syslog_data syslog_data server) = Raised e →
            success result = false ∧ records_collected result = 0
            ∧ ∃ text, error_message result = Some text ∧ contains e text = true)).
Proof.
  split.
  - intros execute_command write_errpt_data server errpt_data result Hdata.
    subst result. unfold ErrptCollector.collect. fold errpt_data.
    destruct errpt_data as [|entry rest] eqn:E; [contradiction|].
    split.
    + intros ->. unfold ErrptCollector._process_errpt_data.
      rewrite length_map. reflexivity.
    + intros e ->. simpl. repeat split. eexists. split; [reflexivity|].
      rewrite <- !append_assoc_str. apply contains_suffix.
  - intros execute_command clock write_syslog_data server syslog_data result
      Hdata.
    subst result. unfold SyslogCollector.collect. fold syslog_data.
    destruct syslog_data as [|entry rest] eqn:E; [contradiction|].
    split.
    + intros ->. unfold _process_syslog_data.
      rewrite length_map. reflexivity.
    + intros e ->. simpl. repeat split. eexists. split; [reflexivity|].
      rewrite <- !append_assoc_str. apply contains_suffix.
Qed.

Lemma collect_reports_written_entries_witness :
  ErrptCollector.collect sample_execute accepting_write sample_server
  = {| success := true; records_collected := 2; error_message := None |}
  ∧ success (SyslogCollector.collect sample_execute sample_clock raising_write
               sample_server) = false.
Proof.
  split.
  - apply (proj1 (proj1 collect_reports_written_entries sample_execute
                    accepting_write sample_server ltac:(vm_compute; discriminate))).
    reflexivity.
  - apply (proj2 (proj2 collect_reports_written_entries sample_execute
                    sample_clock raising_write sample_server
                    ltac:(vm_compute; discriminate)) "connection reset").
    reflexivity.
Defined.

(** *** More on the system-log collector *)

Lemma lower_app (a b : string) : lower (a +:+ b) = lower a +:+ lower b.
Proof.
  induction a as [|c a IH]; [reflexivity|].
  change (String (lower_char c) (lower (a +:+ b))
          = String (lower_char c) (lower a +:+ lower b)).
  rewrite IH. reflexivity.
Qed.

Lemma lower_char_idem (c : ascii) : lower_char (lower_char c) = lower_char c.
Proof. destruct c as [[] [] [] [] [] [] [] []]; reflexivity. Qed.

Lemma lower_lower (s : string) : lower (lower s) = lower s.
Proof.
  induction s as [|c s IH]; [reflexivity|].
  simpl. rewrite lower_char_idem, IH. reflexivity.
Qed.

Lemma search_unfold {A : Type} (m : string → option A) (s : string) :
  search m s =
  match m s with
  | Some x => Some x
  | None => match s with
            | EmptyString => None
            | String _ s' => search m s'
            end
  end.
Proof. destruct s; reflexivity. Qed.

Lemma search_Some {A : Type} (m : string → option A) (s : string) (r : A) :
  search m s = Some r → ∃ pre suf, s = pre +:+ suf ∧ m suf = Some r.
Proof.
  induction s as [|c s IH]; rewrite search_unfold.
  - destruct (m "") eqn:E; [|discriminate].
    intros [= ->]. exists "", "". split; [reflexivity | exact E].
  - destruct (m (String c s)) eqn:E.
    + intros [= ->]. exists "", (String c s). split; [reflexivity | exact E].
    + intros H. destruct (IH H) as (pre & suf & -> & Hm).
      exists (String c pre), suf. split; [reflexivity | exact Hm].
Qed.

Lemma search_app {A : Type} (m : string → option A) (pre s : string) :
  is_Some (m s) → is_Some (search m (pre +:+ s)).
Proof.
  intros [r Hr]. induction pre as [|c pre IH].
  - exists r. apply search_here, Hr.
  - change (String c pre +:+ s) with (String c (pre +:+ s)).
    rewrite search_unfold.
    destruct (m (String c (pre +:+ s))); [eexists; reflexivity | exact IH].
Qed.

Lemma span_app (p : ascii → bool) (s a b : string) :
  span p s = (a, b) → s = a +:+ b ∧ all_chars p a = true.
Proof.
  revert a b. induction s as [|c s IH]; intros a b H; simpl in H.
  - injection H as <- <-. split; reflexivity.
  - destruct (p c) eqn:Hc.
    + destruct (span p s) as [a' b'] eqn:E. injection H as <- <-.
      destruct (IH _ _ eq_refl) as [-> Ha]. split; [reflexivity|].
      simpl. rewrite Hc, Ha. reflexivity.
    + injection H as <- <-. split; reflexivity.
Qed.

Lemma match_aix_process_inv (s w d : string) :
  match_aix_process s = Some (w, d) →
  ∃ rest,
    s = w +:+ "[" +:+ d +:+ "]" +:+ rest
    ∧ w ≠ "" ∧ d ≠ ""
    ∧ all_chars isword w = true ∧ all_chars isdigit d = true.
Proof.
  unfold match_aix_process. intros H.
  destruct (span isword s) as [w' r1] eqn:Ew.
  destruct (String.eqb_spec w' "") as [|Hw]; [discriminate|].
  destruct r1 as [|b r2]; [discriminate|].
  destruct (Ascii.eqb_spec b "[") as [->|Hb].
  2:{ exfalso. revert H.
      destruct b as [[] [] [] [] [] [] [] []]; try discriminate;
        exfalso; apply Hb; reflexivity. }
  destruct (span isdigit r2) as [d' r3] eqn:Ed.
  destruct (String.eqb_spec d' "") as [|Hd]; [discriminate|].
  destruct r3 as [|x rest]; [discriminate|].
  destruct (Ascii.eqb_spec x "]") as [->|Hx].
  2:{ exfalso. revert H.
      destruct x as [[] [] [] [] [] [] [] []]; try discriminate;
        exfalso; apply Hx; reflexivity. }
  injection H as <- <-.
  destruct (span_app _ _ _ _ Ew) as [-> Hword].
  destruct (span_app _ _ _ _ Ed) as [-> Hdigit].
  exists rest. repeat split; assumption.
Qed.

(** The process name that the search finds is a part of the message. *)
Lemma process_name_in_message (message w d needle : string) :
  search match_aix_process message = Some (w, d) →
  contains needle (lower w) = true →
  contains needle (lower message) = true.
Proof.
  intros Hs Hc. apply search_Some in Hs as (pre & suf & -> & Hm).
  apply match_aix_process_inv in Hm as (rest & -> & _).
  rewrite !lower_app. apply contains_within, Hc.
Qed.

Lemma component_from_message (message source : string) :
  _extract_component message source = component_of_message message.
Proof.
  unfold _extract_component, component_of_message.
  destruct (List.find _ aix_components) as [c|] eqn:Hf; [reflexivity|].
  destruct (search match_aix_process message) as [[w d]|] eqn:Hs;
    [|reflexivity].
  destruct (List.find (fun component => contains component (lower w))
              aix_components) as [c|] eqn:Hf2; [|reflexivity].
  exfalso. apply find_some in Hf2 as [Hin Hc].
  apply (find_none _ _ Hf) in Hin. simpl in Hin.
  rewrite (process_name_in_message _ _ _ _ Hs Hc) in Hin. discriminate.
Qed.

(** X10.  The component of a message is decided by the message alone: the
    upper-case name of the first component of the list that the lower-case
    message contains, or SYSTEM.  The process name found by the pattern is a
    part of the message, so that the second loop, over the process name,
    never finds a component that the first did not; nor does the source
    count. *)
Theorem component_decided_by_message (message source : string) :
  _extract_component message source = component_of_message message
  ∧ (∀ w d component,
       search match_aix_process message = Some (w, d) →
       component ∈ aix_components →
       contains component (lower w) = true →
       contains component (lower message) = true)
  ∧ _extract_component message source ∈ components.
Proof.
  split; [apply component_from_message|]. split.
  - intros w d component Hs _ Hc.
    exact (process_name_in_message _ _ _ _ Hs Hc).
  - rewrite component_from_message. unfold component_of_message.
    destruct (List.find _ aix_components) as [c|] eqn:Hf.
    + apply find_some in Hf as [Hin _]. unfold aix_components in Hin.
      simpl in Hin. apply list_elem_of_In. unfold components.
      repeat (destruct Hin as [<-|Hin]; [simpl; tauto|]). contradiction.
    + in_list.
Qed.

Lemma component_decided_by_message_witness :
  contains "disk" (lower "diskmon[12]: started") = true.
Proof.
  apply (proj1 (proj2 (component_decided_by_message "diskmon[12]: started"
                         "/var/adm/messages")) "diskmon" "12" "disk").
  - reflexivity.
  - vm_compute. do 7 right. left.
  - reflexivity.
Defined.

(** X11.  The classifiers do not see the case of letters: two messages, and
    two sources, with the same lower-case form have the same facility,
    priority, log level, component and error type; so does a message and its
    lower-case form. *)
Theorem classifiers_ignore_case (message1 message2 source1 source2 : string) :
  lower message1 = lower message2 →
  lower source1 = lower source2 →
  _determine_facility source1 message1 = _determine_facility source2 message2
  ∧ _determine_priority message1 = _determine_priority message2
  ∧ _determine_log_level message1 = _determine_log_level message2
  ∧ _extract_component message1 source1 = _extract_component message2 source2
  ∧ _determine_error_type message1 = _determine_error_type message2.
Proof.
  intros Hm Hs. repeat split.
  - unfold _determine_facility. rewrite Hm, Hs. reflexivity.
  - unfold _determine_priority. rewrite Hm. reflexivity.
  - unfold _determine_log_level, _determine_priority. rewrite Hm. reflexivity.
  - rewrite !component_from_message. unfold component_of_message.
    rewrite Hm. reflexivity.
  - unfold _determine_error_type. rewrite Hm. reflexivity.
Qed.

Lemma classifiers_ignore_case_witness :
  _determine_priority "Disk FAILURE on hdisk0"
  = _determine_priority "disk failure on hdisk0"
  ∧ _extract_component (lower "LPAR Down") (lower "/VAR/ADM/Messages")
    = _extract_component "LPAR Down" "/VAR/ADM/Messages".
Proof.
  split.
  - apply (classifiers_ignore_case "Disk FAILURE on hdisk0"
             "disk failure on hdisk0" "a" "A"); reflexivity.
  - apply (classifiers_ignore_case (lower "LPAR Down") "LPAR Down"
             (lower "/VAR/ADM/Messages") "/VAR/ADM/Messages");
      apply lower_lower.
Defined.

(** *** Records of the system-log collector *)

Ltac chain_in :=
  cbv zeta;
  repeat match goal with
  | |- (if ?b then _ else _) ∈ _ => destruct b; [in_list|]
  end;
  in_list.

Lemma facility_in_facilities source message :
  _determine_facility source message ∈ facilities.
Proof. unfold _determine_facility, facilities. chain_in. Qed.

Lemma priority_in_priorities message :
  _determine_priority message ∈ priorities.
Proof. unfold _determine_priority, priorities. chain_in. Qed.

Lemma error_type_in_error_types message :
  _determine_error_type message ∈ error_types.
Proof. unfold _determine_error_type, error_types. chain_in. Qed.

Lemma component_in_components message :
  component_of_message message ∈ components.
Proof.
  unfold component_of_message.
  destruct (List.find _ aix_components) as [c|] eqn:Hf.
  - apply find_some in Hf as [Hin _]. unfold aix_components in Hin.
    simpl in Hin. apply list_elem_of_In. unfold components.
    repeat (destruct Hin as [<-|Hin]; [simpl; tauto|]). contradiction.
  - in_list.
Qed.

Lemma level_in_log_levels priority : level_of_priority priority ∈ log_levels.
Proof. unfold level_of_priority, log_levels. chain_in. Qed.

Lemma member_nonempty (s : string) (l : list string) :
  forallb (fun x => negb (String.eqb x "")) l = true →
  s ∈ l → String.eqb s "" = false.
Proof.
  intros Hl Hs. apply list_elem_of_In in Hs.
  apply (proj1 (forallb_forall _ _) Hl) in Hs. apply negb_true_iff, Hs.
Qed.

Lemma parsed_facility message source :
  _parse_log_message message source !! "facility"
  = Some (_determine_facility source message).
Proof.
  unfold _parse_log_message.
  do 4 (rewrite lookup_insert_ne by discriminate). apply lookup_insert_eq.
Qed.

Lemma parsed_component message source :
  _parse_log_message message source !! "component"
  = Some (_extract_component message source).
Proof.
  unfold _parse_log_message.
  rewrite lookup_insert_ne by discriminate. apply lookup_insert_eq.
Qed.

Lemma parsed_error_type message source :
  _parse_log_message message source !! "error_type"
  = Some (_determine_error_type message).
Proof. unfold _parse_log_message. apply lookup_insert_eq. Qed.


Lemma parsed_timestamp message source :
  _parse_log_message message source !! "timestamp"
  = search match_aix_timestamp message.
Proof.
  unfold _parse_log_message.
  do 5 (rewrite lookup_insert_ne by discriminate).
  destruct (search match_aix_process message) as [[w d]|];
    [do 2 (rewrite lookup_insert_ne by discriminate)|];
    (destruct (search match_aix_timestamp message);
     [apply lookup_insert_eq | apply lookup_empty]).
Qed.

Lemma syslog_fields_keys entry server :
  map fst (processed_fields entry server)
  = ["source"; "message"; "timestamp"; "facility"; "priority"; "process_id";
     "hostname"; "server_name"; "log_level"; "component"; "error_type";
     "raw_message"].
Proof. reflexivity. Qed.

(** X12.  Every processed log entry has a facility, a priority, a log
    level, a component and an error type, each a value of the closed list of
    its classifier; and it has no key besides the twelve of the processing:
    the process name and the timestamp found in the message are not
    recorded. *)
Theorem syslog_record_is_classified (server : server_config)
    (entry : syslog_entry) :
  let record := process_entry server entry in
  (∃ f p l c t,
     record !! "facility" = Some (VStr f) ∧ f ∈ facilities
     ∧ record !! "priority" = Some (VStr p) ∧ p ∈ priorities
     ∧ record !! "log_level" = Some (VStr l) ∧ l ∈ log_levels
     ∧ record !! "component" = Some (VStr c) ∧ c ∈ components
     ∧ record !! "error_type" = Some (VStr t) ∧ t ∈ error_types)
  ∧ (∀ key, is_Some (record !! key) →
            key ∈ ["source"; "message"; "timestamp"; "facility"; "priority";
                   "process_id"; "hostname"; "server_name"; "log_level";
                   "component"; "error_type"; "raw_message"])
  ∧ record !! "process_name" = None.
Proof.
  intros record. subst record.
  assert (Hkeys : ∀ key, is_Some (process_entry server entry !! key) →
            key ∈ ["source"; "message"; "timestamp"; "facility"; "priority";
                   "process_id"; "hostname"; "server_name"; "log_level";
                   "component"; "error_type"; "raw_message"]).
  { intros key [v Hv]. rewrite syslog_record_lookup in Hv.
    destruct (assoc key (processed_fields entry server)) as [x|] eqn:Hx;
      [|discriminate].
    apply assoc_Some_key in Hx. rewrite syslog_fields_keys in Hx. exact Hx. }
  split; [|split; [exact Hkeys|]].
  - exists (_determine_facility (source entry) (message entry)),
      (_determine_priority (message entry)),
      (level_of_priority (_determine_priority (message entry))),
      (component_of_message (message entry)),
      (_determine_error_type (message entry)).
    rewrite !syslog_record_lookup.
    change (assoc "facility" (processed_fields entry server))
      with (Some (VStr (default "UNKNOWN"
              (_parse_log_message (message entry) (source entry) !! "facility")))).
    change (assoc "priority" (processed_fields entry server))
      with (Some (VStr (default "UNKNOWN"
              (_parse_log_message (message entry) (source entry) !! "priority")))).
    change (assoc "log_level" (processed_fields entry server))
      with (Some (VStr (default "INFO"
              (_parse_log_message (message entry) (source entry) !! "log_level")))).
    change (assoc "component" (processed_fields entry server))
      with (Some (VStr (default ""
              (_parse_log_message (message entry) (source entry) !! "component")))).
    change (assoc "error_type" (processed_fields entry server))
      with (Some (VStr (default ""
              (_parse_log_message (message entry) (source entry) !! "error_type")))).
    rewrite parsed_facility, parsed_priority, parsed_log_level,
      parsed_component, parsed_error_type.
    unfold _determine_log_level. rewrite priority_lookup.
    rewrite component_from_message. cbn [default from_option id].
    rewrite !kept_text_truthy. unfold kept_text.
    rewrite (member_nonempty _ facilities eq_refl (facility_in_facilities _ _)).
    rewrite (member_nonempty _ priorities eq_refl (priority_in_priorities _)).
    rewrite (member_nonempty _ log_levels eq_refl (level_in_log_levels _)).
    rewrite (member_nonempty _ components eq_refl (component_in_components _)).
    rewrite (member_nonempty _ error_types eq_refl (error_type_in_error_types _)).
    repeat split;
      auto using facility_in_facilities, priority_in_priorities,
        level_in_log_levels, component_in_components,
        error_type_in_error_types.
  - destruct (process_entry server entry !! "process_name") eqn:E;
      [|reflexivity].
    assert (H := Hkeys "process_name" (mk_is_Some _ _ E)).
    apply list_elem_of_In in H. simpl in H. intuition discriminate.
Qed.


Lemma match_atoms_app (p : list atom) (s g r x : string) :
  match_atoms p s = Some (g, r) → match_atoms p (s +:+ x) = Some (g, r +:+ x).
Proof.
  revert s g r. induction p as [|a p IH]; intros s g r H; simpl in H.
  - injection H as <- <-. reflexivity.
  - destruct s as [|c s]; [discriminate|].
    change (String c s +:+ x) with (String c (s +:+ x)). simpl.
    destruct (atom_ok a c); [|discriminate].
    destruct (match_atoms p s) as [[g' r']|] eqn:E; [|discriminate].
    injection H as <- <-. rewrite (IH _ _ _ E). reflexivity.
Qed.

Lemma match_aix_timestamp_inv (s t : string) :
  match_aix_timestamp s = Some t →
  aix_timestamp_text t = true ∧ ∃ rest, s = "[" +:+ t +:+ "]" +:+ rest.
Proof.
  unfold match_aix_timestamp. intros H.
  destruct s as [|b s]; [discriminate|].
  destruct (Ascii.eqb_spec b "[") as [->|Hb].
  2:{ exfalso. revert H.
      destruct b as [[] [] [] [] [] [] [] []]; try discriminate;
        exfalso; apply Hb; reflexivity. }
  destruct (match_atoms aix_timestamp_group s) as [[g r]|] eqn:Hm;
    [|discriminate].
  destruct r as [|x rest]; [discriminate|].
  destruct (Ascii.eqb_spec x "]") as [->|Hx].
  2:{ exfalso. revert H.
      destruct x as [[] [] [] [] [] [] [] []]; try discriminate;
        exfalso; apply Hx; reflexivity. }
  injection H as <-.
  destruct (match_atoms_inv "]" aix_timestamp_group _ _ _ eq_refl Hm)
    as (-> & _ & _).
  split; [|exists rest; reflexivity].
  unfold aix_timestamp_text.
  assert (Hg : ∀ p s g r, match_atoms p s = Some (g, r) →
                          match_atoms p g = Some (g, "")).
  { clear. induction p as [|a p IH]; intros s g r H; simpl in H.
    - injection H as <- <-. reflexivity.
    - destruct s as [|c s]; [discriminate|].
      destruct (atom_ok a c) eqn:Hc; [|discriminate].
      destruct (match_atoms p s) as [[g' r']|] eqn:E; [|discriminate].
      injection H as <- <-. simpl. rewrite Hc, (IH _ _ _ E). reflexivity. }
  rewrite (Hg _ _ _ _ Hm). reflexivity.
Qed.

(** X14.  The parsed message has a timestamp exactly when the message
    contains a bracketed text of the form [dd/dd/dddd-dd:dd:dd:ddd]; the
    timestamp is such a text, of 23 characters, bracketed in the message. *)
Theorem parsed_timestamp_is_bracketed (message source : string) :
  (∀ t, _parse_log_message message source !! "timestamp" = Some t →
        aix_timestamp_text t = true ∧ String.length t = 23
        ∧ contains ("[" +:+ t +:+ "]") message = true)
  ∧ (∀ t, aix_timestamp_text t = true →
          contains ("[" +:+ t +:+ "]") message = true →
          is_Some (_parse_log_message message source !! "timestamp")).
Proof.
  rewrite parsed_timestamp. split.
  - intros t Hs. apply search_Some in Hs as (pre & suf & -> & Hm).
    apply match_aix_timestamp_inv in Hm as (Ht & rest & ->).
    split; [exact Ht|]. split.
    + unfold aix_timestamp_text in Ht.
      destruct (match_atoms aix_timestamp_group t) as [[g r]|] eqn:E;
        [|discriminate].
      destruct (match_atoms_inv "]" aix_timestamp_group _ _ _ eq_refl E)
        as (Ht' & _ & Hlen).
      destruct r; [|discriminate]. rewrite append_nil_r in Ht'. subst g.
      exact Hlen.
    + replace ("[" +:+ t +:+ "]" +:+ rest) with (("[" +:+ t +:+ "]") +:+ rest)
        by (change ("[" +:+ t +:+ "]" +:+ rest)
              with (String "[" (t +:+ "]" +:+ rest));
            change (("[" +:+ t +:+ "]") +:+ rest)
              with (String "[" ((t +:+ "]") +:+ rest));
            rewrite append_assoc_str; reflexivity).
      apply contains_app_intro.
  - intros t Ht Hc. apply contains_split in Hc as (pre & post & ->).
    apply search_app. unfold aix_timestamp_text in Ht.
    destruct (match_atoms aix_timestamp_group t) as [[g r]|] eqn:E;
      [|discriminate].
    destruct r; [|discriminate].
    change (("[" +:+ t +:+ "]") +:+ post)
      with (String "[" ((t +:+ "]") +:+ post)).
    rewrite append_assoc_str. unfold match_aix_timestamp.
    rewrite (match_atoms_app _ _ _ _ ("]" +:+ post) E).
    eexists. reflexivity.
Qed.

Lemma parsed_timestamp_is_bracketed_witness :
  is_Some (_parse_log_message "link up [01/02/2024-10:00:00:000] en0"
             "/var/adm/messages" !! "timestamp").
Proof.
  apply (proj2 (parsed_timestamp_is_bracketed
                  "link up [01/02/2024-10:00:00:000] en0" "/var/adm/messages")
           "01/02/2024-10:00:00:000"); reflexivity.
Defined.

(** *** Entries of the log files *)

Lemma syslog_lines_entries clock server log_file lines tick entry :
  entry ∈ (syslog_lines clock server log_file lines tick).1 →
  ∃ raw k,
    raw ∈ lines ∧ blank raw = false
    ∧ entry = make_syslog_entry server log_file (strip raw) (clock k).
Proof.
  revert tick. induction lines as [|raw lines IH]; intros tick H.
  - simpl in H. apply list_elem_of_In in H. contradiction.
  - cbn [syslog_lines] in H. cbv zeta in H.
    destruct (String.eqb (strip raw) "") eqn:Hb.
    + destruct (IH _ H) as (r & k & Hin & Hr & He).
      exists r, k. split; [right; exact Hin | split; assumption].
    + destruct (syslog_lines clock server log_file lines (S tick))
        as [entries tick'] eqn:E.
      cbn [fst] in H. apply elem_of_cons in H as [->|H].
      * exists raw, tick. split; [left | split; [exact Hb | reflexivity]].
      * assert (H' : entry ∈ (syslog_lines clock server log_file lines (S tick)).1)
          by (rewrite E; exact H).
        destruct (IH _ H') as (r & k & Hin & Hr & He).
        exists r, k. split; [right; exact Hin | split; assumption].
Qed.

Lemma syslog_files_entries execute_command clock server log_files tick entry :
  entry ∈ syslog_files execute_command clock server log_files tick →
  ∃ log_file raw k,
    log_file ∈ log_files ∧ blank raw = false
    ∧ entry = make_syslog_entry server log_file (strip raw) (clock k).
Proof.
  revert tick. induction log_files as [|log_file rest IH]; intros tick H.
  - simpl in H. apply list_elem_of_In in H. contradiction.
  - assert (Hrest : ∀ t, entry ∈ syslog_files execute_command clock server rest t →
              ∃ f raw k, f ∈ log_file :: rest ∧ blank raw = false
                ∧ entry = make_syslog_entry server f (strip raw) (clock k)).
    { intros t Ht. destruct (IH _ Ht) as (f & raw & k & Hf & Hr & He).
      exists f, raw, k. split; [right; exact Hf | split; assumption]. }
    cbn [syslog_files] in H.
    destruct (execute_command server
                ("test -r " +:+ log_file +:+ " && echo 'exists' || echo 'not_exists'"))
      as [[ok stdout] err].
    destruct (negb ok || contains "not_exists" stdout); [exact (Hrest _ H)|].
    destruct (execute_command server ("tail -100 " +:+ log_file))
      as [[read_ok out] err'].
    destruct (negb read_ok); [exact (Hrest _ H)|].
    destruct (syslog_lines clock server log_file (split nl out) tick)
      as [entries tick'] eqn:E.
    apply elem_of_app in H as [H|H]; [|exact (Hrest _ H)].
    assert (H' : entry ∈ (syslog_lines clock server log_file (split nl out) tick).1)
      by (rewrite E; exact H).
    destruct (syslog_lines_entries _ _ _ _ _ _ H') as (raw & k & _ & Hr & He).
    exists log_file, raw, k. split; [left | split; assumption].
Qed.

(** X15.  Every entry that [collect_syslog_data] returns comes from one of
    the requested log files, or of the three default files when none is
    requested; its message is a line of the file without white space at
    either end and is not empty; its host name is that of the server, and its
    facility, priority and process id are the fixed UNKNOWN, UNKNOWN and the
    empty string.  The record made from it has this message under [message]
    and under [raw_message]. *)
Theorem syslog_entries_well_formed
    (execute_command : server_config → string → bool * string * string)
    (clock : nat → string) (server : server_config) (log_files : list string)
    (entry : syslog_entry) :
  entry ∈ collect_syslog_data execute_command clock server log_files →
  source entry ∈ (match log_files with [] => default_log_files | _ => log_files end)
  ∧ message entry ≠ "" ∧ strip (message entry) = message entry
  ∧ entry_hostname entry = hostname server
  ∧ facility entry = "UNKNOWN" ∧ priority entry = "UNKNOWN"
  ∧ process_id entry = ""
  ∧ process_entry server entry !! "message" = Some (VStr (message entry))
  ∧ process_entry server entry !! "raw_message" = Some (VStr (message entry)).
Proof.
  intros H. unfold collect_syslog_data in H.
  apply syslog_files_entries in H as (log_file & raw & k & Hf & Hr & ->).
  unfold blank in Hr. cbn [source message entry_hostname facility priority
    process_id make_syslog_entry].
  split; [exact Hf|]. split; [apply eqb_empty_false, Hr|].
  split; [apply strip_strip|]. do 4 (split; [reflexivity|]).
  rewrite !syslog_record_lookup.
  change (assoc "message" (processed_fields
            (make_syslog_entry server log_file (strip raw) (clock k)) server))
    with (Some (VStr (strip raw))).
  change (assoc "raw_message" (processed_fields
            (make_syslog_entry server log_file (strip raw) (clock k)) server))
    with (Some (VStr (strip raw))).
  cbv beta iota. rewrite kept_text_truthy. unfold kept_text. rewrite Hr.
  split; reflexivity.
Qed.

Lemma syslog_entries_well_formed_witness :
  source (make_syslog_entry sample_server "/var/adm/ras/errlog" "[boot] ready"
            sample_now)
  ∈ default_log_files.
Proof.
  apply (syslog_entries_well_formed sample_execute sample_clock sample_server []).
  vm_compute. left.
Defined.

(** *** The writers of the store *)

Import InfluxDBManager.

Lemma get_cleaned (fieldlist : list (string * value)) (key : string) (d : value) :
  (∀ v, assoc key fieldlist = Some v → truthy v = false → v = d) →
  get (drop_falsy (list_to_map fieldlist)) key d
  = get (list_to_map fieldlist) key d.
Proof.
  intros H. unfold get. rewrite drop_falsy_lookup, list_to_map_assoc.
  destruct (assoc key fieldlist) as [v|]; [|reflexivity].
  destruct (truthy v) eqn:Hv; [reflexivity|].
  simpl. symmetry. apply H; [reflexivity | exact Hv].
Qed.

Lemma falsy_text (s : string) (v : value) :
  Some (VStr s) = Some v → truthy v = false → v = VStr "".
Proof.
  intros [= <-] H. simpl in H. apply negb_false_iff in H.
  apply String.eqb_eq in H. subst s. reflexivity.
Qed.

Lemma severity_nonempty (error_id : string) :
  String.eqb (ErrptCollector._extract_severity error_id) "" = false.
Proof.
  destruct (String.eqb_spec error_id "") as [->|Hne]; [reflexivity|].
  rewrite (extract_severity_letters _ Hne). unfold severity_by_letters.
  repeat match goal with
  | |- String.eqb (if ?b then _ else _) _ = _ => destruct b; [reflexivity|]
  end. reflexivity.
Qed.

Lemma errpt_get_cleaned server entry key :
  key ∈ errpt_text_keys → key ≠ "sequence_number" →
  get (ErrptCollector.process_entry server entry) key (VStr "")
  = get (list_to_map (ErrptCollector.processed_fields entry server)) key (VStr "").
Proof.
  intros Hkey Hne. unfold ErrptCollector.process_entry. apply get_cleaned.
  apply list_elem_of_In in Hkey. unfold errpt_text_keys in Hkey. simpl in Hkey.
  repeat (destruct Hkey as [<-|Hkey];
          [first [contradiction | exact (falsy_text _) ]|]).
  contradiction.
Qed.

(** X16.  Leaving out the empty values does not change what the writers
    store: the point written from a cleaned record is the point that the
    uncleaned dictionary would give, for the system log always, and for the
    error report unless the text of the sequence number is empty, in which
    case the point has the integer 0 in its place. *)
Theorem cleaning_invisible_to_writers :
  (∀ server_name server entry now,
     entry !! "sequence_number" ≠ Some "" →
     errpt_point server_name (ErrptCollector.process_entry server entry) now
     = errpt_point server_name
         (list_to_map (ErrptCollector.processed_fields entry server)) now)
  ∧ (∀ server_name server entry now,
       entry !! "sequence_number" = Some "" →
       assoc "sequence_number"
         (fields (errpt_point server_name
                    (ErrptCollector.process_entry server entry) now))
       = Some (VInt 0)
       ∧ assoc "sequence_number"
           (fields (errpt_point server_name
                      (list_to_map (ErrptCollector.processed_fields entry server))
                      now))
         = Some (VStr ""))
  ∧ (∀ server_name server entry now,
       syslog_point server_name (SyslogCollector.process_entry server entry) now
       = syslog_point server_name
           (list_to_map (SyslogCollector.processed_fields entry server)) now).
Proof.
  split; [|split].
  - intros server_name server entry now Hseq. unfold errpt_point.
    rewrite !errpt_get_cleaned by first [in_list | discriminate].
    assert (Hsev :
      get (ErrptCollector.process_entry server entry) "severity" (VStr "UNKNOWN")
      = get (list_to_map (ErrptCollector.processed_fields entry server))
          "severity" (VStr "UNKNOWN")).
    { apply get_cleaned. intros v [= <-] Hv. simpl in Hv.
      rewrite severity_nonempty in Hv. discriminate. }
    assert (Hnum :
      get (ErrptCollector.process_entry server entry) "sequence_number" (VInt 0)
      = get (list_to_map (ErrptCollector.processed_fields entry server))
          "sequence_number" (VInt 0)).
    { apply get_cleaned. intros v Hv Hf. simpl in Hv.
      destruct (entry !! "sequence_number") as [text|]; injection Hv as <-.
      - simpl in Hf. apply negb_false_iff, String.eqb_eq in Hf. subst text.
        contradiction.
      - reflexivity. }
    rewrite Hsev, Hnum. reflexivity.
  - intros server_name server entry now Hseq. unfold errpt_point, get.
    cbn [fields assoc String.eqb Ascii.eqb Bool.eqb].
    rewrite errpt_record_lookup, list_to_map_assoc.
    simpl. rewrite Hseq. split; reflexivity.
  - intros server_name server entry now. unfold syslog_point.
    unfold SyslogCollector.process_entry.
    rewrite !(get_cleaned _ _ (VStr "")) by exact (falsy_text _).
    assert (Hfac : ∀ key, key = "facility" ∨ key = "priority" →
      get (drop_falsy (list_to_map (SyslogCollector.processed_fields entry server)))
        key (VStr "UNKNOWN")
      = get (list_to_map (SyslogCollector.processed_fields entry server))
          key (VStr "UNKNOWN")).
    { intros key Hkey. apply get_cleaned. intros v Hv Hf. exfalso.
      destruct Hkey as [-> | ->].
      - change (assoc "facility" (SyslogCollector.processed_fields entry server))
          with (Some (VStr (default "UNKNOWN"
                  (_parse_log_message (message entry) (source entry) !! "facility"))))
          in Hv.
        rewrite parsed_facility in Hv. injection Hv as <-. simpl in Hf.
        rewrite (member_nonempty _ facilities eq_refl
                   (facility_in_facilities _ _)) in Hf. discriminate.
      - change (assoc "priority" (SyslogCollector.processed_fields entry server))
          with (Some (VStr (default "UNKNOWN"
                  (_parse_log_message (message entry) (source entry) !! "priority"))))
          in Hv.
        rewrite parsed_priority in Hv. injection Hv as <-. simpl in Hf.
        rewrite (member_nonempty _ priorities eq_refl
                   (priority_in_priorities _)) in Hf. discriminate. }
    rewrite (Hfac "facility"), (Hfac "priority") by tauto. reflexivity.
Qed.

Lemma cleaning_invisible_to_writers_witness :
  errpt_point "aix01"
    (ErrptCollector.process_entry sample_server {[ "error_id" := "AB12" ]})
    sample_now
  = errpt_point "aix01"
      (list_to_map (ErrptCollector.processed_fields {[ "error_id" := "AB12" ]}
                      sample_server))
      sample_now.
Proof.
  apply (proj1 cleaning_invisible_to_writers "aix01" sample_server
           {[ "error_id" := "AB12" ]} sample_now).
  vm_compute. discriminate.
Defined.

(** X17.  A point depends on the record only through the keys that the
    writer reads: two records that agree on them give the same point.  The
    point of an error report does not carry its timestamp, host name, causes,
    recommended actions and detail data, and the point of a log entry does
    not carry its log level, component, error type and raw message. *)
Theorem points_ignore_other_keys (server_name now : string)
    (record1 record2 : gmap string value) :
  ((∀ key, key ∈ errpt_stored_keys → record1 !! key = record2 !! key) →
   errpt_point server_name record1 now = errpt_point server_name record2 now)
  ∧ ((∀ key, key ∈ syslog_stored_keys → record1 !! key = record2 !! key) →
     syslog_point server_name record1 now = syslog_point server_name record2 now).
Proof.
  split; intros H.
  - unfold errpt_point, get.
    repeat match goal with
    | |- context [record1 !! ?k] => rewrite (H k) by in_list
    end. reflexivity.
  - unfold syslog_point, get.
    repeat match goal with
    | |- context [record1 !! ?k] => rewrite (H k) by in_list
    end. reflexivity.
Qed.

Lemma points_ignore_other_keys_witness :
  syslog_point "aix01"
    {[ "message" := VStr "link up"; "component" := VStr "NETWORK" ]} sample_now
  = syslog_point "aix01"
      {[ "message" := VStr "link up"; "log_level" := VStr "DEBUG" ]} sample_now.
Proof.
  apply (proj2 (points_ignore_other_keys "aix01" sample_now
                  {[ "message" := VStr "link up"; "component" := VStr "NETWORK" ]}
                  {[ "message" := VStr "link up"; "log_level" := VStr "DEBUG" ]})).
  intros key Hkey. apply list_elem_of_In in Hkey. simpl in Hkey.
  repeat (destruct Hkey as [<-|Hkey]; [vm_compute; reflexivity|]).
  contradiction.
Defined.

Lemma build_points_length make clock data tick :
  length (build_points make clock data tick) = length data.
Proof.
  revert tick. induction data as [|entry data IH]; intros tick; simpl;
    [reflexivity | rewrite IH; reflexivity].
Qed.

(** X18.  With the writer of the store in place, the collection of error
    reports succeeds with as many records as entries were collected, or it
    fails with no record; it fails only when entries were collected and the
    write API raised on the batch of their points, one point for each
    entry. *)
Theorem collect_fails_only_when_api_raises
    (execute_command : server_config → string → bool * string * string)
    (bucket : string) (write_api : string → list point → outcome unit)
    (clock : nat → string) (server : server_config) :
  let errpt_data := collect_errpt_data execute_command server "1h" in
  let points :=
    build_points (errpt_point (name server)) clock
      (ErrptCollector._process_errpt_data errpt_data server) 0 in
  let result :=
    ErrptCollector.collect execute_command
      (errpt_writer bucket write_api clock) server in
  length points = length errpt_data
  ∧ ((success result = true ∧ records_collected result = length errpt_data
      ∧ (errpt_data = [] ∨ ∃ u, write_api bucket points = Returned u))
     ∨ (success result = false ∧ records_collected result = 0
        ∧ errpt_data ≠ [] ∧ ∃ e, write_api bucket points = Raised e)).
Proof.
  intros errpt_data points result. split.
  { subst points. rewrite build_points_length.
    unfold ErrptCollector._process_errpt_data. apply length_map. }
  subst result. unfold ErrptCollector.collect. fold errpt_data.
  destruct errpt_data as [|entry rest] eqn:E.
  - left. repeat split. left. reflexivity.
  - unfold errpt_writer, write_errpt_data, write_points. fold points.
    assert (Hp : points ≠ []).
    { intros Hp. assert (Hl : length points = S (length rest)).
      { subst points. rewrite build_points_length.
        unfold ErrptCollector._process_errpt_data. apply length_map. }
      rewrite Hp in Hl. discriminate. }
    destruct points as [|p ps] eqn:Ep; [contradiction|].
    destruct (write_api bucket (p :: ps)) as [u|e] eqn:Hw.
    + left. split; [reflexivity|]. split.
      * simpl. unfold ErrptCollector._process_errpt_data.
        rewrite length_map. reflexivity.
      * right. exists u. reflexivity.
    + right. repeat split; [discriminate|]. exists e. reflexivity.
Qed.

(** X19.  The collection of past error reports uses the time range only to
    choose the command: a range other than 1h, 1d and 1w is read as no range
    at all, the whole report being asked for, and gives the result of any
    other such range, the empty one included. *)
Theorem historical_unknown_range_is_everything
    (execute_command : server_config → string → bool * string * string)
    (write_errpt_data : string → list (gmap string value) → outcome bool)
    (server : server_config) (time_range : string) :
  time_range ∉ ["1h"; "1d"; "1w"] →
  errpt_command time_range = "errpt -a"
  ∧ ErrptReports.collect_historical execute_command write_errpt_data server
      time_range
    = ErrptReports.collect_historical execute_command write_errpt_data server "".
Proof.
  intros Hrange.
  assert (Hcmd : errpt_command time_range = "errpt -a").
  { unfold errpt_command.
    destruct (String.eqb_spec time_range "1h") as [->|_];
      [exfalso; apply Hrange; in_list|].
    destruct (String.eqb_spec time_range "1d") as [->|_];
      [exfalso; apply Hrange; in_list|].
    destruct (String.eqb_spec time_range "1w") as [->|_];
      [exfalso; apply Hrange; in_list|].
    reflexivity. }
  split; [exact Hcmd|].
  unfold ErrptReports.collect_historical, collect_errpt_data.
  rewrite Hcmd. reflexivity.
Qed.

Lemma historical_unknown_range_is_everything_witness :
  errpt_command "2h" = "errpt -a".
Proof.
  apply (historical_unknown_range_is_everything sample_execute accepting_write
           sample_server "2h").
  intros H. apply list_elem_of_In in H. simpl in H. intuition discriminate.
Defined.

(** *** Summaries *)

Import ErrptReports.

Lemma sum_values_insert (m : gmap value Z) (k : value) (z : Z) :
  sum_values (<[k := (default 0 (m !! k) + z)%Z]> m) = (sum_values m + z)%Z.
Proof.
  unfold sum_values.
  assert (Hcomm : ∀ (m' : gmap value Z) (j1 j2 : value) (z1 z2 y : Z),
            j1 ≠ j2 → m' !! j1 = Some z1 → m' !! j2 = Some z2 →
            (z1 + (z2 + y) = z2 + (z1 + y))%Z) by (intros; lia).
  destruct (m !! k) as [v|] eqn:Hk; simpl.
  - rewrite <- (insert_delete_eq m k (v + z)%Z).
    rewrite map_fold_insert_L;
      [|apply Hcomm | apply lookup_delete_eq].
    rewrite <- (insert_delete_id m k v Hk) at 2.
    rewrite map_fold_insert_L;
      [|apply Hcomm | apply lookup_delete_eq].
    lia.
  - rewrite map_fold_insert_L; [|apply Hcomm | exact Hk]. lia.
Qed.

Lemma tally_sum key d summary counts :
  sum_values (tally key d summary counts)
  = (sum_values counts + total_of summary)%Z.
Proof.
  revert counts. induction summary as [|entry rest IH]; intros counts; simpl.
  - lia.
  - rewrite IH, sum_values_insert. lia.
Qed.

Lemma total_of_none key d k summary :
  existsb (filed_under key d k) summary = false →
  List.filter (filed_under key d k) summary = [].
Proof.
  induction summary as [|entry rest IH]; [reflexivity|].
  simpl. intros H. apply orb_false_elim in H as [He H].
  rewrite He. exact (IH H).
Qed.

Lemma tally_lookup key d summary counts k :
  tally key d summary counts !! k =
  if existsb (filed_under key d k) summary
  then Some (default 0 (counts !! k)
             + total_of (List.filter (filed_under key d k) summary))%Z
  else counts !! k.
Proof.
  revert counts. induction summary as [|entry rest IH]; intros counts;
    [reflexivity|].
  cbn [tally existsb List.filter]. rewrite IH. unfold filed_under at 3 5.
  destruct (bool_decide_reflect (get entry key d = k)) as [->|Hne].
  - rewrite lookup_insert_eq. cbn [orb default from_option id total_of foldr].
    destruct (existsb (filed_under key d k) rest) eqn:Hrest.
    + f_equal. unfold total_of. lia.
    + rewrite (total_of_none _ _ _ _ Hrest). f_equal. simpl. lia.
  - rewrite lookup_insert_ne by exact Hne. reflexivity.
Qed.

Lemma add_count_int a entry :
  has_int_count entry = true →
  add_count a (get entry "count" (VInt 0)) = Returned (a + int_count entry)%Z.
Proof.
  unfold has_int_count, int_count.
  destruct (get entry "count" (VInt 0)); try discriminate. reflexivity.
Qed.

Lemma add_count_not_int a entry :
  has_int_count entry = false →
  ∃ e, add_count a (get entry "count" (VInt 0)) = Raised e.
Proof.
  unfold has_int_count.
  destruct (get entry "count" (VInt 0)); try discriminate;
    intros _; eexists; reflexivity.
Qed.

Lemma summary_loop_ok summary counts total :
  forallb has_int_count summary = true →
  summary_loop summary counts total
  = Returned (tally "severity" (VStr "UNKNOWN") summary counts,
              (total + total_of summary)%Z).
Proof.
  revert counts total. induction summary as [|entry rest IH];
    intros counts total H.
  - simpl. rewrite Z.add_0_r. reflexivity.
  - cbn [forallb] in H. apply andb_prop in H as [He H].
    cbn [summary_loop tally]. cbv zeta. unfold count_under.
    rewrite !(add_count_int _ _ He), (IH _ _ H).
    cbn [total_of foldr]. f_equal. f_equal. unfold total_of. lia.
Qed.

Lemma summary_loop_fails summary counts total :
  forallb has_int_count summary = false →
  ∃ e, summary_loop summary counts total = Raised e.
Proof.
  revert counts total. induction summary as [|entry rest IH];
    intros counts total H; [discriminate|].
  cbn [forallb] in H. cbn [summary_loop]. cbv zeta. unfold count_under.
  destruct (has_int_count entry) eqn:He.
  - rewrite !(add_count_int _ _ He). apply IH, H.
  - destruct (add_count_not_int (default 0%Z (counts !! get entry "severity"
                (VStr "UNKNOWN"))) _ He) as [e ->].
    exists e. reflexivity.
Qed.

(** X20.  When every count of the summary is an integer, the error summary
    has the sum of the counts as its total, and under each severity the sum
    of the counts of the entries of that severity, an entry without severity
    being counted under UNKNOWN; the counts of the breakdown add up to the
    total.  When a count is not an integer, the summary fails. *)
Theorem error_summary_counts
    (query_errpt_summary : string → string → list (gmap string value))
    (server : server_config) (time_range : string) :
  let summary := query_errpt_summary (name server) time_range in
  if forallb has_int_count summary then
    ∃ breakdown,
      get_error_summary query_errpt_summary server time_range
      = ErrorSummary (name server) time_range (total_of summary) breakdown
          summary
      ∧ sum_values breakdown = total_of summary
      ∧ ∀ severity,
          breakdown !! severity
          = breakdown_of "severity" (VStr "UNKNOWN") summary severity
  else
    ∃ message,
      get_error_summary query_errpt_summary server time_range
      = ErrorSummaryFailed message.
Proof.
  intros summary. unfold get_error_summary. fold summary.
  destruct (forallb has_int_count summary) eqn:H.
  - rewrite (summary_loop_ok _ _ _ H).
    exists (tally "severity" (VStr "UNKNOWN") summary ∅).
    split; [reflexivity|]. split.
    + rewrite tally_sum. unfold sum_values at 1. rewrite map_fold_empty. lia.
    + intros severity. rewrite tally_lookup, lookup_empty. unfold breakdown_of.
      destruct (existsb _ summary); [|reflexivity]. f_equal.
  - destruct (summary_loop_fails _ ∅ 0%Z H) as [e ->]. eexists. reflexivity.
Qed.

(** X21.  The critical errors of a summary are its entries of severity H
    or S, in their order; an entry without severity is not one of them; their
    number is the count returned, at most the length of the summary; the
    function never returns a failure. *)
Theorem critical_errors_are_H_or_S
    (query_errpt_summary : string → string → list (gmap string value))
    (server : server_config) (time_range : string) :
  let summary := query_errpt_summary (name server) time_range in
  ∃ critical,
    get_critical_errors query_errpt_summary server time_range
    = CriticalErrors (name server) time_range (length critical) critical
    ∧ critical `sublist_of` summary
    ∧ (length critical ≤ length summary)%nat
    ∧ ∀ entry,
        entry ∈ critical ↔
        entry ∈ summary
        ∧ (entry !! "severity" = Some (VStr "H")
           ∨ entry !! "severity" = Some (VStr "S")).
Proof.
  intros summary. unfold get_critical_errors. fold summary.
  exists (List.filter is_critical summary). split; [reflexivity|].
  assert (Hsub : List.filter is_critical summary `sublist_of` summary).
  { clear. induction summary as [|e l IH]; simpl; [constructor|].
    destruct (is_critical e); [apply sublist_skip | apply sublist_cons];
      exact IH. }
  split; [exact Hsub|]. split; [apply sublist_length, Hsub|].
  intros entry. rewrite !list_elem_of_In, filter_In, <- list_elem_of_In.
  unfold is_critical, get. split.
  - intros [Hin Hc]. split; [exact Hin|].
    apply orb_prop in Hc as [Hc|Hc]; apply bool_decide_eq_true_1 in Hc;
      destruct (entry !! "severity") as [v|]; simpl in Hc; try discriminate;
      subst v; tauto.
  - intros [Hin [Hs|Hs]]; (split; [exact Hin|]); rewrite Hs; reflexivity.
Qed.

Import SyslogReports.

Lemma log_summary_loop_ok summary fcounts pcounts total :
  forallb has_int_count summary = true →
  log_summary_loop summary fcounts pcounts total
  = Returned (tally "facility" (VStr "UNKNOWN") summary fcounts,
              tally "priority" (VStr "UNKNOWN") summary pcounts,
              (total + total_of summary)%Z).
Proof.
  revert fcounts pcounts total. induction summary as [|entry rest IH];
    intros fcounts pcounts total H.
  - simpl. rewrite Z.add_0_r. reflexivity.
  - cbn [forallb] in H. apply andb_prop in H as [He H].
    cbn [log_summary_loop tally]. cbv zeta. unfold count_under.
    rewrite !(add_count_int _ _ He), (IH _ _ _ H).
    cbn [total_of foldr]. do 2 f_equal. unfold total_of. lia.
Qed.

Lemma filter_all_filed key d k (summary : list (gmap string value)) :
  Forall (fun entry => get entry key d = k) summary →
  List.filter (filed_under key d k) summary = summary.
Proof.
  induction 1 as [|entry rest He _ IH]; [reflexivity|].
  simpl. unfold filed_under at 1. rewrite bool_decide_eq_true_2 by exact He.
  rewrite IH. reflexivity.
Qed.

(** X22.  When every count of the summary is an integer, the log summary
    has the sum of the counts as its total, and the counts by facility and
    the counts by priority each add up to it.  The entries that the query of
    the store builds have no priority, so that for them the breakdown by
    priority has the whole total under UNKNOWN and nothing else. *)
Theorem log_summary_counts
    (query_syslog_summary : string → string → list (gmap string value))
    (server : server_config) (time_range : string) :
  let summary := query_syslog_summary (name server) time_range in
  forallb has_int_count summary = true →
  ∃ by_facility by_priority,
    get_log_summary query_syslog_summary server time_range
    = LogSummary (name server) time_range (total_of summary) by_facility
        by_priority summary
    ∧ sum_values by_facility = total_of summary
    ∧ sum_values by_priority = total_of summary
    ∧ (∀ facility,
         by_facility !! facility
         = breakdown_of "facility" (VStr "UNKNOWN") summary facility)
    ∧ (summary ≠ [] →
       Forall (fun entry =>
                 ∃ server_name facility count timestamp,
                   entry = syslog_summary_record server_name facility count
                             timestamp) summary →
       by_priority = {[ VStr "UNKNOWN" := total_of summary ]}).
Proof.
  intros summary H. unfold get_log_summary. fold summary.
  rewrite (log_summary_loop_ok _ _ _ _ H).
  exists (tally "facility" (VStr "UNKNOWN") summary ∅),
    (tally "priority" (VStr "UNKNOWN") summary ∅).
  split; [reflexivity|].
  split; [rewrite tally_sum; unfold sum_values at 1;
          rewrite map_fold_empty; lia|].
  split; [rewrite tally_sum; unfold sum_values at 1;
          rewrite map_fold_empty; lia|].
  split.
  - intros facility. rewrite tally_lookup, lookup_empty. unfold breakdown_of.
    destruct (existsb _ summary); [|reflexivity]. f_equal.
  - intros Hne Hshape.
    assert (Hall : Forall (fun entry =>
              get entry "priority" (VStr "UNKNOWN") = VStr "UNKNOWN") summary).
    { eapply Forall_impl; [exact Hshape|].
      intros entry (sn & f & c & ts & ->). reflexivity. }
    apply map_eq. intros k. rewrite tally_lookup, lookup_empty.
    destruct (decide (k = VStr "UNKNOWN")) as [->|Hk].
    + rewrite lookup_singleton_eq.
      rewrite (filter_all_filed _ _ _ _ Hall).
      destruct summary as [|entry rest]; [contradiction|].
      cbn [existsb]. unfold filed_under at 1.
      rewrite bool_decide_eq_true_2 by (inversion Hall; assumption).
      reflexivity.
    + rewrite lookup_singleton_ne by congruence.
      assert (Hnone : existsb (filed_under "priority" (VStr "UNKNOWN") k) summary
                      = false).
      { clear -Hall Hk. induction Hall as [|entry rest He _ IH]; [reflexivity|].
        simpl. rewrite IH, orb_false_r. unfold filed_under.
        apply bool_decide_eq_false_2. congruence. }
      rewrite Hnone. reflexivity.
Qed.

Lemma log_summary_counts_witness :
  ∃ by_facility by_priority,
    get_log_summary sample_syslog_query sample_server "1h"
    = LogSummary "aix01" "1h" 7 by_facility by_priority
        (sample_syslog_query "aix01" "1h")
    ∧ by_priority = {[ VStr "UNKNOWN" := 7%Z ]}.
Proof.
  destruct (log_summary_counts sample_syslog_query sample_server "1h" eq_refl)
    as (by_facility & by_priority & Hsum & _ & _ & _ & Hprio).
  exists by_facility, by_priority. split; [exact Hsum|].
  apply Hprio; [discriminate|].
  repeat constructor; eexists _, _, _, _; reflexivity.
Defined.

(** *** The collection of one log file *)

Lemma file_lines_length clock server log_file lines_data tick :
  length (file_lines clock server log_file lines_data tick)
  = length (List.filter (fun raw => negb (blank raw)) lines_data).
Proof.
  revert tick. induction lines_data as [|raw rest IH]; intros tick;
    [reflexivity|].
  cbn [file_lines List.filter]. cbv zeta. unfold blank at 1.
  destruct (String.eqb (strip raw) ""); simpl; rewrite IH; reflexivity.
Qed.

Lemma file_lines_entries clock server log_file lines_data tick entry :
  entry ∈ file_lines clock server log_file lines_data tick →
  ∃ raw k,
    raw ∈ lines_data ∧ blank raw = false
    ∧ message entry = strip raw ∧ timestamp entry = clock k
    ∧ source entry = log_file.
Proof.
  revert tick. induction lines_data as [|raw rest IH]; intros tick H.
  - apply list_elem_of_In in H. contradiction.
  - cbn [file_lines] in H. cbv zeta in H.
    destruct (String.eqb (strip raw) "") eqn:Hb.
    + destruct (IH _ H) as (r & k & Hin & Hr).
      exists r, k. split; [right; exact Hin | exact Hr].
    + apply elem_of_cons in H as [->|H].
      * exists raw, tick. split; [left|]. repeat split. exact Hb.
      * destruct (IH _ H) as (r & k & Hin & Hr).
        exists r, k. split; [right; exact Hin | exact Hr].
Qed.

(** X23.  The collection of one log file fails when the file cannot be
    read, with a message that names the file.  Otherwise it hands to the
    store one record for each line of the output that is not blank, also when
    there is none, and reports their number when the write succeeds.  The
    timestamp of each entry is the reading of the clock, whatever the line
    starts with. *)
Theorem one_file_collection
    (execute_command : server_config → string → bool * string * string)
    (clock : nat → string)
    (write_syslog_data : string → list (gmap string value) → outcome bool)
    (server : server_config) (log_file : string) (lines : Z) :
  let result :=
    collect_from_specific_file execute_command clock write_syslog_data server
      log_file lines in
  let test :=
    execute_command server
      ("test -r " +:+ log_file +:+ " && echo 'exists' || echo 'not_exists'") in
  let read :=
    execute_command server ("tail -" +:+ pretty lines +:+ " " +:+ log_file) in
  let syslog_data := file_lines clock server log_file (split nl read.1.2) 0 in
  (negb test.1.1 || contains "not_exists" test.1.2 = true →
   success result = false ∧ records_collected result = 0
   ∧ error_message result
     = Some ("Log file " +:+ log_file +:+ " not accessible on " +:+ name server))
  ∧ (negb test.1.1 || contains "not_exists" test.1.2 = false →
     read.1.1 = true →
     write_syslog_data (name server) (_process_syslog_data syslog_data server)
     = Returned true →
     result = {| success := true;
                 records_collected :=
                   length (List.filter (fun raw => negb (blank raw))
                             (split nl read.1.2));
                 error_message := None |})
  ∧ (∀ entry, entry ∈ syslog_data →
       ∃ k, timestamp entry = clock k
            ∧ process_entry server entry !! "timestamp" = kept_text (clock k)).
Proof.
  intros result test read syslog_data. subst result.
  unfold collect_from_specific_file. fold test. fold read.
  destruct test as [[ok stdout] err]. destruct read as [[read_ok out] err'].
  cbn [fst snd] in *. split; [|split].
  - intros ->. repeat split.
  - intros -> ->. cbn [negb]. fold syslog_data. intros ->.
    unfold _process_syslog_data. rewrite length_map. subst syslog_data.
    rewrite file_lines_length. reflexivity.
  - intros entry Hin. subst syslog_data.
    apply file_lines_entries in Hin as (raw & k & _ & _ & _ & Ht & _).
    exists k. split; [exact Ht|].
    rewrite syslog_record_lookup.
    change (assoc "timestamp" (processed_fields entry server))
      with (Some (VStr (timestamp entry))).
    cbv beta iota. rewrite kept_text_truthy, Ht. reflexivity.
Qed.

Lemma one_file_collection_witness :
  collect_from_specific_file sample_execute sample_clock accepting_write
    sample_server "/var/adm/messages" 100
  = {| success := true; records_collected := 2; error_message := None |}.
Proof.
  apply (proj1 (proj2 (one_file_collection sample_execute sample_clock
                         accepting_write sample_server "/var/adm/messages" 100)));
    reflexivity.
Defined.

(** *** The pool of connections *)

Import ConnectionPool.

Section PoolProperties.

Context {client : Type}.
Variable alive : client → bool.
Variable create : ssh_server → option client.
Variable max_connections : Z.

Lemma lookup_key_None (key : string) (l : list (string * client)) :
  lookup_key key l = None ↔ key ∉ map fst l.
Proof.
  induction l as [|[k c] l IH]; simpl.
  - split; [intros _ H; apply list_elem_of_In in H; contradiction | reflexivity].
  - destruct (String.eqb_spec k key) as [->|Hne].
    + split; [discriminate | intros H; exfalso; apply H; left].
    + rewrite IH. split.
      * intros H Hin. apply elem_of_cons in Hin as [->|Hin]; [congruence|auto].
      * intros H Hin. apply H. right. exact Hin.
Qed.

Lemma delete_key_keys (key k : string) (l : list (string * client)) :
  k ∈ map fst (delete_key key l) ↔ k ∈ map fst l ∧ k ≠ key.
Proof.
  induction l as [|[k' c] l IH]; simpl.
  - split; [intros H; apply list_elem_of_In in H; contradiction|].
    intros [H _]. exact H.
  - destruct (String.eqb_spec k' key) as [->|Hne].
    + rewrite IH. split.
      * intros [H Hk]. split; [right; exact H | exact Hk].
      * intros [H Hk]. apply elem_of_cons in H as [->|H]; [contradiction|].
        split; assumption.
    + simpl. rewrite !elem_of_cons, IH. split.
      * intros [->|[H Hk]]; [split; [left; reflexivity | exact Hne]|].
        split; [right; exact H | exact Hk].
      * intros [[->|H] Hk]; [left; reflexivity | right; split; assumption].
Qed.

Lemma delete_key_NoDup (key : string) (l : list (string * client)) :
  NoDup (map fst l) → NoDup (map fst (delete_key key l)).
Proof.
  induction l as [|[k c] l IH]; simpl; [intros _; constructor|].
  intros H. apply NoDup_cons in H as [Hk H].
  destruct (String.eqb k key); [exact (IH H)|].
  simpl. apply NoDup_cons. split; [|exact (IH H)].
  intros Hin. apply delete_key_keys in Hin as [Hin _]. contradiction.
Qed.

Lemma delete_key_length (key : string) (l : list (string * client)) :
  (length (delete_key key l) ≤ length l)%nat.
Proof.
  induction l as [|[k c] l IH]; simpl; [lia|].
  destruct (String.eqb k key); simpl; lia.
Qed.

Lemma lookup_key_app_new (key : string) (l : list (string * client)) (c : client) :
  key ∉ map fst l → lookup_key key (l ++ [(key, c)]) = Some c.
Proof.
  induction l as [|[k c'] l IH]; simpl; intros H.
  - rewrite String.eqb_refl. reflexivity.
  - destruct (String.eqb_spec k key) as [->|_].
    + exfalso. apply H. left.
    + apply IH. intros Hin. apply H. right. exact Hin.
Qed.

(** What the first part of [get_connection] leaves. *)
Lemma reuse_spec (key : string) (l : list (string * client)) :
  NoDup (map fst l) →
  match reuse client alive key l with
  | (Some c, l') => l' = l ∧ lookup_key key l = Some c ∧ alive c = true
  | (None, l') =>
      (key ∉ map fst l') ∧ NoDup (map fst l')
      ∧ (length l' ≤ length l)%nat
      ∧ (∀ k, k ∈ map fst l' → k ∈ map fst l)
  end.
Proof.
  intros Hnd. unfold reuse. destruct (lookup_key key l) as [c|] eqn:Hl.
  - destruct (alive c) eqn:Hc; [repeat split; assumption|].
    split; [intros H; apply delete_key_keys in H as [_ H]; congruence|].
    split; [apply delete_key_NoDup, Hnd|].
    split; [apply delete_key_length|].
    intros k Hk. apply delete_key_keys in Hk as [Hk _]. exact Hk.
  - split; [apply lookup_key_None, Hl|]. repeat split; auto.
Qed.

(** X24.  When the pool holds each key once and at most [max_connections]
    connections, with [max_connections] at least 1, it does so after
    [get_connection], whatever the call returns. *)
Theorem pool_stays_bounded (server : ssh_server) (p : pool client) :
  (1 ≤ max_connections)%Z →
  NoDup (map fst (connections p)) →
  (Z.of_nat (length (connections p)) ≤ max_connections)%Z →
  let p' := (get_connection client alive create max_connections server p).2 in
  NoDup (map fst (connections p'))
  ∧ (Z.of_nat (length (connections p')) ≤ max_connections)%Z.
Proof.
  intros Hmax Hnd Hlen p'. subst p'. unfold get_connection.
  pose proof (reuse_spec (_get_connection_key server) (connections p) Hnd) as Hr.
  destruct (reuse client alive (_get_connection_key server) (connections p))
    as [[c|] l].
  - destruct Hr as (-> & _ & _). split; assumption.
  - destruct Hr as (Hkey & Hnd' & Hlen' & Hsub).
    destruct (Z.leb_spec max_connections (Z.of_nat (length l))) as [Hfull|Hfree].
    + destruct l as [|[k0 c0] rest]; [simpl in Hfull; lia|].
      simpl in Hnd'. apply NoDup_cons in Hnd' as [Hk0 Hnd'].
      unfold connect. destruct (create server) as [c|]; cbn [snd connections].
      * split.
        -- rewrite map_app. apply NoDup_app. split; [exact Hnd'|].
           split; [|repeat constructor; intros H; apply list_elem_of_In in H;
                    contradiction].
           intros k Hk Hin. simpl in Hin. apply elem_of_cons in Hin as [->|Hin].
           ++ apply Hkey. right. exact Hk.
           ++ apply list_elem_of_In in Hin. contradiction.
        -- rewrite length_app. simpl in Hlen' |- *. lia.
      * split; [exact Hnd'|]. simpl in Hlen'. lia.
    + unfold connect. destruct (create server) as [c|]; cbn [snd connections].
      * split.
        -- rewrite map_app. apply NoDup_app. split; [exact Hnd'|].
           split; [|repeat constructor; intros H; apply list_elem_of_In in H;
                    contradiction].
           intros k Hk Hin. simpl in Hin. apply elem_of_cons in Hin as [->|Hin].
           ++ contradiction.
           ++ apply list_elem_of_In in Hin. contradiction.
        -- rewrite length_app. simpl. lia.
      * split; [exact Hnd'|]. lia.
Qed.

(** X25.  After [get_connection] returns a client, the pool holds that
    client under the key of the server; after it returns none, the pool holds
    nothing under the key.  A client of the pool that is alive is returned as
    it is and leaves the pool as it was: no connection is created, none is
    closed, and the connection keeps its place in the order of eviction. *)
Theorem pool_holds_returned_client (server : ssh_server) (p : pool client) :
  NoDup (map fst (connections p)) →
  let key := _get_connection_key server in
  let result := get_connection client alive create max_connections server p in
  (∀ c, result.1 = Returned (Some c) →
        lookup_key key (connections result.2) = Some c)
  ∧ (result.1 = Returned None → lookup_key key (connections result.2) = None)
  ∧ (∀ c, lookup_key key (connections p) = Some c → alive c = true →
          result = (Returned (Some c), p)).
Proof.
  intros Hnd key result. subst result. unfold get_connection. fold key.
  pose proof (reuse_spec key (connections p) Hnd) as Hr.
  destruct (reuse client alive key (connections p)) as [[c0|] l] eqn:Hreuse.
  - destruct Hr as (-> & Hl & Hc). cbn [fst snd connections].
    split; [intros c [= <-]; exact Hl|]. split; [discriminate|].
    intros c Hl' _. rewrite Hl in Hl'. injection Hl' as <-.
    destruct p. reflexivity.
  - destruct Hr as (Hkey & Hnd' & _ & _).
    assert (Hconnect : ∀ l' cl, key ∉ map fst l' →
      let r := connect client create server key l' cl in
      (∀ c, r.1 = Returned (Some c) → lookup_key key (connections r.2) = Some c)
      ∧ (r.1 = Returned None → lookup_key key (connections r.2) = None)).
    { intros l' cl Hl'. unfold connect.
      destruct (create server) as [c'|]; cbn [fst snd connections]; split.
      - intros c [= <-]. apply lookup_key_app_new, Hl'.
      - discriminate.
      - discriminate.
      - intros _. apply lookup_key_None, Hl'. }
    assert (Hdead : ∀ c, lookup_key key (connections p) = Some c →
              alive c = true → False).
    { intros c Hl Hc. unfold reuse in Hreuse. rewrite Hl, Hc in Hreuse.
      discriminate. }
    destruct (max_connections <=? Z.of_nat (length l))%Z.
    + destruct l as [|[k0 c0] rest].
      * cbn [fst snd connections]. split; [discriminate|].
        split; [discriminate|]. intros c Hl Hc. destruct (Hdead _ Hl Hc).
      * assert (Hrest : key ∉ map fst rest).
        { intros H. apply Hkey. right. exact H. }
        destruct (Hconnect rest (closed p ++ [c0]) Hrest) as [H1 H2].
        split; [exact H1|]. split; [exact H2|].
        intros c Hl Hc. destruct (Hdead _ Hl Hc).
    + destruct (Hconnect l (closed p) Hkey) as [H1 H2].
      split; [exact H1|]. split; [exact H2|].
      intros c Hl Hc. destruct (Hdead _ Hl Hc).
Qed.

End PoolProperties.

Lemma pool_stays_bounded_witness :
  let p' :=
    (get_connection nat (fun _ => true) (fun _ => Some 2) 1 sample_ssh_server
       sample_pool).2 in
  NoDup (map fst (connections p'))
  ∧ (Z.of_nat (length (connections p')) ≤ 1)%Z.
Proof.
  apply (pool_stays_bounded (fun _ => true) (fun _ => Some 2) 1
           sample_ssh_server sample_pool).
  - lia.
  - repeat constructor. intros H. apply list_elem_of_In in H. contradiction.
  - simpl. lia.
Defined.

Lemma pool_holds_returned_client_witness :
  get_connection nat (fun _ => true) (fun _ => Some 2) 1 other_ssh_server
    sample_pool
  = (Returned (Some 1), sample_pool).
Proof.
  apply (pool_holds_returned_client (fun _ => true) (fun _ => Some 2) 1
           other_ssh_server sample_pool).
  - repeat constructor. intros H. apply list_elem_of_In in H. contradiction.
  - vm_compute. reflexivity.
  - reflexivity.
Defined.

(** *** The key of a connection *)

Lemma contains_char_cons (c x : ascii) (s : string) :
  contains (String c "") (String x s)
  = Ascii.eqb c x || contains (String c "") s.
Proof.
  change (contains (String c "") (String x s))
    with ((Ascii.eqb c x && true) || contains (String c "") s).
  rewrite andb_true_r. reflexivity.
Qed.

Lemma contains_char_app (c : ascii) (a b : string) :
  contains (String c "") (a +:+ b)
  = contains (String c "") a || contains (String c "") b.
Proof.
  induction a as [|x a IH].
  - change ("" +:+ b) with b. destruct b; reflexivity.
  - change (String x a +:+ b) with (String x (a +:+ b)).
    rewrite !contains_char_cons, IH, orb_assoc. reflexivity.
Qed.

Lemma pretty_N_go_no_colon (x : N) (s : string) :
  contains ":" s = false → contains ":" (pretty_N_go x s) = false.
Proof.
  revert s. induction (N.lt_wf_0 x) as [x _ IH]; intros s Hs.
  assert (x = 0 ∨ 0 < x)%N as [->|Hx] by lia.
  - rewrite pretty_N_go_0. exact Hs.
  - rewrite pretty_N_go_step by exact Hx. apply IH.
    + apply N.div_lt; lia.
    + rewrite contains_char_cons, Hs, orb_false_r.
      unfold pretty_N_char. repeat case_match; reflexivity.
Qed.

Lemma pretty_Z_no_colon (z : Z) : contains ":" (pretty z) = false.
Proof.
  assert (Hpos : ∀ p : positive, contains ":" (pretty p) = false).
  { intros p. unfold pretty, pretty_positive, pretty, pretty_N.
    case_decide; [reflexivity|]. apply pretty_N_go_no_colon. reflexivity. }
  destruct z as [|p|p]; unfold pretty, pretty_Z.
  - reflexivity.
  - apply Hpos.
  - rewrite (contains_char_app ":" "-" (pretty p)), Hpos. reflexivity.
Qed.

Lemma split_at_colon (a1 a2 r1 r2 : string) :
  contains ":" a1 = false → contains ":" a2 = false →
  a1 +:+ ":" +:+ r1 = a2 +:+ ":" +:+ r2 → a1 = a2 ∧ r1 = r2.
Proof.
  revert a2. induction a1 as [|x a1 IH]; intros a2 H1 H2 E.
  - destruct a2 as [|y a2].
    + change (String ":" r1 = String ":" r2) in E. injection E as E.
      subst r2. split; reflexivity.
    + change ("" +:+ ":" +:+ r1) with (String ":" r1) in E.
      change (String y a2 +:+ ":" +:+ r2) with (String y (a2 +:+ ":" +:+ r2)) in E.
      injection E as <- _. rewrite contains_char_cons in H2. discriminate.
  - destruct a2 as [|y a2].
    + change ("" +:+ ":" +:+ r2) with (String ":" r2) in E.
      change (String x a1 +:+ ":" +:+ r1) with (String x (a1 +:+ ":" +:+ r1)) in E.
      injection E as -> _. rewrite contains_char_cons in H1. discriminate.
    + change (String x a1 +:+ ":" +:+ r1) with (String x (a1 +:+ ":" +:+ r1)) in E.
      change (String y a2 +:+ ":" +:+ r2) with (String y (a2 +:+ ":" +:+ r2)) in E.
      injection E as -> E.
      rewrite contains_char_cons in H1, H2.
      apply orb_false_elim in H1 as [_ H1]. apply orb_false_elim in H2 as [_ H2].
      destruct (IH _ H1 H2 E) as [-> ->]. split; reflexivity.
Qed.

(** X26.  Two servers whose host names have no colon and that have the
    same connection key have the same host name, the same port, an absent
    port counting as 22, and the same user name: servers that differ in one
    of these do not share a connection of the pool. *)
Theorem connection_key_distinguishes_servers (server1 server2 : ssh_server) :
  contains ":" (ssh_hostname server1) = false →
  contains ":" (ssh_hostname server2) = false →
  _get_connection_key server1 = _get_connection_key server2 →
  ssh_hostname server1 = ssh_hostname server2
  ∧ default 22%Z (ssh_port server1) = default 22%Z (ssh_port server2)
  ∧ ssh_username server1 = ssh_username server2.
Proof.
  intros H1 H2 E. unfold _get_connection_key in E.
  apply (split_at_colon _ _ _ _ H1 H2) in E as [Hh E].
  apply (split_at_colon _ _ _ _ (pretty_Z_no_colon _) (pretty_Z_no_colon _))
    in E as [Hp Hu].
  split; [exact Hh|]. split; [|exact Hu].
  exact (pretty_Z_inj _ _ Hp).
Qed.

Lemma connection_key_distinguishes_servers_witness :
  default 22%Z (ssh_port sample_ssh_server)
  = default 22%Z
      (ssh_port {| ssh_hostname := "aix01.example.com";
                   ssh_port := Some 22%Z;
                   ssh_username := "collector" |}).
Proof.
  apply (connection_key_distinguishes_servers sample_ssh_server
           {| ssh_hostname := "aix01.example.com";
              ssh_port := Some 22%Z;
              ssh_username := "collector" |}); reflexivity.
Defined.

(** *** The collection over the servers *)

Section CollectorProperties.

Import AIXLogCollector.

Context {duration : Type}.
Variable no_time : duration.
Variable elapsed : nat → duration.
Variable test_connection : server_config → bool.
Variable errpt_collect : server_config → outcome collect_result.
Variable syslog_collect : server_config → outcome collect_result.
Variable errpt_enabled : bool.
Variable syslog_enabled : bool.

Lemma collect_kind_stats kind collect server st tick :
  let '(r, st', _) := collect_kind duration no_time elapsed kind collect server
                        st tick in
  adds_records [r] st st' ∧ server_name r = name server.
Proof.
  unfold collect_kind, adds_records, successful_records.
  destruct (collect server) as [[ok records message]|e]; simpl.
  - destruct ok; simpl; repeat split; lia.
  - repeat split; lia.
Qed.

Lemma collect_from_server_stats server st tick :
  let '(results, st', _) :=
    collect_from_server duration no_time elapsed test_connection errpt_collect
      syslog_collect errpt_enabled syslog_enabled server st tick in
  adds_records results st st' ∧ (length results ≤ 2)%nat
  ∧ Forall (fun r => server_name r = name server) results.
Proof.
  unfold collect_from_server.
  destruct (test_connection server); simpl.
  2:{ unfold adds_records, successful_records. simpl.
      repeat split; try lia. repeat constructor. }
  destruct errpt_enabled.
  - pose proof (collect_kind_stats "errpt" errpt_collect server st tick) as H1.
    destruct (collect_kind duration no_time elapsed "errpt" errpt_collect server
                st tick) as [[r1 st1] tick1].
    destruct H1 as [(Ha & Hb & Hc & Hd) Hn1].
    destruct syslog_enabled.
    + pose proof (collect_kind_stats "syslog" syslog_collect server st1 tick1)
        as H2.
      destruct (collect_kind duration no_time elapsed "syslog" syslog_collect
                  server st1 tick1) as [[r2 st2] tick2].
      destruct H2 as [(Ha2 & Hb2 & Hc2 & Hd2) Hn2].
      unfold adds_records, successful_records in *. simpl in *.
      repeat split; try lia. repeat constructor; assumption.
    + unfold adds_records, successful_records in *. simpl in *.
      repeat split; try lia. repeat constructor; assumption.
  - destruct syslog_enabled.
    + pose proof (collect_kind_stats "syslog" syslog_collect server st tick)
        as H2.
      destruct (collect_kind duration no_time elapsed "syslog" syslog_collect
                  server st tick) as [[r2 st2] tick2].
      destruct H2 as [(Ha2 & Hb2 & Hc2 & Hd2) Hn2].
      unfold adds_records, successful_records in *. simpl in *.
      repeat split; try lia. repeat constructor; assumption.
    + unfold adds_records, successful_records. simpl.
      repeat split; try lia. constructor.
Qed.

Lemma count_results_stats (results : list (CollectionResult duration)) st :
  let st' := count_results duration results st in
  total_collections st' = total_collections st + length results
  ∧ successful_collections st' = successful_collections st + successes results
  ∧ failed_collections st' = failed_collections st + failures results
  ∧ total_records st' = total_records st.
Proof.
  revert st. induction results as [|r results IH]; intros st.
  - unfold successes, failures. simpl. repeat split; lia.
  - cbn [count_results]. specialize (IH
      {| total_collections := total_collections st + 1;
         successful_collections :=
           if result_success r then successful_collections st + 1
           else successful_collections st;
         failed_collections :=
           if result_success r then failed_collections st
           else failed_collections st + 1;
         total_records := total_records st;
         last_collection := last_collection st |}).
    cbv zeta in IH |- *. destruct IH as (Ha & Hb & Hc & Hd).
    rewrite Ha, Hb, Hc, Hd. unfold successes, failures. cbn.
    destruct (result_success r); cbn; repeat split; lia.
Qed.

Lemma successful_records_app (a b : list (CollectionResult duration)) :
  successful_records (a ++ b) = successful_records a + successful_records b.
Proof.
  unfold successful_records. induction a as [|r a IH]; simpl; [reflexivity|].
  rewrite IH. lia.
Qed.

Lemma successes_app (a b : list (CollectionResult duration)) :
  successes (a ++ b) = successes a + successes b
  ∧ failures (a ++ b) = failures a + failures b.
Proof.
  unfold successes, failures. rewrite !List.filter_app, !length_app.
  split; reflexivity.
Qed.

Lemma collect_servers_stats servers st tick :
  let '(results, st', _) :=
    collect_servers duration no_time elapsed test_connection errpt_collect
      syslog_collect errpt_enabled syslog_enabled servers st tick in
  total_collections st' = total_collections st + length results
  ∧ successful_collections st' = successful_collections st + successes results
  ∧ failed_collections st' = failed_collections st + failures results
  ∧ total_records st' = total_records st + successful_records results
  ∧ (length results ≤ 2 * length servers)%nat.
Proof.
  revert st tick. induction servers as [|server rest IH]; intros st tick.
  - unfold successes, failures, successful_records. simpl. repeat split; lia.
  - cbn [collect_servers].
    pose proof (collect_from_server_stats server st tick) as H1.
    destruct (collect_from_server duration no_time elapsed test_connection
                errpt_collect syslog_collect errpt_enabled syslog_enabled
                server st tick) as [[results st1] tick1].
    destruct H1 as ((Ha & Hb & Hc & Hd) & Hlen & _).
    pose proof (count_results_stats results st1) as H2. cbv zeta in H2.
    destruct H2 as (Ha2 & Hb2 & Hc2 & Hd2).
    specialize (IH (count_results duration results st1) tick1).
    destruct (collect_servers duration no_time elapsed test_connection
                errpt_collect syslog_collect errpt_enabled syslog_enabled rest
                (count_results duration results st1) tick1)
      as [[all_results st2] tick2].
    destruct IH as (Ha3 & Hb3 & Hc3 & Hd3 & Hlen3).
    rewrite length_app, successful_records_app.
    destruct (successes_app results all_results) as [-> ->].
    cbn [length]. repeat split; lia.
Qed.

(** X27.  The statistics kept by [collect_all_servers] account for the
    results it returns: the number of collections grows by the number of
    results, the successful and the failed ones by the results of each kind,
    and the number of records by the records of the successful results.
    There are at most two results for each server, and a count of collections
    that was the sum of the successful and the failed ones stays so. *)
Theorem collection_statistics_account_for_results
    (servers : list server_config) (st : stats) (now : string) :
  let '(results, st') :=
    collect_all_servers duration no_time elapsed test_connection errpt_collect
      syslog_collect errpt_enabled syslog_enabled servers st now in
  total_collections st' = total_collections st + length results
  ∧ successful_collections st' = successful_collections st + successes results
  ∧ failed_collections st' = failed_collections st + failures results
  ∧ total_records st' = total_records st + successful_records results
  ∧ (length results ≤ 2 * length servers)%nat
  ∧ (successful_collections st + failed_collections st = total_collections st →
     successful_collections st' + failed_collections st' = total_collections st')
  ∧ last_collection st' = Some now.
Proof.
  unfold collect_all_servers.
  pose proof (collect_servers_stats servers st 0) as H.
  destruct (collect_servers duration no_time elapsed test_connection
              errpt_collect syslog_collect errpt_enabled syslog_enabled servers
              st 0) as [[results st1] tick1].
  destruct H as (Ha & Hb & Hc & Hd & Hlen). cbn.
  assert (Hsum : successes results + failures results = length results).
  { clear. unfold successes, failures.
    induction results as [|r results IH]; simpl; [reflexivity|].
    destruct (result_success r); simpl; lia. }
  repeat split; try lia.
Qed.

Lemma collect_servers_unreachable servers st tick :
  Forall (fun server => test_connection server = false) servers →
  collect_servers duration no_time elapsed test_connection errpt_collect
    syslog_collect errpt_enabled syslog_enabled servers st tick
  = (map (unreachable no_time) servers,
     {| total_collections := total_collections st + length servers;
        successful_collections := successful_collections st;
        failed_collections := failed_collections st + length servers;
        total_records := total_records st;
        last_collection := last_collection st |},
     tick).
Proof.
  intros H. revert st. induction H as [|server rest Hs _ IH]; intros st.
  - simpl. destruct st. cbn. rewrite !Nat.add_0_r. reflexivity.
  - cbn [collect_servers]. unfold collect_from_server. rewrite Hs.
    cbn [negb count_results]. rewrite IH. cbn.
    do 2 f_equal. f_equal; lia.
Qed.

(** X28.  When no server can be reached, [collect_all_servers] returns one
    failed result of the kind [connection_test] for each server, in order,
    whatever the collectors are, which are not consulted; the statistics
    count one failed collection for each server and no record. *)
Theorem unreachable_servers_give_one_failure_each
    (servers : list server_config) (st : stats) (now : string) :
  Forall (fun server => test_connection server = false) servers →
  collect_all_servers duration no_time elapsed test_connection errpt_collect
    syslog_collect errpt_enabled syslog_enabled servers st now
  = (map (unreachable no_time) servers,
     {| total_collections := total_collections st + length servers;
        successful_collections := successful_collections st;
        failed_collections := failed_collections st + length servers;
        total_records := total_records st;
        last_collection := Some now |}).
Proof.
  intros H. unfold collect_all_servers.
  rewrite (collect_servers_unreachable _ _ _ H). reflexivity.
Qed.

End CollectorProperties.

Lemma collection_statistics_account_for_results_witness :
  let '(results, st') :=
    AIXLogCollector.collect_all_servers nat 0 (fun k => k) (fun _ => true)
      three_records broken_collector true true [sample_server] fresh_stats
      sample_now in
  AIXLogCollector.successful_collections st'
  + AIXLogCollector.failed_collections st'
  = AIXLogCollector.total_collections st'.
Proof.
  pose proof (collection_statistics_account_for_results 0 (fun k => k)
                (fun _ => true) three_records broken_collector true true
                [sample_server] fresh_stats sample_now) as H.
  destruct (AIXLogCollector.collect_all_servers nat 0 (fun k => k)
              (fun _ => true) three_records broken_collector true true
              [sample_server] fresh_stats sample_now) as [results st'].
  destruct H as (_ & _ & _ & _ & _ & H & _). apply H. reflexivity.
Defined.

Lemma unreachable_servers_give_one_failure_each_witness :
  AIXLogCollector.collect_all_servers nat 0 (fun k => k) (fun _ => false)
    three_records broken_collector true true [sample_server; sample_server]
    fresh_stats sample_now
  = (map (unreachable 0) [sample_server; sample_server],
     {| AIXLogCollector.total_collections := 2;
        AIXLogCollector.successful_collections := 0;
        AIXLogCollector.failed_collections := 2;
        AIXLogCollector.total_records := 0;
        AIXLogCollector.last_collection := Some sample_now |}).
Proof.
  apply (unreachable_servers_give_one_failure_each 0 (fun k => k)
           (fun _ => false) three_records broken_collector true true
           [sample_server; sample_server] fresh_stats sample_now).
  repeat constructor.
Defined.

(** *** The list of servers of the store *)

Lemma server_names_of_records_spec records servers :
  NoDup servers → Forall (fun n => truthy n = true) servers →
  let servers' := server_names_of_records records servers in
  NoDup servers' ∧ Forall (fun n => truthy n = true) servers'
  ∧ (∀ n, n ∈ servers' ↔
          n ∈ servers
          ∨ (truthy n = true
             ∧ ∃ values, values ∈ records
                         ∧ get values "server_name" (VStr "") = n)).
Proof.
  revert servers. induction records as [|values rest IH];
    intros servers Hnd Htr; cbn [server_names_of_records]; cbv zeta.
  - split; [exact Hnd|]. split; [exact Htr|]. intros n. split; [tauto|].
    intros [H|(_ & v & Hv & _)]; [exact H|].
    apply list_elem_of_In in Hv. contradiction.
  - destruct (truthy (get values "server_name" (VStr ""))) eqn:Ht; cbn [andb].
    + destruct (bool_decide_reflect
                  (get values "server_name" (VStr "") ∈ servers)) as [Hin|Hin];
        cbn [negb].
      * destruct (IH servers Hnd Htr) as (H1 & H2 & H3).
        split; [exact H1|]. split; [exact H2|]. intros n. rewrite H3.
        split.
        -- intros [H|(Hn & v & Hv & E)]; [left; exact H|].
           right. split; [exact Hn|]. exists v. split; [right; exact Hv|exact E].
        -- intros [H|(Hn & v & Hv & E)]; [left; exact H|].
           apply elem_of_cons in Hv as [->|Hv].
           ++ left. rewrite <- E. exact Hin.
           ++ right. split; [exact Hn|]. exists v. split; assumption.
      * assert (Hnd' : NoDup (servers ++ [get values "server_name" (VStr "")])).
        { apply NoDup_app. split; [exact Hnd|]. split.
          - intros x Hx Hx'. apply list_elem_of_singleton in Hx'. subst x.
            contradiction.
          - repeat constructor. intros H. apply list_elem_of_In in H.
            contradiction. }
        assert (Htr' : Forall (fun n => truthy n = true)
                         (servers ++ [get values "server_name" (VStr "")])).
        { apply Forall_app. split; [exact Htr|]. repeat constructor. exact Ht. }
        destruct (IH _ Hnd' Htr') as (H1 & H2 & H3).
        split; [exact H1|]. split; [exact H2|]. intros n. rewrite H3.
        rewrite elem_of_app, list_elem_of_singleton. split.
        -- intros [[H| ->]|(Hn & v & Hv & E)].
           ++ left. exact H.
           ++ right. split; [exact Ht|]. exists values. split; [left|reflexivity].
           ++ right. split; [exact Hn|]. exists v. split; [right; exact Hv|exact E].
        -- intros [H|(Hn & v & Hv & E)]; [left; left; exact H|].
           apply elem_of_cons in Hv as [->|Hv].
           ++ left. right. symmetry. exact E.
           ++ right. split; [exact Hn|]. exists v. split; assumption.
    + destruct (IH servers Hnd Htr) as (H1 & H2 & H3).
      split; [exact H1|]. split; [exact H2|]. intros n. rewrite H3. split.
      * intros [H|(Hn & v & Hv & E)]; [left; exact H|].
        right. split; [exact Hn|]. exists v. split; [right; exact Hv|exact E].
      * intros [H|(Hn & v & Hv & E)]; [left; exact H|].
        apply elem_of_cons in Hv as [->|Hv].
        -- rewrite E in Ht. congruence.
        -- right. split; [exact Hn|]. exists v. split; assumption.
Qed.

Lemma server_names_of_tables_spec tables servers :
  NoDup servers → Forall (fun n => truthy n = true) servers →
  let servers' := server_names_of_tables tables servers in
  NoDup servers' ∧ Forall (fun n => truthy n = true) servers'
  ∧ (∀ n, n ∈ servers' ↔
          n ∈ servers
          ∨ (truthy n = true
             ∧ ∃ records values,
                 records ∈ tables ∧ values ∈ records
                 ∧ get values "server_name" (VStr "") = n)).
Proof.
  revert servers. induction tables as [|records rest IH];
    intros servers Hnd Htr; cbn [server_names_of_tables]; cbv zeta.
  - split; [exact Hnd|]. split; [exact Htr|]. intros n. split; [tauto|].
    intros [H|(_ & r & v & Hr & _)]; [exact H|].
    apply list_elem_of_In in Hr. contradiction.
  - destruct (server_names_of_records_spec records servers Hnd Htr)
      as (Hnd1 & Htr1 & H1).
    destruct (IH _ Hnd1 Htr1) as (Hnd2 & Htr2 & H2).
    split; [exact Hnd2|]. split; [exact Htr2|]. intros n. rewrite H2, H1.
    split.
    + intros [[H|(Hn & v & Hv & E)]|(Hn & r & v & Hr & Hv & E)].
      * left. exact H.
      * right. split; [exact Hn|]. exists records, v.
        split; [left | split; assumption].
      * right. split; [exact Hn|]. exists r, v.
        split; [right; exact Hr | split; assumption].
    + intros [H|(Hn & r & v & Hr & Hv & E)]; [left; left; exact H|].
      apply elem_of_cons in Hr as [->|Hr].
      * left. right. split; [exact Hn|]. exists v. split; assumption.
      * right. split; [exact Hn|]. exists r, v. repeat split; assumption.
Qed.

(** X29.  The list of servers has no name twice and no empty name; its
    names are exactly the non-empty server names of the records of the
    result, a record without name counting for none; and the list is empty
    when the query raises. *)
Theorem server_list_is_duplicate_free
    (result : outcome (list (list (gmap string value)))) :
  NoDup (get_server_list result)
  ∧ (∀ n, n ∈ get_server_list result → truthy n = true ∧ n ≠ VStr "")
  ∧ match result with
    | Returned tables =>
        ∀ n, n ∈ get_server_list result ↔
             truthy n = true
             ∧ ∃ records values,
                 records ∈ tables ∧ values ∈ records
                 ∧ values !! "server_name" = Some n
    | Raised _ => get_server_list result = []
    end.
Proof.
  destruct result as [tables|e]; cbn [get_server_list].
  2:{ split; [constructor|]. split; [|reflexivity].
      intros n H. apply list_elem_of_In in H. contradiction. }
  destruct (server_names_of_tables_spec tables [] ltac:(constructor)
              ltac:(constructor)) as (Hnd & Htr & H).
  split; [exact Hnd|]. split.
  - intros n Hn. pose proof (proj1 (Forall_forall _ _) Htr n Hn) as Ht.
    split; [exact Ht|]. intros ->. discriminate.
  - intros n. rewrite H. split.
    + intros [Hin|(Hn & r & v & Hr & Hv & E)].
      * apply list_elem_of_In in Hin. contradiction.
      * split; [exact Hn|]. exists r, v. split; [exact Hr|].
        split; [exact Hv|]. unfold get in E.
        destruct (v !! "server_name") as [x|]; simpl in E.
        -- subst x. reflexivity.
        -- subst n. discriminate.
    + intros (Hn & r & v & Hr & Hv & E). right. split; [exact Hn|].
      exists r, v. split; [exact Hr|]. split; [exact Hv|].
      unfold get. rewrite E. reflexivity.
Qed.
